(** * dupe-analyser: the analysis engine, source discovery and report model

    A shallow embedding of [internal/analyser/analyser.go],
    [internal/source/source.go] and the data types of
    [internal/report/report.go], and the properties of the engine that the
    design document states about them.

    Conventions.
    - Go's [int] and [int64] are 64-bit two's-complement integers and
      [int32] a 32-bit one; they are values in [Z] and every addition the
      code performs is wrapped by [wrap].
    - Go maps are [gmap]s; reading a missing key gives the zero value of
      the element type, written with [default].
    - The worker pool of [Run] is followed on the schedule of one worker
      that takes the sources in dispatch order.  The aggregates are only
      ever appended to or incremented under their own lock, so other
      schedules permute the location lists and leave the counters alone.
    - A [Context] is the cancellation signal as the code observes it: by
      polling. *)

From Stdlib Require Import ZArith Ascii QArith Qcanon.
From stdpp Require Import gmap strings list fin_maps pretty numbers sorting.

Set Warnings "-register-all".

Open Scope Z_scope.

(** ** Machine integers *)

Definition wrap (bits x : Z) : Z :=
  (x + 2 ^ (bits - 1)) `mod` 2 ^ bits - 2 ^ (bits - 1).

Definition int_add (x y : Z) : Z := wrap 64 (x + y).
Definition int64_add (x y : Z) : Z := wrap 64 (x + y).
Definition int32_add (x y : Z) : Z := wrap 32 (x + y).

(** ** hash/fnv, 64-bit FNV-1a, the [hash.Hash64] that [processSource]
    creates with [fnv.New64a] *)

Module fnv.
Definition offset64 : Z := 14695981039346656037.
Definition prime64 : Z := 1099511628211.

(** The state of a [*sum64a] is the running hash, a [uint64]. *)
Definition New64a : Z := offset64.
Definition Reset (_ : Z) : Z := offset64.

Definition write_byte (h : Z) (c : ascii) : Z :=
  (Z.lxor h (Z.of_N (N_of_ascii c)) * prime64) `mod` 2 ^ 64.

Fixpoint Write (h : Z) (data : string) : Z :=
  match data with
  | EmptyString => h
  | String c rest => Write (write_byte h c) rest
  end.

Definition Sum64 (h : Z) : Z := h.
End fnv.

(** [strconv.FormatUint(x, 10)] *)
Definition FormatUint10 (x : Z) : string := pretty (Z.to_N x).

(** ** JSON rows *)

(** A [float64] of a decoded row is never computed with; it is kept as its
    IEEE-754 bit pattern. *)
Definition float64bits := N.

(** The text of one JSON value, fields of an object in the order they are
    written on the line. *)
Inductive JSONText :=
| TNull
| TBool (b : bool)
| TNumber (x : float64bits)
| TString (s : string)
| TArray (items : list JSONText)
| TObject (fields : list (string * JSONText)).

(** What [encoding/json] decodes into an [interface{}]: [nil], [bool],
    [float64], [string], [[]interface{}] or [map[string]interface{}]. *)
Inductive JSONValue :=
| JNull
| JBool (b : bool)
| JNumber (x : float64bits)
| JString (s : string)
| JArray (items : list JSONValue)
| JObject (members : gmap string JSONValue).

(** [report.JSONData] is [map[string]interface{}]; [None] is the nil map
    that decoding the text [null] leaves behind. *)
Definition JSONData := option (gmap string JSONValue).

(** The decoder stores the members of an object one by one, in text
    order, with [m[key] = value]: of two fields with one name the later
    one stays. *)
Fixpoint decodeValue (t : JSONText) : JSONValue :=
  match t with
  | TNull => JNull
  | TBool b => JBool b
  | TNumber x => JNumber x
  | TString s => JString s
  | TArray items => JArray (map decodeValue items)
  | TObject fields =>
      JObject
        ((fix members (fs : list (string * JSONText))
              (m : gmap string JSONValue) : gmap string JSONValue :=
            match fs with
            | [] => m
            | f :: rest => members rest (<[f.1 := decodeValue f.2]> m)
            end) fields ∅)
  end.

Definition decodeObject (fields : list (string * JSONText))
    : gmap string JSONValue :=
  fold_left (λ m f, <[f.1 := decodeValue f.2]> m) fields ∅.

(** [json.Unmarshal(line, &data)] with [data] a [report.JSONData], on a
    line that is a JSON text: an object fills the map, [null] leaves it
    nil, any other value is an [UnmarshalTypeError]. *)
Definition json_Unmarshal (t : JSONText) : option JSONData :=
  match t with
  | TObject fields => Some (Some (decodeObject fields))
  | TNull => Some None
  | _ => None
  end.

(** [data[key]] with the comma-ok form. *)
Definition data_lookup (key : string) (data : JSONData) : option JSONValue :=
  match data with
  | Some m => m !! key
  | None => None
  end.

(** One token of the [bufio.Scanner], as [processSource] looks at it: its
    length is zero, or it is not a JSON text, or it is one. *)
Inductive Line :=
| Blank
| Garbage
| Json (t : JSONText).

(** ** The Go library and the world outside the engine *)

(** The library functions the engine calls on values it does not
    inspect itself. *)
Class GoRuntime := {
  (** [filepath.Dir] *)
  filepath_Dir : string → string;
  (** [json.Marshal] of a [report.JSONData]: compact, members of every
      object sorted by name. *)
  json_Marshal : JSONData → string;
  (** [fmt.Sprintf("%v", v)] *)
  fmt_Sprint_v : JSONValue → string;
  (** [strings.TrimSpace] and [strings.ToLower] *)
  strings_TrimSpace : string → string;
  strings_ToLower : string → string;
}.

(** ** report.LocationInfo and the sources *)

Record LocationInfo := { FilePath : string; LineNumber : Z }.

Global Instance LocationInfo_eq_dec : EqDecision LocationInfo.
Proof. solve_decision. Defined.

(** The two implementations of [source.InputSource]. A
    [GCSObjectSource] is kept as the bucket, name and size of its
    [storage.ObjectAttrs]. *)
Inductive InputSource :=
| LocalFileSource (filePath : string) (size : Z)
| GCSObjectSource (bucket name : string) (size : Z).

Global Instance InputSource_eq_dec : EqDecision InputSource.
Proof. solve_decision. Defined.

Definition Path (s : InputSource) : string :=
  match s with
  | LocalFileSource filePath _ => filePath
  | GCSObjectSource bucket name _ => "gs://" +:+ bucket +:+ "/" +:+ name
  end.

Definition Dir `{GoRuntime} (s : InputSource) : string :=
  match s with
  | LocalFileSource filePath _ => filepath_Dir filePath
  | GCSObjectSource _ _ _ => filepath_Dir (Path s)
  end.

Definition Size (s : InputSource) : Z :=
  match s with
  | LocalFileSource _ size => size
  | GCSObjectSource _ _ size => size
  end.

(** What a scan of an opened source yields: the tokens up to the point
    where [scanner.Scan] returns false, and whether [scanner.Err] is then
    non-nil (a read error, a line over the 4 MiB buffer). *)
Record Stream := { tokens : list Line; scanErr : bool }.

(** The files and objects behind the sources. [None] is a failed
    [Open]. *)
Record World := {
  os_Open : string → option Stream;
  gcs_NewReader : string → string → option Stream;
}.

Definition Open (w : World) (s : InputSource) : option Stream :=
  match s with
  | LocalFileSource filePath _ => os_Open w filePath
  | GCSObjectSource bucket name _ => gcs_NewReader w bucket name
  end.

(** ** Cancellation *)

(** A [context.Context] as seen through [ctx.Done] and [ctx.Err]:
    [Some n] is cancelled after [n] more polls have seen it live,
    [None] is never cancelled. *)
Definition Context := option nat.

Definition poll (ctx : Context) : bool * Context :=
  match ctx with
  | None => (false, None)
  | Some O => (true, Some O)
  | Some (S n) => (false, Some n)
  end.

(** ** The engine state *)

Record Analyser := {
  uniqueKey : string;
  numWorkers : Z;
  checkKey : bool;
  checkRow : bool;
  ValidateOnly : bool;
  idLocations : gmap string (list LocationInfo);
  rowHashes : gmap string (list LocationInfo);
  keysFoundPerFolder : gmap string Z;
  rowsProcessedPerFolder : gmap string Z;
  ProcessedFiles : Z;
  TotalRows : Z;
  CurrentFolder : option string;
  processedPaths : gmap string bool;
}.

Definition New (uniqueKey : string) (numWorkers : Z)
    (checkKey checkRow validateOnly : bool) : Analyser :=
  {| uniqueKey := uniqueKey; numWorkers := numWorkers;
     checkKey := checkKey; checkRow := checkRow;
     ValidateOnly := validateOnly;
     idLocations := ∅; rowHashes := ∅;
     keysFoundPerFolder := ∅; rowsProcessedPerFolder := ∅;
     ProcessedFiles := 0; TotalRows := 0; CurrentFolder := None;
     processedPaths := ∅ |}.

(** Field updates. *)
Definition with_idLocations (m : gmap string (list LocationInfo))
    (a : Analyser) : Analyser :=
  {| uniqueKey := uniqueKey a; numWorkers := numWorkers a;
     checkKey := checkKey a; checkRow := checkRow a;
     ValidateOnly := ValidateOnly a;
     idLocations := m; rowHashes := rowHashes a;
     keysFoundPerFolder := keysFoundPerFolder a;
     rowsProcessedPerFolder := rowsProcessedPerFolder a;
     ProcessedFiles := ProcessedFiles a; TotalRows := TotalRows a;
     CurrentFolder := CurrentFolder a;
     processedPaths := processedPaths a |}.

Definition with_rowHashes (m : gmap string (list LocationInfo))
    (a : Analyser) : Analyser :=
  {| uniqueKey := uniqueKey a; numWorkers := numWorkers a;
     checkKey := checkKey a; checkRow := checkRow a;
     ValidateOnly := ValidateOnly a;
     idLocations := idLocations a; rowHashes := m;
     keysFoundPerFolder := keysFoundPerFolder a;
     rowsProcessedPerFolder := rowsProcessedPerFolder a;
     ProcessedFiles := ProcessedFiles a; TotalRows := TotalRows a;
     CurrentFolder := CurrentFolder a;
     processedPaths := processedPaths a |}.

Definition with_keysFoundPerFolder (m : gmap string Z)
    (a : Analyser) : Analyser :=
  {| uniqueKey := uniqueKey a; numWorkers := numWorkers a;
     checkKey := checkKey a; checkRow := checkRow a;
     ValidateOnly := ValidateOnly a;
     idLocations := idLocations a; rowHashes := rowHashes a;
     keysFoundPerFolder := m;
     rowsProcessedPerFolder := rowsProcessedPerFolder a;
     ProcessedFiles := ProcessedFiles a; TotalRows := TotalRows a;
     CurrentFolder := CurrentFolder a;
     processedPaths := processedPaths a |}.

(** [a.TotalRows.Add(1)] followed by [a.rowsProcessedPerFolder[dir]++]. *)
Definition countRow (dir : string) (a : Analyser) : Analyser :=
  {| uniqueKey := uniqueKey a; numWorkers := numWorkers a;
     checkKey := checkKey a; checkRow := checkRow a;
     ValidateOnly := ValidateOnly a;
     idLocations := idLocations a; rowHashes := rowHashes a;
     keysFoundPerFolder := keysFoundPerFolder a;
     rowsProcessedPerFolder :=
       <[dir := int64_add (default 0 (rowsProcessedPerFolder a !! dir)) 1]>
         (rowsProcessedPerFolder a);
     ProcessedFiles := ProcessedFiles a;
     TotalRows := int64_add (TotalRows a) 1;
     CurrentFolder := CurrentFolder a;
     processedPaths := processedPaths a |}.

(** [a.CurrentFolder.Store(dir)] *)
Definition storeCurrentFolder (dir : string) (a : Analyser) : Analyser :=
  {| uniqueKey := uniqueKey a; numWorkers := numWorkers a;
     checkKey := checkKey a; checkRow := checkRow a;
     ValidateOnly := ValidateOnly a;
     idLocations := idLocations a; rowHashes := rowHashes a;
     keysFoundPerFolder := keysFoundPerFolder a;
     rowsProcessedPerFolder := rowsProcessedPerFolder a;
     ProcessedFiles := ProcessedFiles a; TotalRows := TotalRows a;
     CurrentFolder := Some dir;
     processedPaths := processedPaths a |}.

(** [a.processedPaths[path] = true] followed by
    [a.ProcessedFiles.Add(1)]. *)
Definition markProcessed (path : string) (a : Analyser) : Analyser :=
  {| uniqueKey := uniqueKey a; numWorkers := numWorkers a;
     checkKey := checkKey a; checkRow := checkRow a;
     ValidateOnly := ValidateOnly a;
     idLocations := idLocations a; rowHashes := rowHashes a;
     keysFoundPerFolder := keysFoundPerFolder a;
     rowsProcessedPerFolder := rowsProcessedPerFolder a;
     ProcessedFiles := int32_add (ProcessedFiles a) 1;
     TotalRows := TotalRows a;
     CurrentFolder := CurrentFolder a;
     processedPaths := <[path := true]> (processedPaths a) |}.

(** [m[k] = append(m[k], loc)] *)
Definition appendLocation (k : string) (loc : LocationInfo)
    (m : gmap string (list LocationInfo)) : gmap string (list LocationInfo) :=
  <[k := default [] (m !! k) ++ [loc]]> m.

(** ** The report model *)

Module FolderDetail.
Record t := {
  ProcessedSizeBytes : Z;
  TotalSizeBytes : Z;
  FilesProcessed : Z;
  TotalFiles : Z;
  KeysFound : Z;
  RowsProcessed : Z;
}.

(** The zero value, what [folderDetails[dir]] reads for a new [dir]. *)
Definition zero : t :=
  {| ProcessedSizeBytes := 0; TotalSizeBytes := 0; FilesProcessed := 0;
     TotalFiles := 0; KeysFound := 0; RowsProcessed := 0 |}.
End FolderDetail.

(** The two averages are [float64] quotients of integers; they are kept
    as the exact quotient. The fields that only hold formatted text
    ([ProcessedDataSizeHuman], [TotalDataSizeOverallHuman],
    [TotalElapsedTime]) are left to the presentation layer. *)
Module SummaryReport.
Record t := {
  IsValidationReport : bool;
  IsPartialReport : bool;
  FilesProcessed : Z;
  TotalFiles : Z;
  ProcessedDataSizeBytes : Z;
  TotalDataSizeOverallBytes : Z;
  TotalRowsProcessed : Z;
  UniqueKey : string;
  TotalKeyOccurrences : Z;
  UniqueKeysDuplicated : Z;
  DuplicateRowInstances : Z;
  AverageRowsPerFile : Qc;
  AverageFilesPerFolder : Qc;
  DuplicateIDsPerFolder : gmap string Z;
  DuplicateRowsPerFolder : gmap string Z;
  FolderDetails : gmap string FolderDetail.t;
}.
End SummaryReport.

Record AnalysisReport := {
  Summary : SummaryReport.t;
  DuplicateIDs : gmap string (list LocationInfo);
  DuplicateRows : gmap string (list LocationInfo);
}.

(** [len(x)] *)
Definition len {A} (l : list A) : Z := Z.of_nat (length l).

(** [float64(x) / float64(y)] *)
Definition float64_div (x y : Z) : Qc := (Qc_of_Z x / Qc_of_Z y)%Qc.

Section Engine.
Context `{GoRuntime}.

(** The content hash of a row: [rowHasher.Reset()], [json.Marshal],
    [rowHasher.Write], [strconv.FormatUint(rowHasher.Sum64(), 10)].
    The second component is the hasher as the call leaves it. *)
Definition hashRow (data : JSONData) (rowHasher : Z) : string * Z :=
  let h := fnv.Reset rowHasher in
  let compactRow := json_Marshal data in
  let h := fnv.Write h compactRow in
  (FormatUint10 (fnv.Sum64 h), h).

(** [processRow]. The hasher belongs to the caller and is handed back. *)
Definition processRow (a : Analyser) (data : JSONData) (filePath : string)
    (lineNumber : Z) (rowHasher : Z) : Analyser * Z :=
  if negb (checkKey a) then (a, rowHasher) else
  let loc := {| FilePath := filePath; LineNumber := lineNumber |} in
  let keyed : Analyser * bool :=
    match data_lookup (uniqueKey a) data with
    | Some v =>
        let dir := filepath_Dir filePath in
        let a1 :=
          with_keysFoundPerFolder
            (<[dir := int64_add (default 0 (keysFoundPerFolder a !! dir)) 1]>
               (keysFoundPerFolder a)) a in
        if ValidateOnly a1 then (a1, true)
        else
          let idStr := fmt_Sprint_v v in
          (with_idLocations (appendLocation idStr loc (idLocations a1)) a1,
           false)
    | None => (a, false)
    end in
  let '(a2, returned) := keyed in
  if returned then (a2, rowHasher) else
  if checkRow a2 && negb (ValidateOnly a2) then
    let '(hashString, h) := hashRow data rowHasher in
    (with_rowHashes (appendLocation hashString loc (rowHashes a2)) a2, h)
  else (a2, rowHasher).

(** The body of the loop [for scanner.Scan() { ... }] of
    [processSource] from [line := scanner.Bytes()] on, [lineNumber]
    being already advanced. *)
Definition scanLine (a : Analyser) (path dir : string) (rowHasher : Z)
    (lineNumber : Z) (line : Line) : Analyser * Z :=
  match line with
  | Blank => (a, rowHasher)
  | Garbage => (countRow dir a, rowHasher)
  | Json t =>
      let a := countRow dir a in
      match json_Unmarshal t with
      | None => (a, rowHasher)
      | Some data => processRow a data path lineNumber rowHasher
      end
  end.

(** The loop itself, from the token about to be read. [lineNumber]
    counts the tokens read so far. The last component tells whether
    the loop was left by the [return] on [ctx.Done]. *)
Fixpoint scanLoop (ctx : Context) (a : Analyser) (path dir : string)
    (rowHasher : Z) (lineNumber : Z) (rest : list Line)
    : Context * Analyser * bool :=
  match rest with
  | [] => (ctx, a, false)
  | line :: rest =>
      let '(done, ctx) :=
        if Z.rem lineNumber 1000 =? 0 then poll ctx else (false, ctx) in
      if done then (ctx, a, true) else
      let lineNumber := int_add lineNumber 1 in
      let '(a, rowHasher) := scanLine a path dir rowHasher lineNumber line in
      scanLoop ctx a path dir rowHasher lineNumber rest
  end.

(** [processSource] *)
Definition processSource (w : World) (ctx : Context) (a : Analyser)
    (src : InputSource) : Context * Analyser :=
  let a := storeCurrentFolder (Dir src) a in
  match Open w src with
  | None => (ctx, a)
  | Some reader =>
      let rowHasher := fnv.New64a in
      let '(ctx, a, cancelled) :=
        scanLoop ctx a (Path src) (Dir src) rowHasher 0 (tokens reader) in
      if cancelled then (ctx, a)
      else if scanErr reader then (ctx, a)
      else (ctx, markProcessed (Path src) a)
  end.

(** [worker], over what the feeder sends. The feeder of [Run] selects
    on the same [ctx.Done] before each send; the signal, once given,
    stays, so the source it would still send is the one the worker
    drops here. *)
Fixpoint worker (w : World) (ctx : Context) (a : Analyser)
    (sourceChan : list InputSource) : Context * Analyser :=
  match sourceChan with
  | [] => (ctx, a)
  | src :: rest =>
      let '(done, ctx) := poll ctx in
      if done then (ctx, a)
      else
        let '(ctx, a) := processSource w ctx a src in
        worker w ctx a rest
  end.

(** [GetUnprocessedSources] *)
Definition GetUnprocessedSources (a : Analyser)
    (allSources : list InputSource) : list InputSource :=
  filter (λ s, default false (processedPaths a !! Path s) = false)
    allSources.

(** [m[filepath.Dir(loc.FilePath)]++] for every [loc] of a group. *)
Definition countPerFolder (locations : list LocationInfo)
    (m : gmap string Z) : gmap string Z :=
  fold_left
    (λ m loc,
       let dir := filepath_Dir (FilePath loc) in
       <[dir := int_add (default 0 (m !! dir)) 1]> m)
    locations m.

(** What the loop over [a.idLocations] of [generateReport] computes. *)
Record IDTally := {
  totalIDs : Z;
  uniqueDuplicateIDsCount : Z;
  tallyDuplicateIDs : gmap string (list LocationInfo);
  dupeIDsPerFolder : gmap string Z;
}.

Definition tallyID (id : string) (locations : list LocationInfo)
    (acc : IDTally) : IDTally :=
  let total := int_add (totalIDs acc) (len locations) in
  if 1 <? len locations then
    {| totalIDs := total;
       uniqueDuplicateIDsCount := int_add (uniqueDuplicateIDsCount acc) 1;
       tallyDuplicateIDs := <[id := locations]> (tallyDuplicateIDs acc);
       dupeIDsPerFolder := countPerFolder locations (dupeIDsPerFolder acc) |}
  else
    {| totalIDs := total;
       uniqueDuplicateIDsCount := uniqueDuplicateIDsCount acc;
       tallyDuplicateIDs := tallyDuplicateIDs acc;
       dupeIDsPerFolder := dupeIDsPerFolder acc |}.

Definition noIDs : IDTally :=
  {| totalIDs := 0; uniqueDuplicateIDsCount := 0;
     tallyDuplicateIDs := ∅; dupeIDsPerFolder := ∅ |}.

(** What the loop over [a.rowHashes] computes. *)
Record RowTally := {
  totalDuplicateRowsCount : Z;
  tallyDuplicateRows : gmap string (list LocationInfo);
  dupeRowsPerFolder : gmap string Z;
}.

Definition tallyRow (hash : string) (locations : list LocationInfo)
    (acc : RowTally) : RowTally :=
  if 1 <? len locations then
    {| totalDuplicateRowsCount :=
         int_add (totalDuplicateRowsCount acc) (len locations);
       tallyDuplicateRows := <[hash := locations]> (tallyDuplicateRows acc);
       dupeRowsPerFolder :=
         countPerFolder locations (dupeRowsPerFolder acc) |}
  else acc.

Definition noRows : RowTally :=
  {| totalDuplicateRowsCount := 0; tallyDuplicateRows := ∅;
     dupeRowsPerFolder := ∅ |}.

(** One turn of the loop over [sources] that fills [folderDetails];
    the second component is [totalOverallBytes]. *)
Definition folderStep (a : Analyser)
    (acc : gmap string FolderDetail.t * Z) (s : InputSource)
    : gmap string FolderDetail.t * Z :=
  let '(folderDetails, totalOverallBytes) := acc in
  let dir := Dir s in
  let detail := default FolderDetail.zero (folderDetails !! dir) in
  let size := Size s in
  let processed := default false (processedPaths a !! Path s) in
  let detail :=
    {| FolderDetail.TotalFiles := int_add (FolderDetail.TotalFiles detail) 1;
       FolderDetail.TotalSizeBytes :=
         int64_add (FolderDetail.TotalSizeBytes detail) size;
       FolderDetail.FilesProcessed :=
         if processed
         then int_add (FolderDetail.FilesProcessed detail) 1
         else FolderDetail.FilesProcessed detail;
       FolderDetail.ProcessedSizeBytes :=
         if processed
         then int64_add (FolderDetail.ProcessedSizeBytes detail) size
         else FolderDetail.ProcessedSizeBytes detail;
       FolderDetail.KeysFound := default 0 (keysFoundPerFolder a !! dir);
       FolderDetail.RowsProcessed :=
         default 0 (rowsProcessedPerFolder a !! dir) |} in
  (<[dir := detail]> folderDetails, int64_add totalOverallBytes size).

(** [generateReport] *)
Definition generateReport (a : Analyser) (sources : list InputSource)
    (wasCancelled isValidation : bool) : AnalysisReport :=
  let ids :=
    if checkKey a && negb isValidation
    then map_fold tallyID noIDs (idLocations a)
    else noIDs in
  let rows :=
    if checkRow a && negb isValidation
    then map_fold tallyRow noRows (rowHashes a)
    else noRows in
  let '(folderDetails, totalOverallBytes) :=
    fold_left (folderStep a) sources (∅, 0) in
  let processedCount := ProcessedFiles a in
  let '(processedBytes, totalKeysFound) :=
    map_fold
      (λ _ detail '(bytes, keys),
         (int64_add bytes (FolderDetail.ProcessedSizeBytes detail),
          int_add keys (FolderDetail.KeysFound detail)))
      (0, 0) folderDetails in
  let totalIDs := if isValidation then totalKeysFound else totalIDs ids in
  let rowCount := TotalRows a in
  let avgRows :=
    if 0 <? processedCount
    then float64_div rowCount processedCount else 0%Qc in
  let uniqueFolders : gmap string bool :=
    fold_left (λ m s, <[Dir s := true]> m) sources ∅ in
  let avgFilesPerFolder :=
    if 0 <? Z.of_nat (size uniqueFolders)
    then float64_div (len sources) (Z.of_nat (size uniqueFolders))
    else 0%Qc in
  {| Summary :=
       {| SummaryReport.IsValidationReport := isValidation;
          SummaryReport.IsPartialReport := wasCancelled;
          SummaryReport.FilesProcessed := processedCount;
          SummaryReport.TotalFiles := len sources;
          SummaryReport.ProcessedDataSizeBytes := processedBytes;
          SummaryReport.TotalDataSizeOverallBytes := totalOverallBytes;
          SummaryReport.TotalRowsProcessed := rowCount;
          SummaryReport.UniqueKey := uniqueKey a;
          SummaryReport.TotalKeyOccurrences := totalIDs;
          SummaryReport.UniqueKeysDuplicated := uniqueDuplicateIDsCount ids;
          SummaryReport.DuplicateRowInstances :=
            totalDuplicateRowsCount rows;
          SummaryReport.AverageRowsPerFile := avgRows;
          SummaryReport.AverageFilesPerFolder := avgFilesPerFolder;
          SummaryReport.DuplicateIDsPerFolder := dupeIDsPerFolder ids;
          SummaryReport.DuplicateRowsPerFolder := dupeRowsPerFolder rows;
          SummaryReport.FolderDetails := folderDetails |};
     DuplicateIDs := tallyDuplicateIDs ids;
     DuplicateRows := tallyDuplicateRows rows |}.

(** [Run]. [make(chan source.InputSource, a.numWorkers)] panics on a
    negative size: [None]. With no worker nothing receives, and
    [workerWg.Wait] returns at once. The engine is changed in place;
    it is returned next to the report. *)
Definition Run (w : World) (ctx : Context) (a : Analyser)
    (sources : list InputSource) : option (Analyser * AnalysisReport) :=
  if numWorkers a <? 0 then None
  else
    let '(ctx, a) :=
      if numWorkers a =? 0 then (ctx, a) else worker w ctx a sources in
    Some (a, generateReport a sources (poll ctx).1 (ValidateOnly a)).
End Engine.

(** ** Source discovery *)

Inductive error :=
| Canceled
| InvalidPath
| NotADirectory (path : string)
| WalkFailed (dirPath : string) (cause : error)
| EntryFailed
| NoAbsolutePath (path : string)
| NoFilesFound (dirPath : string)
| GCSFailed (path : string)
| ErrorInPath (p : string) (cause : error)
| NoProcessableFiles.

Inductive result (A : Type) :=
| Err (e : error)
| Ok (x : A).
Arguments Err {A} e.
Arguments Ok {A} x.

(** One call of the function that [filepath.Walk] is given: the path
    visited, whether Walk reports an error for it, and the [IsDir] and
    [Size] of its [os.FileInfo]. *)
Record Visit := {
  visitPath : string;
  visitFailed : bool;
  visitIsDir : bool;
  visitSize : Z;
}.

(** The file system and the object store as discovery sees them.
    [os_Stat] gives [IsDir] of a path, [walk] the visits that
    [filepath.Walk] makes below a directory while its function returns
    nil, [gcsObjects] the outcome of [discoverGCSObjects], whose listing
    is the store's. *)
Record Storage := {
  os_Stat : string → option bool;
  walk : string → list Visit;
  filepath_Abs : string → option string;
  gcsObjects : string → result (list InputSource);
}.

(** [strings.HasSuffix] and [strings.HasPrefix] *)
Definition HasSuffix (s suffix : string) : bool :=
  let n := String.length s in
  let k := String.length suffix in
  bool_decide (k ≤ n)%nat && String.eqb (String.substring (n - k) k s) suffix.

Definition HasPrefix (s pre : string) : bool := String.prefix pre s.

Section Discovery.
Context `{GoRuntime}.

Definition recognised (path : string) : bool :=
  HasSuffix (strings_ToLower path) ".json"
  || HasSuffix (strings_ToLower path) ".ndjson"
  || HasSuffix (strings_ToLower path) ".jsonl".

(** The function handed to [filepath.Walk], run over the visits in
    turn; the first non-nil return ends the walk. *)
Fixpoint walkFn (st : Storage) (ctx : Context) (visits : list Visit)
    (sources : list InputSource)
    : Context * result (list InputSource) :=
  match visits with
  | [] => (ctx, Ok sources)
  | v :: rest =>
      let '(done, ctx) := poll ctx in
      if done then (ctx, Err Canceled)
      else if visitFailed v then (ctx, Err EntryFailed)
      else if negb (visitIsDir v) && recognised (visitPath v) then
        match filepath_Abs st (visitPath v) with
        | None => (ctx, Err (NoAbsolutePath (visitPath v)))
        | Some absPath =>
            walkFn st ctx rest
              (sources ++ [LocalFileSource absPath (visitSize v)])
        end
      else walkFn st ctx rest sources
  end.

(** [discoverLocalFiles] *)
Definition discoverLocalFiles (st : Storage) (ctx : Context)
    (dirPath : string) : Context * result (list InputSource) :=
  match walkFn st ctx (walk st dirPath) [] with
  | (ctx, Err e) => (ctx, Err (WalkFailed dirPath e))
  | (ctx, Ok sources) =>
      if len sources =? 0 then (ctx, Err (NoFilesFound dirPath))
      else (ctx, Ok sources)
  end.

(** [Discover] *)
Definition Discover (st : Storage) (ctx : Context) (path : string)
    : Context * result (list InputSource) :=
  if HasPrefix path "gs://" then (ctx, gcsObjects st path)
  else
    match os_Stat st path with
    | None => (ctx, Err InvalidPath)
    | Some isDir =>
        if negb isDir then (ctx, Err (NotADirectory path))
        else discoverLocalFiles st ctx path
    end.

(** The inner loop of [DiscoverAll]: keep a source unless its
    [Path] was seen. *)
Definition addUnique (acc : list InputSource * gmap string bool)
    (s : InputSource) : list InputSource * gmap string bool :=
  let '(uniqueSources, discoveredPaths) := acc in
  let canonicalPath := Path s in
  if default false (discoveredPaths !! canonicalPath)
  then (uniqueSources, discoveredPaths)
  else (uniqueSources ++ [s], <[canonicalPath := true]> discoveredPaths).

(** The outer loop of [DiscoverAll]. *)
Fixpoint discoverEach (st : Storage) (ctx : Context) (paths : list string)
    (acc : list InputSource * gmap string bool)
    : result (list InputSource * gmap string bool) :=
  match paths with
  | [] => Ok acc
  | p :: rest =>
      let p := strings_TrimSpace p in
      if String.eqb p EmptyString then discoverEach st ctx rest acc
      else
        match Discover st ctx p with
        | (_, Err e) => Err (ErrorInPath p e)
        | (ctx, Ok sources) =>
            discoverEach st ctx rest (fold_left addUnique sources acc)
        end
  end.

(** [DiscoverAll] *)
Definition DiscoverAll (st : Storage) (ctx : Context) (paths : list string)
    : result (list InputSource) :=
  match discoverEach st ctx paths ([], ∅) with
  | Err e => Err e
  | Ok (uniqueSources, _) =>
      if len uniqueSources =? 0 then Err NoProcessableFiles
      else Ok uniqueSources
  end.
End Discovery.

(** ** A runtime to run the engine on

    An instance of [GoRuntime] for rows and paths of plain ASCII text:
    it agrees with the Go library on clean slash-separated paths and on
    rows whose values are strings without characters that need an
    escape, booleans, null, and arrays and objects of these. A number is
    printed as its bit pattern. *)
Module Sample.
Definition quote (s : string) : string :=
  String "034"%char (s +:+ String "034"%char EmptyString).

Fixpoint join (sep : string) (parts : list string) : string :=
  match parts with
  | [] => EmptyString
  | [x] => x
  | x :: rest => x +:+ sep +:+ join sep rest
  end.

(** The members of a map in the order of their names. *)
Definition sortedMembers {A} (m : gmap string A) : list (string * A) :=
  omap (λ k, pair k <$> m !! k)
    (merge_sort String.le (map fst (map_to_list m))).

Fixpoint marshalValue (v : JSONValue) : string :=
  match v with
  | JNull => "null"
  | JBool true => "true"
  | JBool false => "false"
  | JNumber x => pretty x
  | JString s => quote s
  | JArray items => "[" +:+ join "," (map marshalValue items) +:+ "]"
  | JObject members =>
      "{" +:+
      join ","
        (map (λ kv : string * string, quote kv.1 +:+ ":" +:+ kv.2)
           (sortedMembers (marshalValue <$> members)))
      +:+ "}"
  end.

Definition marshal (data : JSONData) : string :=
  match data with
  | None => "null"
  | Some m => marshalValue (JObject m)
  end.

Fixpoint sprint (v : JSONValue) : string :=
  match v with
  | JNull => "<nil>"
  | JBool true => "true"
  | JBool false => "false"
  | JNumber x => pretty x
  | JString s => s
  | JArray items => "[" +:+ join " " (map sprint items) +:+ "]"
  | JObject members =>
      "map[" +:+
      join " "
        (map (λ kv : string * string, kv.1 +:+ ":" +:+ kv.2)
           (sortedMembers (sprint <$> members)))
      +:+ "]"
  end.

(** What stands before the last separator. *)
Fixpoint afterLastSlash (rev : list ascii) : list ascii :=
  match rev with
  | [] => []
  | c :: rest => if Ascii.eqb c "/" then rest else afterLastSlash rest
  end.

Definition dir (path : string) : string :=
  let chars := String.list_ascii_of_string path in
  if bool_decide ("/"%char ∈ chars) then
    match reverse (afterLastSlash (reverse chars)) with
    | [] => "/"
    | d => String.string_of_list_ascii d
    end
  else ".".

Fixpoint trimLeft (s : string) : string :=
  match s with
  | String c rest => if Ascii.is_space c then trimLeft rest else s
  | EmptyString => s
  end.

Definition trimSpace (s : string) : string :=
  String.rev (trimLeft (String.rev (trimLeft s))).

Definition lowerChar (c : ascii) : ascii :=
  let n := N_of_ascii c in
  if ((65 <=? n) && (n <=? 90))%N then ascii_of_N (n + 32) else c.

Fixpoint toLower (s : string) : string :=
  match s with
  | String c rest => String (lowerChar c) (toLower rest)
  | EmptyString => s
  end.

Definition runtime : GoRuntime :=
  {| filepath_Dir := dir; json_Marshal := marshal; fmt_Sprint_v := sprint;
     strings_TrimSpace := trimSpace; strings_ToLower := toLower |}.

(** A local directory with three one-line files, the line being the
    row with the one member [id], a string. *)
Definition idRow (id : string) : Line :=
  Json (TObject [("id", TString id)]).

Definition threeFiles : World :=
  {| os_Open := λ path,
       if bool_decide (path ∈ ["/data/a.json"; "/data/b.json"; "/data/c.json"])
       then Some {| tokens := [idRow "a"]; scanErr := false |}
       else None;
     gcs_NewReader := λ _ _, None |}.

Definition threeSources : list InputSource :=
  [LocalFileSource "/data/a.json" 11; LocalFileSource "/data/b.json" 11;
   LocalFileSource "/data/c.json" 11].
End Sample.

(** * Properties *)

(** The scenario of three files, each the one line that gives [id] the
    value [a], with the key check on [id] and the row check off: one
    duplicate-key group, [a], with the first line of each file. *)
Example three_files_one_group :
  DuplicateIDs <$>
    (snd <$> @Run Sample.runtime Sample.threeFiles None
               (New "id" 8 true false false) Sample.threeSources)
  = Some {[ "a" := [ {| FilePath := "/data/a.json"; LineNumber := 1 |};
                     {| FilePath := "/data/b.json"; LineNumber := 1 |};
                     {| FilePath := "/data/c.json"; LineNumber := 1 |} ] ]}.
Proof. vm_compute. reflexivity. Qed.

(** ** Classifying one row *)

Section RowFacts.
Context `{GoRuntime}.

Lemma hashRow_fresh data h :
  (hashRow data h).1
  = FormatUint10 (fnv.Write fnv.offset64 (json_Marshal data)).
Proof. reflexivity. Qed.

Lemma processRow_no_key_check a data filePath lineNumber h :
  checkKey a = false →
  processRow a data filePath lineNumber h = (a, h).
Proof. intros Hk. unfold processRow. by rewrite Hk. Qed.

(** The settings of an engine, which no operation changes. *)
Definition sameSettings (a b : Analyser) : Prop :=
  uniqueKey a = uniqueKey b ∧ numWorkers a = numWorkers b ∧
  checkKey a = checkKey b ∧ checkRow a = checkRow b ∧
  ValidateOnly a = ValidateOnly b.

Lemma processRow_settings a data filePath lineNumber h :
  sameSettings a (processRow a data filePath lineNumber h).1.
Proof.
  unfold processRow, sameSettings.
  destruct (checkKey a) eqn:Hk; simpl; [|by rewrite Hk].
  destruct (data_lookup (uniqueKey a) data) as [v|]; simpl.
  - destruct (ValidateOnly a) eqn:Hv; simpl; [by rewrite Hk, Hv|].
    destruct (checkRow a) eqn:Hr; simpl; by rewrite ?Hv, ?Hk, ?Hr.
  - destruct (checkRow a) eqn:Hr, (ValidateOnly a) eqn:Hv; simpl;
      by rewrite ?Hv, ?Hk, ?Hr.
Qed.

Lemma processRow_hashes_row a data filePath lineNumber h :
  checkKey a = true → checkRow a = true → ValidateOnly a = false →
  rowHashes (processRow a data filePath lineNumber h).1
  = appendLocation (hashRow data h).1
      {| FilePath := filePath; LineNumber := lineNumber |} (rowHashes a).
Proof.
  intros Hk Hr Hv. unfold processRow. rewrite Hk. simpl.
  destruct (data_lookup (uniqueKey a) data) as [v|]; simpl.
  - rewrite Hv. simpl. rewrite Hr, Hv. reflexivity.
  - rewrite Hr, Hv. reflexivity.
Qed.
End RowFacts.


(** C1. The claim asks for every decoded row to be hashed whenever the row
    check is on and the engine is not validating, whether or not the key
    check is on. [processRow] returns at once when the key check is off:
    an engine with only the row check on files no row, and its report
    has no duplicate-row group for three files that hold the same row. *)
Theorem C1_row_check_alone_hashes_nothing :
  let a := New "id" 8 false true false in
  checkRow a = true ∧ ValidateOnly a = false ∧
  rowHashes
    (@processRow Sample.runtime a (Some {[ "id" := JString "a" ]})
       "/data/a.json" 1 fnv.New64a).1 = ∅ ∧
  DuplicateRows <$>
    (snd <$> @Run Sample.runtime Sample.threeFiles None a Sample.threeSources)
  = Some ∅.
Proof. vm_compute. auto. Qed.

(** ** Decoding forgets the order of the fields *)

Definition decodedFields (fields : list (string * JSONText))
    : list (string * JSONValue) :=
  prod_map id decodeValue <$> fields.

Lemma decodeValue_object fields :
  decodeValue (TObject fields) = JObject (decodeObject fields).
Proof.
  reflexivity.
Qed.

Lemma fold_left_insert_list_to_map (kvs : list (string * JSONValue))
    (m : gmap string JSONValue) :
  fold_left (λ m kv, <[kv.1 := kv.2]> m) kvs m
  = list_to_map (reverse kvs) ∪ m.
Proof.
  revert m. induction kvs as [|[k v] kvs IH]; intros m; simpl.
  - by rewrite map_empty_union.
  - rewrite IH, reverse_cons, list_to_map_app. simpl.
    rewrite <-(assoc_L (∪)). f_equal.
    rewrite insert_empty. by rewrite <-insert_union_singleton_l.
Qed.

Lemma decodeObject_list_to_map fields :
  decodeObject fields = list_to_map (reverse (decodedFields fields)).
Proof.
  unfold decodeObject, decodedFields.
  rewrite <-(map_union_empty (list_to_map _)).
  rewrite <-fold_left_insert_list_to_map.
  generalize (∅ : gmap string JSONValue).
  induction fields as [|f fields IH]; intros m; simpl; [done|].
  apply IH.
Qed.

Lemma decodedFields_names fields : (decodedFields fields).*1 = fields.*1.
Proof.
  unfold decodedFields.
  induction fields as [|[k t] fields IH]; simpl; [done|]. by f_equal.
Qed.

Lemma decodeObject_permutation f1 f2 :
  NoDup f1.*1 → decodedFields f1 ≡ₚ decodedFields f2 →
  decodeObject f1 = decodeObject f2.
Proof.
  intros Hnd Hp. rewrite !decodeObject_list_to_map.
  apply list_to_map_proper.
  - rewrite fmap_reverse, reverse_Permutation.
    by rewrite decodedFields_names.
  - by rewrite !reverse_Permutation.
Qed.

(** Two lines whose fields are the same names with the same decoded
    values, written in a different order, decode to the same record; the
    content hash of the two rows is the same string, whatever earlier row
    the hasher was last used on; and an engine with the key check and the
    row check on that is not validating files both rows under that one
    string in the by-hash groups. *)
Theorem permuted_fields_same_hash_group `{GoRuntime}
    (f1 f2 : list (string * JSONText)) (d1 d2 : JSONData) :
  NoDup f1.*1 →
  decodedFields f1 ≡ₚ decodedFields f2 →
  json_Unmarshal (TObject f1) = Some d1 →
  json_Unmarshal (TObject f2) = Some d2 →
  d1 = d2 ∧
  (∀ h1 h2, (hashRow d1 h1).1 = (hashRow d2 h2).1) ∧
  (∀ a path1 n1 path2 n2 h,
     checkKey a = true → checkRow a = true → ValidateOnly a = false →
     let '(a1, h1) := processRow a d1 path1 n1 h in
     let '(a2, _) := processRow a1 d2 path2 n2 h1 in
     ∃ locations,
       rowHashes a2 !! (hashRow d1 h).1 = Some locations ∧
       {| FilePath := path1; LineNumber := n1 |} ∈ locations ∧
       {| FilePath := path2; LineNumber := n2 |} ∈ locations).
Proof.
  intros Hnd Hp Hd1 Hd2. simpl in Hd1, Hd2.
  injection Hd1 as <-. injection Hd2 as <-.
  pose proof (decodeObject_permutation f1 f2 Hnd Hp) as Heq.
  split; [by rewrite Heq|]. split; [by rewrite Heq|].
  intros a path1 n1 path2 n2 h Hk Hr Hv. rewrite <-Heq.
  destruct (processRow a _ path1 n1 h) as [a1 h1] eqn:E1.
  destruct (processRow a1 _ path2 n2 h1) as [a2 h2] eqn:E2.
  pose proof (processRow_settings a (Some (decodeObject f1)) path1 n1 h)
    as (_ & _ & Hk1 & Hr1 & Hv1).
  pose proof (processRow_hashes_row a (Some (decodeObject f1)) path1 n1 h
                Hk Hr Hv) as Ha1.
  rewrite E1 in Hk1, Hr1, Hv1, Ha1. simpl in Hk1, Hr1, Hv1, Ha1.
  pose proof (processRow_hashes_row a1 (Some (decodeObject f1)) path2 n2 h1)
    as Ha2.
  rewrite E2 in Ha2. simpl in Ha2.
  rewrite Ha2 by congruence. rewrite Ha1.
  unfold hashRow, fnv.Reset. simpl.
  unfold appendLocation at 1. rewrite lookup_insert_eq.
  eexists; split; [done|].
  unfold appendLocation. rewrite lookup_insert_eq. simpl.
  set_solver.
Qed.

Lemma permuted_fields_same_hash_example :
  let f1 := [("id", TString "a"); ("name", TString "x")] in
  let f2 := [("name", TString "x"); ("id", TString "a")] in
  f1 ≠ f2 ∧
  (@hashRow Sample.runtime (Some (decodeObject f1)) 0).1
  = (@hashRow Sample.runtime (Some (decodeObject f2)) 7).1.
Proof.
  split; [done|].
  refine (proj1 (proj2
    (@permuted_fields_same_hash_group Sample.runtime
       [("id", TString "a"); ("name", TString "x")]
       [("name", TString "x"); ("id", TString "a")] _ _ _ _ eq_refl eq_refl))
    0 7).
  - simpl. apply NoDup_cons. split; [|apply NoDup_singleton].
    by intros ?%list_elem_of_singleton.
  - apply Permutation_swap.
Defined.

(** A file that holds the same record twice, its two fields written in
    the one and in the other order. *)
Definition permutedRows : World :=
  {| os_Open := λ _,
       Some {| tokens :=
                 [Json (TObject [("id", TString "a"); ("name", TString "x")]);
                  Json (TObject [("name", TString "x"); ("id", TString "a")])];
               scanErr := false |};
     gcs_NewReader := λ _ _, None |}.

(** C4. The claim asks for two rows with the same fields in a different
    order to land in one by-hash group whenever the row check is on. The
    two lines of [permutedRows] decode to the same record, and an engine
    with both checks on files both of them under the one content hash.
    But [processRow] returns at once when the key check is off, before it
    hashes (the defect of C1): an engine with only the row check on, not
    validating, files neither row, so the run ends without a by-hash
    group and reports no duplicate row. *)
Theorem C4_permuted_rows_unfiled_without_key_check :
  let f1 := [("id", TString "a"); ("name", TString "x")] in
  let f2 := [("name", TString "x"); ("id", TString "a")] in
  let sources := [LocalFileSource "/data/a.json" 46] in
  let hash :=
    (@hashRow Sample.runtime (Some (decodeObject f1)) fnv.New64a).1 in
  let both := New "id" 8 true true false in
  let rowOnly := New "id" 8 false true false in
  f1 ≠ f2 ∧
  json_Unmarshal (TObject f1) = json_Unmarshal (TObject f2) ∧
  (rowHashes ∘ fst) <$> @Run Sample.runtime permutedRows None both sources
  = Some {[ hash := [ {| FilePath := "/data/a.json"; LineNumber := 1 |};
                      {| FilePath := "/data/a.json"; LineNumber := 2 |} ] ]} ∧
  checkRow rowOnly = true ∧ ValidateOnly rowOnly = false ∧
  (rowHashes ∘ fst) <$> @Run Sample.runtime permutedRows None rowOnly sources
  = Some ∅ ∧
  (DuplicateRows ∘ snd)
    <$> @Run Sample.runtime permutedRows None rowOnly sources
  = Some ∅.
Proof.
  cbv zeta. split; [done|]. repeat split; vm_compute; reflexivity.
Qed.

(** ** Machine arithmetic *)

Lemma wrap_small bits x :
  0 < bits → - 2 ^ (bits - 1) ≤ x < 2 ^ (bits - 1) → wrap bits x = x.
Proof.
  intros Hb Hx. unfold wrap.
  assert (2 ^ bits = 2 * 2 ^ (bits - 1)) as ->.
  { rewrite <-Z.pow_succ_r by lia. f_equal. lia. }
  rewrite Z.mod_small; lia.
Qed.

Lemma wrap_mod bits x y :
  0 < bits → x `mod` 2 ^ bits = y `mod` 2 ^ bits → wrap bits x = wrap bits y.
Proof.
  intros Hb Hxy. unfold wrap. f_equal.
  rewrite <-(Zplus_mod_idemp_l x), <-(Zplus_mod_idemp_l y). by rewrite Hxy.
Qed.

Lemma wrap_wrap_mod bits x :
  0 < bits → wrap bits x `mod` 2 ^ bits = x `mod` 2 ^ bits.
Proof.
  intros Hb. unfold wrap.
  assert (0 < 2 ^ bits) by (apply Z.pow_pos_nonneg; lia).
  assert (2 ^ bits = 2 * 2 ^ (bits - 1)) as Hp.
  { rewrite <-Z.pow_succ_r by lia. f_equal. lia. }
  rewrite <-Zminus_mod_idemp_l, Z.mod_mod by lia.
  rewrite Zminus_mod_idemp_l. f_equal. lia.
Qed.

Lemma wrap_add_l bits x y :
  0 < bits → wrap bits (wrap bits x + y) = wrap bits (x + y).
Proof.
  intros Hb. apply wrap_mod; [done|].
  rewrite <-Zplus_mod_idemp_l, wrap_wrap_mod by done.
  by rewrite Zplus_mod_idemp_l.
Qed.

Lemma int_add_small x y :
  - 2 ^ 63 ≤ x + y < 2 ^ 63 → int_add x y = x + y.
Proof. intros. apply wrap_small; [lia|done]. Qed.

Lemma int64_add_small x y :
  - 2 ^ 63 ≤ x + y < 2 ^ 63 → int64_add x y = x + y.
Proof. intros. apply wrap_small; [lia|done]. Qed.

(** ** Cancellation is only ever seen to begin *)

Definition live (ctx : Context) : Prop := (poll ctx).1 = false.

(** The next [polls] polls all find the context live. *)
Definition survives (ctx : Context) (polls : nat) : Prop :=
  match ctx with
  | None => True
  | Some n => (polls ≤ n)%nat
  end.

Global Instance survives_dec ctx polls : Decision (survives ctx polls).
Proof. destruct ctx; simpl; apply _. Defined.

Lemma poll_live ctx : live (poll ctx).2 → (poll ctx).1 = false.
Proof. by destruct ctx as [[|n]|]. Qed.

Lemma poll_live_before ctx : live (poll ctx).2 → live ctx.
Proof. by destruct ctx as [[|n]|]. Qed.

Lemma poll_survives ctx polls :
  survives ctx (S polls) ↔ (poll ctx).1 = false ∧ survives (poll ctx).2 polls.
Proof.
  destruct ctx as [[|n]|]; simpl; split; try done; try lia.
Qed.
(** ** What a scan leaves alone *)

(** The part of the engine that only [processSource] itself writes, at
    the end of a scan. *)
Definition sameMarks (a b : Analyser) : Prop :=
  ProcessedFiles a = ProcessedFiles b ∧ processedPaths a = processedPaths b.

(** The row counters. *)
Definition sameRowCounts (a b : Analyser) : Prop :=
  TotalRows a = TotalRows b ∧
  rowsProcessedPerFolder a = rowsProcessedPerFolder b.

Global Instance sameSettings_equiv : Equivalence sameSettings.
Proof.
  unfold sameSettings. split.
  - by intros a.
  - intros a b (?&?&?&?&?). by repeat split.
  - intros a b c (?&?&?&?&?) (?&?&?&?&?). repeat split; congruence.
Qed.

Global Instance sameMarks_equiv : Equivalence sameMarks.
Proof.
  unfold sameMarks. split.
  - by intros a.
  - by intros a b [? ?].
  - intros a b c [? ?] [? ?]. split; congruence.
Qed.

Section ScanFacts.
Context `{GoRuntime}.

(** [processRow] with its early returns spelled out as cases. *)
Lemma processRow_cases a data filePath lineNumber h :
  let loc := {| FilePath := filePath; LineNumber := lineNumber |} in
  let dir := filepath_Dir filePath in
  let counted :=
    with_keysFoundPerFolder
      (<[dir := int64_add (default 0 (keysFoundPerFolder a !! dir)) 1]>
         (keysFoundPerFolder a)) a in
  let hashed b :=
    (with_rowHashes (appendLocation (hashRow data h).1 loc (rowHashes b)) b,
     (hashRow data h).2) in
  processRow a data filePath lineNumber h
  = if checkKey a then
      match data_lookup (uniqueKey a) data with
      | Some v =>
          if ValidateOnly a then (counted, h)
          else
            let filed :=
              with_idLocations
                (appendLocation (fmt_Sprint_v v) loc (idLocations a))
                counted in
            if checkRow a then hashed filed else (filed, h)
      | None =>
          if ValidateOnly a then (a, h)
          else if checkRow a then hashed a else (a, h)
      end
    else (a, h).
Proof.
  unfold processRow.
  destruct (checkKey a) eqn:Hk; simpl; [|done].
  destruct (data_lookup (uniqueKey a) data) as [v|]; simpl.
  - destruct (ValidateOnly a) eqn:Hv; simpl; [done|].
    destruct (checkRow a) eqn:Hr; simpl; by rewrite ?Hv.
  - destruct (checkRow a) eqn:Hr, (ValidateOnly a) eqn:Hv; by simpl.
Qed.

Ltac row_cases a data :=
  rewrite processRow_cases;
  destruct (checkKey a) eqn:?; [|done];
  destruct (data_lookup (uniqueKey a) data) as [?|] eqn:?;
  destruct (ValidateOnly a) eqn:?; [done| |done|];
  destruct (checkRow a) eqn:?; done.

Lemma processRow_marks a data filePath lineNumber h :
  sameMarks a (processRow a data filePath lineNumber h).1.
Proof. unfold sameMarks. row_cases a data. Qed.

Lemma processRow_rowCounts a data filePath lineNumber h :
  sameRowCounts a (processRow a data filePath lineNumber h).1.
Proof. unfold sameRowCounts. row_cases a data. Qed.

Lemma scanLine_settings a path dir h n line :
  sameSettings a (scanLine a path dir h n line).1.
Proof.
  destruct line as [| |t]; simpl; [done|done|].
  destruct (json_Unmarshal t) as [data|]; [|done].
  by etrans; [|apply processRow_settings].
Qed.

Lemma scanLine_marks a path dir h n line :
  sameMarks a (scanLine a path dir h n line).1.
Proof.
  destruct line as [| |t]; simpl; [done|done|].
  destruct (json_Unmarshal t) as [data|]; [|done].
  by etrans; [|apply processRow_marks].
Qed.

Lemma scanLoop_settings ctx a path dir h n lines :
  sameSettings a (scanLoop ctx a path dir h n lines).1.2.
Proof.
  revert ctx a h n. induction lines as [|line lines IH]; intros; simpl; [done|].
  destruct (if Z.rem n 1000 =? 0 then poll ctx else (false, ctx))
    as [[] ctx1]; [done|].
  pose proof (scanLine_settings a path dir h (int_add n 1) line) as Hs.
  destruct (scanLine a path dir h (int_add n 1) line) as [a1 h1].
  by etrans; [|apply IH].
Qed.

Lemma scanLoop_marks ctx a path dir h n lines :
  sameMarks a (scanLoop ctx a path dir h n lines).1.2.
Proof.
  revert ctx a h n. induction lines as [|line lines IH]; intros; simpl; [done|].
  destruct (if Z.rem n 1000 =? 0 then poll ctx else (false, ctx))
    as [[] ctx1]; [done|].
  pose proof (scanLine_marks a path dir h (int_add n 1) line) as Hs.
  destruct (scanLine a path dir h (int_add n 1) line) as [a1 h1].
  by etrans; [|apply IH].
Qed.

Lemma processSource_settings w ctx a src :
  sameSettings a (processSource w ctx a src).2.
Proof.
  unfold processSource.
  destruct (Open w src) as [reader|]; [|done].
  pose proof (scanLoop_settings ctx (storeCurrentFolder (Dir src) a)
                (Path src) (Dir src) fnv.New64a 0 (tokens reader)) as Hs.
  destruct (scanLoop _ _ _ _ _ _ _) as [[ctx1 a1] cancelled].
  by destruct cancelled, (scanErr reader).
Qed.

Lemma worker_settings w ctx a sources :
  sameSettings a (worker w ctx a sources).2.
Proof.
  revert ctx a. induction sources as [|src sources IH]; intros; simpl; [done|].
  destruct (poll ctx) as [[] ctx1]; [done|].
  pose proof (processSource_settings w ctx1 a src) as Hs.
  destruct (processSource w ctx1 a src) as [ctx2 a2].
  by etrans; [|apply IH].
Qed.

(** ** How far a scan gets, and what it does on the way *)

(** The tokens a scan reads before it ends, the context it leaves, and
    whether it was left on [ctx.Done]. *)
Fixpoint scanReach (ctx : Context) (lineNumber : Z) (rest : list Line)
    : Context * nat * bool :=
  match rest with
  | [] => (ctx, 0%nat, false)
  | _ :: rest =>
      let '(done, ctx) :=
        if Z.rem lineNumber 1000 =? 0 then poll ctx else (false, ctx) in
      if done then (ctx, 0%nat, true)
      else
        let '(ctx, k, cancelled) := scanReach ctx (int_add lineNumber 1) rest in
        (ctx, S k, cancelled)
  end.

(** The loop body over lines that are all read. *)
Fixpoint scanLines (a : Analyser) (path dir : string) (rowHasher : Z)
    (lineNumber : Z) (lines : list Line) : Analyser * Z :=
  match lines with
  | [] => (a, rowHasher)
  | line :: rest =>
      let '(a, rowHasher) :=
        scanLine a path dir rowHasher (int_add lineNumber 1) line in
      scanLines a path dir rowHasher (int_add lineNumber 1) rest
  end.

Lemma scanLoop_reach ctx a path dir h n lines :
  scanLoop ctx a path dir h n lines
  = let '(ctx', k, cancelled) := scanReach ctx n lines in
    (ctx', (scanLines a path dir h n (take k lines)).1, cancelled).
Proof.
  revert ctx a h n. induction lines as [|line lines IH]; intros; simpl; [done|].
  destruct (if Z.rem n 1000 =? 0 then poll ctx else (false, ctx))
    as [[] ctx1]; [done|].
  destruct (scanLine a path dir h (int_add n 1) line) as [a1 h1] eqn:E.
  rewrite IH.
  destruct (scanReach ctx1 (int_add n 1) lines) as [[ctx2 k] c].
  simpl. by rewrite E.
Qed.

Lemma scanReach_bound ctx n lines :
  ((scanReach ctx n lines).1.2 ≤ length lines)%nat
  ∧ ((scanReach ctx n lines).2 = false →
     (scanReach ctx n lines).1.2 = length lines).
Proof.
  revert ctx n. induction lines as [|line lines IH]; intros; simpl; [lia|].
  destruct (if Z.rem n 1000 =? 0 then poll ctx else (false, ctx))
    as [[] ctx1]; simpl; [split; [lia|done]|].
  specialize (IH ctx1 (int_add n 1)).
  destruct (scanReach ctx1 (int_add n 1) lines) as [[ctx2 k] c]. simpl in *.
  split; [lia|]. intros Hc. destruct IH as [_ IH]. by rewrite IH.
Qed.
End ScanFacts.
(** ** Lines and rows *)

(** The tokens of a stream next to their position in it, the first
    being line 1 when [n] is 0. *)
Fixpoint numberedFrom (n : Z) (lines : list Line) : list (Z * Line) :=
  match lines with
  | [] => []
  | line :: rest => (n + 1, line) :: numberedFrom (n + 1) rest
  end.

Definition numbered (lines : list Line) : list (Z * Line) :=
  numberedFrom 0 lines.

Definition isRow (nl : Z * Line) : Prop := nl.2 ≠ Blank.

Global Instance Line_eq_dec_blank (line : Line) : Decision (line = Blank).
Proof. destruct line; [left|right|right]; done. Defined.

Global Instance isRow_dec nl : Decision (isRow nl).
Proof. unfold isRow. apply _. Defined.

(** The rows of a stream: its lines that are not of length zero. *)
Definition rowsOf (lines : list Line) : list (Z * Line) :=
  filter isRow (numbered lines).

Lemma numberedFrom_lookup n lines i :
  numberedFrom n lines !! i
  = (λ line, (n + Z.of_nat i + 1, line)) <$> lines !! i.
Proof.
  revert n i. induction lines as [|line lines IH]; intros n [|i]; simpl;
    try done.
  - do 2 f_equal. lia.
  - rewrite IH. destruct (lines !! i); simpl; [|done]. do 2 f_equal. lia.
Qed.

Lemma numberedFrom_take n lines k :
  numberedFrom n (take k lines) = take k (numberedFrom n lines).
Proof.
  revert n k. induction lines as [|line lines IH]; intros n [|k]; simpl;
    try done.
  by rewrite IH.
Qed.

Section RowCounting.
Context `{GoRuntime}.

(** The loop body on a numbered line. *)
Definition scanNumbered (path dir : string) (st : Analyser * Z)
    (nl : Z * Line) : Analyser * Z :=
  scanLine st.1 path dir st.2 nl.1 nl.2.

Lemma scanLines_rows a path dir h n lines :
  0 ≤ n → n + len lines < 2 ^ 63 →
  scanLines a path dir h n lines
  = fold_left (scanNumbered path dir) (filter isRow (numberedFrom n lines))
      (a, h).
Proof.
  revert a h n. induction lines as [|line lines IH]; intros a h n Hn Hlen;
    simpl; [done|].
  unfold len in Hlen. simpl length in Hlen.
  rewrite int_add_small by lia.
  destruct (scanLine a path dir h (n + 1) line) as [a1 h1] eqn:E.
  rewrite IH by (unfold len; lia).
  destruct line as [| |t].
  - rewrite filter_cons_False by (unfold isRow; simpl; tauto).
    simpl in E. by injection E as <- <-.
  - rewrite filter_cons_True by done.
    simpl in E. by injection E as <- <-.
  - rewrite filter_cons_True by done. simpl fold_left.
    f_equal. symmetry. exact E.
Qed.

Lemma scanLine_counts a path dir h n line :
  line ≠ Blank →
  TotalRows (scanLine a path dir h n line).1 = int64_add (TotalRows a) 1 ∧
  rowsProcessedPerFolder (scanLine a path dir h n line).1
  = <[dir := int64_add (default 0 (rowsProcessedPerFolder a !! dir)) 1]>
      (rowsProcessedPerFolder a).
Proof.
  intros Hl. destruct line as [| |t]; simpl; [done|done|].
  destruct (json_Unmarshal t) as [data|]; [|done].
  destruct (processRow_rowCounts (countRow dir a) data path n h) as [<- <-].
  done.
Qed.

Lemma fold_scanNumbered_counts path dir rows a h :
  Forall isRow rows →
  let a' := (fold_left (scanNumbered path dir) rows (a, h)).1 in
  let old := rowsProcessedPerFolder a in
  TotalRows a'
  = (if decide (rows = []) then TotalRows a
     else wrap 64 (TotalRows a + len rows)) ∧
  rowsProcessedPerFolder a'
  = (if decide (rows = []) then old
     else <[dir := wrap 64 (default 0 (old !! dir) + len rows)]> old).
Proof.
  intros Hrows. revert a h.
  induction Hrows as [|nl rows Hnl Hrows IH]; intros a h; [done|].
  intros a' old. subst a' old. simpl fold_left.
  destruct (scanLine_counts a path dir h nl.1 nl.2 Hnl) as [Ht Hr].
  change (scanNumbered path dir (a, h) nl)
    with (scanLine a path dir h nl.1 nl.2).
  destruct (scanLine a path dir h nl.1 nl.2) as [a1 h1]. simpl in Ht, Hr.
  destruct (IH a1 h1) as [IHt IHr]. rewrite IHt, IHr, Ht, Hr.
  destruct (decide (nl :: rows = [])) as [?|_]; [done|].
  assert (len (nl :: rows) = 1 + len rows) as -> by (unfold len; simpl; lia).
  unfold int64_add.
  destruct (decide (rows = [])) as [->|_].
  - by split.
  - rewrite lookup_insert_eq, insert_insert_eq. simpl.
    rewrite !wrap_add_l by lia. split; f_equal; [lia|f_equal; lia].
Qed.
End RowCounting.
(** ** The polls of a scan *)

(** A scan polls the context before its first line and again after every
    1000 lines. *)
Definition pollsOfScan (lines : list Line) : nat :=
  ((length lines + 999) / 1000)%nat.

Fixpoint pollsFrom (lineNumber : Z) (lines : list Line) : nat :=
  match lines with
  | [] => 0%nat
  | _ :: rest =>
      Nat.add
        (if Z.rem lineNumber 1000 =? 0 then 1%nat else 0%nat)
        (pollsFrom (lineNumber + 1) rest)
  end.

Lemma pollsFrom_closed n lines :
  0 ≤ n →
  Z.of_nat (pollsFrom n lines)
  = (n + len lines + 999) `div` 1000 - (n + 999) `div` 1000.
Proof.
  revert n. induction lines as [|line lines IH]; intros n Hn.
  - unfold len. simpl. rewrite Z.add_0_r. lia.
  - cbn [pollsFrom]. rewrite Nat2Z.inj_add, IH by lia.
    unfold len. cbn [length]. rewrite Nat2Z.inj_succ.
    replace (n + 1 + Z.of_nat (length lines) + 999)
      with (n + Z.succ (Z.of_nat (length lines)) + 999) by lia.
    rewrite Z.rem_mod_nonneg by lia.
    destruct (Z.eqb_spec (n `mod` 1000) 0) as [Hm|Hm];
      change (Z.of_nat 1) with 1; change (Z.of_nat 0) with 0;
      Z.to_euclidean_division_equations; lia.
Qed.

Lemma pollsFrom_zero lines : pollsFrom 0 lines = pollsOfScan lines.
Proof.
  apply Nat2Z.inj. rewrite pollsFrom_closed by lia.
  unfold pollsOfScan, len. rewrite Nat2Z.inj_div, Nat2Z.inj_add.
  change (Z.of_nat 999) with 999. change (Z.of_nat 1000) with 1000.
  replace ((0 + 999) `div` 1000) with 0 by done.
  rewrite Z.sub_0_r. f_equal.
Qed.

Lemma scanReach_cancelled ctx n lines :
  0 ≤ n → n + len lines < 2 ^ 63 →
  (scanReach ctx n lines).2 = false ↔ survives ctx (pollsFrom n lines).
Proof.
  revert ctx n. induction lines as [|line lines IH]; intros ctx n Hn Hlen.
  - simpl. destruct ctx; simpl; split; intros; try done; lia.
  - unfold len in Hlen. cbn [length] in Hlen.
    cbn [scanReach pollsFrom].
    rewrite int_add_small by lia.
    specialize (IH (if Z.rem n 1000 =? 0 then (poll ctx).2 else ctx) (n + 1)).
    destruct (Z.rem n 1000 =? 0).
    + rewrite poll_survives.
      destruct (poll ctx) as [[] ctx1]; simpl in *.
      * split; [done|]. by intros [? _].
      * destruct (scanReach ctx1 (n + 1) lines) as [[ctx2 k] c]. simpl in *.
        rewrite IH by (unfold len; lia). split; [done|by intros [_ ?]].
    + destruct (scanReach ctx (n + 1) lines) as [[ctx2 k] c]. simpl in *.
      apply IH; unfold len; lia.
Qed.

Section Marking.
Context `{GoRuntime}.

(** A line whose decoding fails: not a JSON text, or a JSON text that is
    neither an object nor null. *)
Definition decodeFails (line : Line) : Prop :=
  line = Garbage ∨ ∃ t, line = Json t ∧ json_Unmarshal t = None.

Lemma processSource_cases w ctx a src :
  let a0 := storeCurrentFolder (Dir src) a in
  (processSource w ctx a src).2
  = match Open w src with
    | None => a0
    | Some reader =>
        let '(_, k, cancelled) := scanReach ctx 0 (tokens reader) in
        let a1 :=
          (scanLines a0 (Path src) (Dir src) fnv.New64a 0
             (take k (tokens reader))).1 in
        if cancelled || scanErr reader then a1
        else markProcessed (Path src) a1
    end.
Proof.
  unfold processSource. destruct (Open w src) as [reader|]; [|done].
  rewrite scanLoop_reach.
  destruct (scanReach ctx 0 (tokens reader)) as [[ctx1 k] cancelled].
  by destruct cancelled, (scanErr reader).
Qed.

Lemma scanLines_marks a path dir h n lines :
  sameMarks a (scanLines a path dir h n lines).1.
Proof.
  revert a h n. induction lines as [|line lines IH]; intros; simpl; [done|].
  pose proof (scanLine_marks a path dir h (int_add n 1) line) as Hs.
  destruct (scanLine a path dir h (int_add n 1) line) as [a1 h1].
  by etrans; [|apply IH].
Qed.
End Marking.

(** C5 (amended). A call of [processSource] marks its source (sets its
    path in the processed-set and adds one to the processed-file counter)
    if and only if the source opens, every poll of the scan finds the
    context live, and the stream ends without a scanner error; otherwise
    it leaves both the set and the counter as they were. A failed open
    therefore leaves the source unmarked. Whether lines fail to decode
    plays no part: such a line is counted as a row and the loop goes on
    with the engine otherwise unchanged. *)
Theorem C5_marked_iff_opened_and_scanned_to_end `{GoRuntime}
    (w : World) (ctx : Context) (a : Analyser) (src : InputSource) :
  (∀ reader, Open w src = Some reader → len (tokens reader) < 2 ^ 63) →
  let a' := (processSource w ctx a src).2 in
  let scannedToEnd :=
    ∃ reader, Open w src = Some reader ∧ scanErr reader = false ∧
              survives ctx (pollsOfScan (tokens reader)) in
  (scannedToEnd →
     processedPaths a' = <[Path src := true]> (processedPaths a) ∧
     ProcessedFiles a' = int32_add (ProcessedFiles a) 1) ∧
  (¬ scannedToEnd →
     processedPaths a' = processedPaths a ∧
     ProcessedFiles a' = ProcessedFiles a) ∧
  (∀ line b path dir h n,
     decodeFails line → scanLine b path dir h n line = (countRow dir b, h)).
Proof.
  intros Hlen a' scannedToEnd. subst a'.
  rewrite processSource_cases. split; [|split].
  - intros (reader & Hopen & Herr & Hlive). rewrite Hopen.
    rewrite <-pollsFrom_zero in Hlive.
    apply scanReach_cancelled in Hlive; [|lia|by apply Hlen].
    destruct (scanReach ctx 0 (tokens reader)) as [[ctx1 k] cancelled].
    simpl in Hlive. subst cancelled. rewrite Herr. simpl.
    destruct (scanLines_marks (storeCurrentFolder (Dir src) a) (Path src)
                (Dir src) fnv.New64a 0 (take k (tokens reader))) as [<- <-].
    done.
  - intros Hnot. destruct (Open w src) as [reader|] eqn:Hopen; [|done].
    pose proof (scanReach_cancelled ctx 0 (tokens reader)) as Hc.
    rewrite pollsFrom_zero in Hc.
    destruct (scanReach ctx 0 (tokens reader)) as [[ctx1 k] cancelled].
    simpl in Hc.
    destruct (scanLines_marks (storeCurrentFolder (Dir src) a) (Path src)
                (Dir src) fnv.New64a 0 (take k (tokens reader))) as [Hf Hp].
    destruct cancelled; simpl; [by rewrite <-Hf, <-Hp|].
    destruct (scanErr reader) eqn:Herr; [by rewrite <-Hf, <-Hp|].
    exfalso. apply Hnot. exists reader. repeat split; [done|].
    apply Hc; [lia|by apply Hlen|done].
  - intros line b path dir h n [->|(t & -> & Ht)]; simpl; [done|].
    by rewrite Ht.
Qed.
Lemma C5_marked_iff_opened_and_scanned_to_end_witness :
  let a := New "id" 8 true true false in
  let src := LocalFileSource "/data/a.json" 11 in
  let a' := (@processSource Sample.runtime Sample.threeFiles None a src).2 in
  processedPaths a' = <[Path src := true]> (processedPaths a) ∧
  ProcessedFiles a' = int32_add (ProcessedFiles a) 1.
Proof.
  intros a src.
  refine (proj1 (@C5_marked_iff_opened_and_scanned_to_end Sample.runtime
                   Sample.threeFiles None a src _) _).
  - intros reader Hopen. vm_compute in Hopen. injection Hopen as <-.
    by vm_compute.
  - eexists. split; [by vm_compute|]. by split.
Defined.

(** C5 as it is worded lets a failed open leave the mark in place. The
    file [/data/missing.json] cannot be opened; the context is never
    cancelled and no scan takes place, yet the source is not in the
    processed-set and the counter stays at zero. *)
Lemma C5_open_failure_prevents_mark :
  let a := New "id" 8 true true false in
  let src := LocalFileSource "/data/missing.json" 11 in
  let a' := (@processSource Sample.runtime Sample.threeFiles None a src).2 in
  Open Sample.threeFiles src = None ∧
  processedPaths a' !! Path src = None ∧
  ProcessedFiles a' = 0.
Proof. by vm_compute. Qed.

(** C10. Whatever the context does, a scan comes to an end after reading
    some of the tokens of the stream, all of them unless it was
    cancelled, and leaves the engine as the loop body leaves it when run
    over the rows among the tokens read: the lines of non-zero length,
    each under its position in the stream, lines of zero length counted
    in. A line of zero length is none of the rows: it is not classified
    and not counted. The total-rows counter and the rows-processed
    counter of the folder rise by the number of rows read. *)
Theorem C10_blank_lines_numbered_but_not_counted `{GoRuntime}
    (ctx : Context) (a : Analyser) (path dir : string) (h : Z)
    (lines : list Line) :
  len lines < 2 ^ 63 →
  ∃ k : nat,
    (k ≤ length lines)%nat ∧
    let '(_, a', cancelled) := scanLoop ctx a path dir h 0 lines in
    let rows := rowsOf (take k lines) in
    (cancelled = false → k = length lines) ∧
    a' = (fold_left (scanNumbered path dir) rows (a, h)).1 ∧
    (∀ n, (n, Blank) ∉ rows) ∧
    (∀ (i : nat) line,
       (i < k)%nat → lines !! i = Some line → line ≠ Blank →
       (Z.of_nat i + 1, line) ∈ rows) ∧
    TotalRows a'
    = (if decide (rows = []) then TotalRows a
       else wrap 64 (TotalRows a + len rows)) ∧
    rowsProcessedPerFolder a'
    = (if decide (rows = []) then rowsProcessedPerFolder a
       else <[dir := wrap 64 (default 0 (rowsProcessedPerFolder a !! dir)
                              + len rows)]>
              (rowsProcessedPerFolder a)).
Proof.
  intros Hlen. rewrite scanLoop_reach.
  destruct (scanReach_bound ctx 0 lines) as [Hk Hall].
  destruct (scanReach ctx 0 lines) as [[ctx1 k] cancelled]. simpl in Hk, Hall.
  exists k. split; [done|]. split; [done|].
  assert (len (take k lines) ≤ len lines) as Hle.
  { unfold len. rewrite length_take. lia. }
  rewrite scanLines_rows by lia.
  fold (numbered (take k lines)). fold (rowsOf (take k lines)).
  split; [done|]. split; [|split].
  - intros n [Hrow _]%list_elem_of_filter. by apply Hrow.
  - intros i line Hi Hline Hnb. apply list_elem_of_filter. split; [done|].
    apply list_elem_of_lookup. exists i. unfold numbered.
    rewrite numberedFrom_lookup, lookup_take_lt, Hline by done. simpl.
    do 2 f_equal. 
  - apply fold_scanNumbered_counts. apply Forall_forall.
    by intros nl [? _]%list_elem_of_filter.
Qed.

Lemma C10_blank_lines_numbered_but_not_counted_witness :
  let a := New "id" 8 true false false in
  let lines := [Blank; Sample.idRow "a"] in
  let a' :=
    (@scanLoop Sample.runtime None a "/data/a.json" "/data" fnv.New64a 0
       lines).1.2 in
  idLocations a'
  = {[ "a" := [ {| FilePath := "/data/a.json"; LineNumber := 2 |} ] ]} ∧
  TotalRows a' = 1 ∧
  rowsProcessedPerFolder a' = {[ "/data" := 1 ]}.
Proof.
  intros a lines a'.
  destruct (@C10_blank_lines_numbered_but_not_counted Sample.runtime None
              a "/data/a.json" "/data" fnv.New64a lines)
    as (k & Hk & Hscan); [by vm_compute|].
  subst a'.
  destruct (@scanLoop Sample.runtime None a "/data/a.json" "/data"
              fnv.New64a 0 lines) as [[ctx1 a1] cancelled] eqn:E.
  destruct Hscan as (Hall & Ha1 & _ & _ & Htotal & Hfolder).
  assert (cancelled = false) as Hc by (vm_compute in E; congruence).
  rewrite (Hall Hc) in Ha1, Htotal, Hfolder. simpl.
  split; [by rewrite Ha1; vm_compute|].
  split; [by rewrite Htotal; vm_compute|].
  rewrite Hfolder. by vm_compute.
Defined.

(** ** A run that is not cancelled *)

Section Completion.
Context `{GoRuntime}.

Lemma scanLoop_live ctx a path dir h n lines :
  live (scanLoop ctx a path dir h n lines).1.1 →
  live ctx ∧ (scanLoop ctx a path dir h n lines).2 = false.
Proof.
  revert ctx a h n. induction lines as [|line lines IH]; intros ctx a h n;
    simpl; [done|].
  destruct (Z.rem n 1000 =? 0).
  - pose proof (poll_live ctx) as Hp. pose proof (poll_live_before ctx) as Hb.
    destruct (poll ctx) as [[] ctx1]; simpl in *.
    + intros Hl. by specialize (Hp Hl).
    + destruct (scanLine a path dir h (int_add n 1) line) as [a1 h1].
      intros Hl. destruct (IH _ _ _ _ Hl) as [Hl1 Hc]. auto.
  - destruct (scanLine a path dir h (int_add n 1) line) as [a1 h1].
    apply IH.
Qed.

Lemma processSource_live w ctx a src :
  live (processSource w ctx a src).1 → live ctx.
Proof.
  unfold processSource. destruct (Open w src) as [reader|]; [|done].
  pose proof (scanLoop_live ctx (storeCurrentFolder (Dir src) a) (Path src)
                (Dir src) fnv.New64a 0 (tokens reader)) as Hs.
  destruct (scanLoop _ _ _ _ _ _ _) as [[ctx1 a1] cancelled].
  simpl in Hs. intros Hl. apply Hs.
  by destruct cancelled, (scanErr reader).
Qed.

Lemma processSource_marked w ctx a src reader :
  Open w src = Some reader → scanErr reader = false →
  live (processSource w ctx a src).1 →
  processedPaths (processSource w ctx a src).2 !! Path src = Some true.
Proof.
  intros Hopen Herr. unfold processSource. rewrite Hopen, Herr.
  pose proof (scanLoop_live ctx (storeCurrentFolder (Dir src) a) (Path src)
                (Dir src) fnv.New64a 0 (tokens reader)) as Hs.
  destruct (scanLoop _ _ _ _ _ _ _) as [[ctx1 a1] cancelled].
  simpl in Hs. destruct cancelled; simpl.
  - intros Hl. by destruct (Hs Hl).
  - intros _. apply lookup_insert_eq.
Qed.

Lemma processSource_keeps_marks w ctx a src p :
  processedPaths a !! p = Some true →
  processedPaths (processSource w ctx a src).2 !! p = Some true.
Proof.
  intros Hp. unfold processSource. destruct (Open w src) as [reader|]; [|done].
  pose proof (scanLoop_marks ctx (storeCurrentFolder (Dir src) a) (Path src)
                (Dir src) fnv.New64a 0 (tokens reader)) as [_ Hs].
  destruct (scanLoop _ _ _ _ _ _ _) as [[ctx1 a1] cancelled].
  simpl in Hs. destruct cancelled, (scanErr reader); simpl;
    rewrite <-?Hs; try done.
  destruct (decide (Path src = p)) as [->|Hne].
  - apply lookup_insert_eq.
  - by rewrite lookup_insert_ne.
Qed.

Lemma worker_keeps_marks w ctx a sources p :
  processedPaths a !! p = Some true →
  processedPaths (worker w ctx a sources).2 !! p = Some true.
Proof.
  revert ctx a. induction sources as [|src sources IH]; intros ctx a Hp;
    simpl; [done|].
  destruct (poll ctx) as [[] ctx1]; [done|].
  pose proof (processSource_keeps_marks w ctx1 a src p Hp) as Hs.
  destruct (processSource w ctx1 a src) as [ctx2 a2]. by apply IH.
Qed.

Lemma worker_live w ctx a sources :
  live (worker w ctx a sources).1 → live ctx.
Proof.
  revert ctx a. induction sources as [|src sources IH]; intros ctx a;
    simpl; [done|].
  pose proof (poll_live_before ctx) as Hb.
  destruct (poll ctx) as [[] ctx1]; simpl in *; [done|].
  pose proof (processSource_live w ctx1 a src) as Hs.
  destruct (processSource w ctx1 a src) as [ctx2 a2]. simpl in Hs.
  intros Hl. apply Hb, Hs. by apply (IH ctx2 a2).
Qed.

Lemma worker_marks_all w ctx a sources :
  (∀ s, s ∈ sources →
        ∃ reader, Open w s = Some reader ∧ scanErr reader = false) →
  live (worker w ctx a sources).1 →
  ∀ s, s ∈ sources → processedPaths (worker w ctx a sources).2 !! Path s
                     = Some true.
Proof.
  revert ctx a. induction sources as [|src sources IH]; intros ctx a Hok;
    simpl.
  - intros _ s Hs. by apply elem_of_nil in Hs.
  - pose proof (poll_live ctx) as Hp.
    destruct (poll ctx) as [[] ctx1]; simpl in *.
    { intros Hl. by specialize (Hp Hl). }
    destruct (Hok src) as (reader & Hopen & Herr); [by left|].
    pose proof (processSource_marked w ctx1 a src reader Hopen Herr) as Hm.
    destruct (processSource w ctx1 a src) as [ctx2 a2] eqn:E. simpl in Hm.
    intros Hl s Hs.
    apply elem_of_cons in Hs as [->|Hs].
    + apply worker_keeps_marks, Hm. by apply worker_live in Hl.
    + apply IH; [|done|done]. intros s' Hs'. apply Hok. by right.
Qed.

Lemma generateReport_partial a sources wasCancelled isValidation :
  SummaryReport.IsPartialReport
    (Summary (generateReport a sources wasCancelled isValidation))
  = wasCancelled.
Proof.
  unfold generateReport.
  destruct (fold_left (folderStep a) sources (∅, 0)) as [folderDetails total].
  by destruct (map_fold _ _ folderDetails) as [bytes keys].
Qed.
End Completion.


(** X1. Let an engine with at least one worker run over a list of
    sources each of which opens and is read to its end without a scanner
    error. The run returns a report, and when that report is not a
    partial one the unprocessed sources of the same list are none. *)
Theorem Run_to_the_end_leaves_none_unprocessed `{GoRuntime}
    (w : World) (ctx : Context) (a : Analyser) (sources : list InputSource) :
  0 < numWorkers a →
  (∀ s, s ∈ sources →
        ∃ reader, Open w s = Some reader ∧ scanErr reader = false) →
  ∃ a' rep,
    Run w ctx a sources = Some (a', rep) ∧
    (SummaryReport.IsPartialReport (Summary rep) = false →
     GetUnprocessedSources a' sources = []).
Proof.
  intros Hw Hok. unfold Run.
  destruct (Z.ltb_spec (numWorkers a) 0) as [?|_]; [lia|].
  destruct (Z.eqb_spec (numWorkers a) 0) as [?|_]; [lia|].
  pose proof (worker_marks_all w ctx a sources Hok) as Hm.
  destruct (worker w ctx a sources) as [ctx1 a1]. simpl in Hm.
  eexists _, _. split; [done|]. rewrite generateReport_partial. intros Hl.
  unfold GetUnprocessedSources. apply elem_of_nil_inv.
  intros s [Hun Hs]%list_elem_of_filter.
  by rewrite (Hm Hl s Hs) in Hun.
Qed.

Lemma Run_to_the_end_leaves_none_unprocessed_witness :
  ∃ a' rep,
    @Run Sample.runtime Sample.threeFiles None (New "id" 8 true true false)
      Sample.threeSources = Some (a', rep) ∧
    (SummaryReport.IsPartialReport (Summary rep) = false →
     GetUnprocessedSources a' Sample.threeSources = []).
Proof.
  apply (@Run_to_the_end_leaves_none_unprocessed Sample.runtime).
  - by vm_compute.
  - intros s Hs. exists {| tokens := [Sample.idRow "a"]; scanErr := false |}.
    split; [|done].
    apply elem_of_cons in Hs as [->|Hs]; [by vm_compute|].
    apply elem_of_cons in Hs as [->|Hs]; [by vm_compute|].
    apply elem_of_cons in Hs as [->|Hs]; [by vm_compute|].
    by apply elem_of_nil in Hs.
Defined.

(** ** What a whole run preserves *)

Section Preservation.
Context `{GoRuntime}.

(** A relation between the engine a run starts from and the engine
    later on, which every single write of the engine keeps. The hypothesis
    on [processRow] may use that the settings are still those at the
    start. *)
Variable a0 : Analyser.
Variable keeps : Analyser → Prop.
Hypothesis keeps_store : ∀ b dir, keeps b → keeps (storeCurrentFolder dir b).
Hypothesis keeps_count : ∀ b dir, keeps b → keeps (countRow dir b).
Hypothesis keeps_mark : ∀ b path, keeps b → keeps (markProcessed path b).
Hypothesis keeps_row :
  ∀ b data filePath n h,
    sameSettings a0 b → keeps b → keeps (processRow b data filePath n h).1.

Lemma scanLine_keeps b path dir h n line :
  sameSettings a0 b → keeps b → keeps (scanLine b path dir h n line).1.
Proof.
  intros Hs Hk. destruct line as [| |t]; simpl; [done|by apply keeps_count|].
  destruct (json_Unmarshal t) as [data|]; [|by apply keeps_count].
  apply keeps_row; [|by apply keeps_count]. done.
Qed.

Lemma scanLoop_keeps ctx b path dir h n lines :
  sameSettings a0 b → keeps b →
  keeps (scanLoop ctx b path dir h n lines).1.2.
Proof.
  revert ctx b h n. induction lines as [|line lines IH]; intros ctx b h n Hs Hk;
    simpl; [done|].
  destruct (if Z.rem n 1000 =? 0 then poll ctx else (false, ctx))
    as [[] ctx1]; [done|].
  pose proof (scanLine_keeps b path dir h (int_add n 1) line Hs Hk) as Hk1.
  pose proof (scanLine_settings b path dir h (int_add n 1) line) as Hs1.
  destruct (scanLine b path dir h (int_add n 1) line) as [b1 h1].
  apply IH; [by etrans|done].
Qed.

Lemma processSource_keeps w ctx b src :
  sameSettings a0 b → keeps b → keeps (processSource w ctx b src).2.
Proof.
  intros Hs Hk. unfold processSource.
  destruct (Open w src) as [reader|]; [|by apply keeps_store].
  pose proof (scanLoop_keeps ctx (storeCurrentFolder (Dir src) b) (Path src)
                (Dir src) fnv.New64a 0 (tokens reader) Hs
                (keeps_store _ _ Hk)) as Hk1.
  destruct (scanLoop _ _ _ _ _ _ _) as [[ctx1 b1] cancelled].
  destruct cancelled, (scanErr reader); simpl; try done.
  by apply keeps_mark.
Qed.

Lemma worker_keeps w ctx b sources :
  sameSettings a0 b → keeps b → keeps (worker w ctx b sources).2.
Proof.
  revert ctx b. induction sources as [|src sources IH]; intros ctx b Hs Hk;
    simpl; [done|].
  destruct (poll ctx) as [[] ctx1]; [done|].
  pose proof (processSource_keeps w ctx1 b src Hs Hk) as Hk1.
  pose proof (processSource_settings w ctx1 b src) as Hs1.
  destruct (processSource w ctx1 b src) as [ctx2 b2].
  apply IH; [by etrans|done].
Qed.

Lemma Run_keeps w ctx sources a' rep :
  keeps a0 → Run w ctx a0 sources = Some (a', rep) → keeps a'.
Proof.
  intros Hk. unfold Run.
  destruct (numWorkers a0 <? 0); [done|].
  destruct (numWorkers a0 =? 0).
  - by intros [= <- _].
  - pose proof (worker_keeps w ctx a0 sources (reflexivity _) Hk) as Hk1.
    destruct (worker w ctx a0 sources) as [ctx1 a1]. by intros [= <- _].
Qed.
End Preservation.

Section RunFacts.
Context `{GoRuntime}.

Lemma Run_returns w ctx a sources :
  0 ≤ numWorkers a →
  ∃ a' rep, Run w ctx a sources = Some (a', rep).
Proof.
  intros Hw. unfold Run.
  destruct (Z.ltb_spec (numWorkers a) 0) as [?|_]; [lia|].
  destruct (if numWorkers a =? 0 then (ctx, a) else worker w ctx a sources)
    as [ctx1 a1].
  by eexists _, _.
Qed.

Lemma Run_settings w ctx a sources a' rep :
  Run w ctx a sources = Some (a', rep) → sameSettings a a'.
Proof.
  apply (Run_keeps a (sameSettings a)); try done.
  - intros b data filePath n h _ Hb. etrans; [done|apply processRow_settings].
Qed.
End RunFacts.

Section ReportFacts.
Context `{GoRuntime}.

Lemma generateReport_groups a sources wasCancelled isValidation :
  DuplicateIDs (generateReport a sources wasCancelled isValidation)
  = tallyDuplicateIDs
      (if checkKey a && negb isValidation
       then map_fold tallyID noIDs (idLocations a) else noIDs) ∧
  DuplicateRows (generateReport a sources wasCancelled isValidation)
  = tallyDuplicateRows
      (if checkRow a && negb isValidation
       then map_fold tallyRow noRows (rowHashes a) else noRows).
Proof.
  unfold generateReport.
  destruct (fold_left (folderStep a) sources (∅, 0)) as [folderDetails total].
  by destruct (map_fold _ _ folderDetails) as [bytes keys].
Qed.

Lemma Run_report w ctx a sources a' rep :
  Run w ctx a sources = Some (a', rep) →
  ∃ wasCancelled, rep = generateReport a' sources wasCancelled (ValidateOnly a').
Proof.
  unfold Run. destruct (numWorkers a <? 0); [done|].
  destruct (if numWorkers a =? 0 then (ctx, a) else worker w ctx a sources)
    as [ctx1 a1].
  intros [= <- <-]. by eexists.
Qed.

Lemma filter_sublist_impl {A} (P Q : A → Prop)
    `{∀ x, Decision (P x)} `{∀ x, Decision (Q x)} (l : list A) :
  (∀ x, P x → Q x) → filter P l `sublist_of` filter Q l.
Proof.
  intros HPQ. induction l as [|x l IH]; [done|].
  rewrite !filter_cons. destruct (decide (P x)) as [HP|HP].
  - rewrite decide_True by auto. by apply sublist_skip.
  - destruct (decide (Q x)); [by apply sublist_cons|done].
Qed.
End ReportFacts.

(** X2. A run never takes a mark away, however it ends: a path in the
    processed-set before the run is in it afterwards, so the unprocessed
    sources of any list after the run are among those before it, in the
    same order. *)
Theorem Run_never_unmarks `{GoRuntime}
    (w : World) (ctx : Context) (a : Analyser) (sources : list InputSource) :
  0 ≤ numWorkers a →
  ∃ a' rep,
    Run w ctx a sources = Some (a', rep) ∧
    (∀ path, processedPaths a !! path = Some true →
             processedPaths a' !! path = Some true) ∧
    (∀ allSources,
       GetUnprocessedSources a' allSources
       `sublist_of` GetUnprocessedSources a allSources).
Proof.
  intros Hw. destruct (Run_returns w ctx a sources Hw) as (a' & rep & HRun).
  exists a', rep. split; [done|].
  assert (∀ path, processedPaths a !! path = Some true →
                  processedPaths a' !! path = Some true) as Hkeep.
  { apply (Run_keeps a
             (λ b, ∀ path, processedPaths a !! path = Some true →
                           processedPaths b !! path = Some true)
             ) with (w := w) (ctx := ctx) (sources := sources) (rep := rep);
      try done.
    - intros b p Hb path Hp. simpl.
      destruct (decide (p = path)) as [->|Hne];
        [apply lookup_insert_eq|rewrite lookup_insert_ne by done; auto].
    - intros b data filePath n h _ Hb path Hp.
      destruct (processRow_marks b data filePath n h) as [_ <-]. auto. }
  split; [done|]. intros allSources. unfold GetUnprocessedSources.
  apply filter_sublist_impl. intros s Hs.
  destruct (processedPaths a !! Path s) as [[]|] eqn:E; try done.
  by rewrite (Hkeep _ E) in Hs.
Qed.

Lemma Run_never_unmarks_witness :
  ∃ a' rep,
    @Run Sample.runtime Sample.threeFiles (Some 3%nat)
      (New "id" 1 true true false) Sample.threeSources = Some (a', rep) ∧
    (∀ path, processedPaths (New "id" 1 true true false) !! path = Some true →
             processedPaths a' !! path = Some true) ∧
    (∀ allSources,
       GetUnprocessedSources a' allSources
       `sublist_of`
       GetUnprocessedSources (New "id" 1 true true false) allSources).
Proof.
  apply (@Run_never_unmarks Sample.runtime). by vm_compute.
Defined.

(** X3. An engine in validation mode stores no location: a run, however
    it ends, leaves the by-key and the by-hash groups as they were, and
    its report has no duplicate group of either kind. *)
Theorem Run_validation_stores_no_location `{GoRuntime}
    (w : World) (ctx : Context) (a : Analyser) (sources : list InputSource) :
  0 ≤ numWorkers a → ValidateOnly a = true →
  ∃ a' rep,
    Run w ctx a sources = Some (a', rep) ∧
    idLocations a' = idLocations a ∧ rowHashes a' = rowHashes a ∧
    DuplicateIDs rep = ∅ ∧ DuplicateRows rep = ∅.
Proof.
  intros Hw Hv. destruct (Run_returns w ctx a sources Hw) as (a' & rep & HRun).
  exists a', rep. split; [done|].
  assert (idLocations a' = idLocations a ∧ rowHashes a' = rowHashes a)
    as [Hi Hr].
  { apply (Run_keeps a
             (λ b, idLocations b = idLocations a ∧ rowHashes b = rowHashes a))
      with (w := w) (ctx := ctx) (sources := sources) (rep := rep); try done.
    intros b data filePath n h (_ & _ & _ & _ & Hvb) Hb.
    rewrite processRow_cases. rewrite <-Hvb, Hv.
    destruct (checkKey b); [|done].
    by destruct (data_lookup (uniqueKey b) data). }
  split; [done|]. split; [done|].
  destruct (Run_report w ctx a sources a' rep HRun) as [c ->].
  destruct (Run_settings w ctx a sources a' _ HRun) as (_ & _ & _ & _ & Hva).
  destruct (generateReport_groups a' sources c (ValidateOnly a')) as [-> ->].
  rewrite <-Hva, Hv. simpl. by rewrite !andb_false_r.
Qed.

Lemma Run_validation_stores_no_location_witness :
  ∃ a' rep,
    @Run Sample.runtime Sample.threeFiles None
      (New "id" 8 true true true) Sample.threeSources = Some (a', rep) ∧
    idLocations a' = idLocations (New "id" 8 true true true) ∧
    rowHashes a' = rowHashes (New "id" 8 true true true) ∧
    DuplicateIDs rep = ∅ ∧ DuplicateRows rep = ∅.
Proof.
  apply (@Run_validation_stores_no_location Sample.runtime); by vm_compute.
Defined.

(** X4. With the key check off a run classifies nothing, whether or not
    the row check is on: the by-key groups, the by-hash groups and the
    keys-found counters are after the run what they were before it, and
    the report has no duplicate-key group. *)
Theorem Run_without_key_check_classifies_nothing `{GoRuntime}
    (w : World) (ctx : Context) (a : Analyser) (sources : list InputSource) :
  0 ≤ numWorkers a → checkKey a = false →
  ∃ a' rep,
    Run w ctx a sources = Some (a', rep) ∧
    idLocations a' = idLocations a ∧ rowHashes a' = rowHashes a ∧
    keysFoundPerFolder a' = keysFoundPerFolder a ∧
    DuplicateIDs rep = ∅.
Proof.
  intros Hw Hk. destruct (Run_returns w ctx a sources Hw) as (a' & rep & HRun).
  exists a', rep. split; [done|].
  assert (idLocations a' = idLocations a ∧ rowHashes a' = rowHashes a ∧
          keysFoundPerFolder a' = keysFoundPerFolder a) as (Hi & Hr & Hf).
  { apply (Run_keeps a
             (λ b, idLocations b = idLocations a ∧ rowHashes b = rowHashes a ∧
                   keysFoundPerFolder b = keysFoundPerFolder a))
      with (w := w) (ctx := ctx) (sources := sources) (rep := rep); try done.
    intros b data filePath n h (_ & _ & Hkb & _) Hb.
    rewrite processRow_no_key_check by congruence. done. }
  repeat (split; [done|]).
  destruct (Run_report w ctx a sources a' rep HRun) as [c ->].
  destruct (Run_settings w ctx a sources a' _ HRun) as (_ & _ & Hka & _).
  destruct (generateReport_groups a' sources c (ValidateOnly a')) as [-> _].
  by rewrite <-Hka, Hk.
Qed.

Lemma Run_without_key_check_classifies_nothing_witness :
  ∃ a' rep,
    @Run Sample.runtime Sample.threeFiles None
      (New "id" 8 false true false) Sample.threeSources = Some (a', rep) ∧
    idLocations a' = idLocations (New "id" 8 false true false) ∧
    rowHashes a' = rowHashes (New "id" 8 false true false) ∧
    keysFoundPerFolder a' = keysFoundPerFolder (New "id" 8 false true false) ∧
    DuplicateIDs rep = ∅.
Proof.
  apply (@Run_without_key_check_classifies_nothing Sample.runtime);
    by vm_compute.
Defined.

(** ** The duplicate groups of a report *)

(** The sum of [f] over the values of a map. *)
Definition sumOver {A} (f : A → Z) (m : gmap string A) : Z :=
  map_fold (λ _ x total, f x + total) 0 m.

(** A group with more than one location. *)
Definition isDuplicate (group : string * list LocationInfo) : Prop :=
  1 < len group.2.

Global Instance isDuplicate_dec group : Decision (isDuplicate group).
Proof. unfold isDuplicate. apply _. Defined.

Lemma sumOver_empty {A} (f : A → Z) : sumOver f ∅ = 0.
Proof. apply map_fold_empty. Qed.

Lemma sumOver_insert {A} (f : A → Z) (m : gmap string A) i x :
  m !! i = None → sumOver f (<[i:=x]> m) = f x + sumOver f m.
Proof.
  intros Hi. unfold sumOver. rewrite map_fold_insert_L; [done| |done].
  intros. lia.
Qed.

Lemma sumOver_delete {A} (f : A → Z) (m : gmap string A) i x :
  m !! i = Some x → sumOver f m = f x + sumOver f (delete i m).
Proof.
  intros Hi. rewrite <-(insert_delete_id m i x) at 1 by done.
  apply sumOver_insert, lookup_delete_eq.
Qed.

Lemma sumOver_nonneg {A} (f : A → Z) (m : gmap string A) :
  (∀ x, 0 ≤ f x) → 0 ≤ sumOver f m.
Proof.
  intros Hf. unfold sumOver.
  apply (map_fold_weak_ind (λ r _, 0 ≤ r)); [done|].
  intros i x m' r _ Hr. specialize (Hf x). lia.
Qed.

Section Tallies.
Context `{GoRuntime}.

Lemma tallyID_fold (m : gmap string (list LocationInfo)) :
  let r := map_fold tallyID noIDs m in
  tallyDuplicateIDs r = filter isDuplicate m ∧
  totalIDs r = wrap 64 (sumOver len m) ∧
  uniqueDuplicateIDsCount r = wrap 64 (Z.of_nat (size (filter isDuplicate m))).
Proof.
  apply (map_fold_weak_ind
           (λ r m,
              tallyDuplicateIDs r = filter isDuplicate m ∧
              totalIDs r = wrap 64 (sumOver len m) ∧
              uniqueDuplicateIDsCount r
              = wrap 64 (Z.of_nat (size (filter isDuplicate m))))).
  - rewrite map_filter_empty, sumOver_empty, map_size_empty. done.
  - intros id locations m' r Hid (Hd & Ht & Hu).
    rewrite sumOver_insert by done. unfold tallyID.
    assert (int_add (totalIDs r) (len locations)
            = wrap 64 (len locations + sumOver len m')) as Htot.
    { unfold int_add. rewrite Ht, wrap_add_l by lia. f_equal. lia. }
    destruct (Z.ltb_spec 1 (len locations)) as [Hdup|Hdup]; simpl.
    + rewrite map_filter_insert_True by done.
      rewrite map_size_insert_None
        by (apply map_lookup_filter_None; left; done).
      split; [by rewrite Hd|]. split; [done|].
      unfold int_add. rewrite Hu, wrap_add_l by lia. f_equal. lia.
    + rewrite map_filter_insert_not';
        [done | unfold isDuplicate; simpl; lia | intros y; by rewrite Hid].
Qed.

Lemma tallyRow_fold (m : gmap string (list LocationInfo)) :
  let r := map_fold tallyRow noRows m in
  tallyDuplicateRows r = filter isDuplicate m ∧
  totalDuplicateRowsCount r = wrap 64 (sumOver len (filter isDuplicate m)).
Proof.
  apply (map_fold_weak_ind
           (λ r m,
              tallyDuplicateRows r = filter isDuplicate m ∧
              totalDuplicateRowsCount r
              = wrap 64 (sumOver len (filter isDuplicate m)))).
  - rewrite map_filter_empty, sumOver_empty. done.
  - intros hash locations m' r Hh (Hd & Ht). unfold tallyRow.
    destruct (Z.ltb_spec 1 (len locations)) as [Hdup|Hdup]; simpl.
    + rewrite map_filter_insert_True by done.
      rewrite sumOver_insert by (apply map_lookup_filter_None; left; done).
      split; [by rewrite Hd|].
      unfold int_add. rewrite Ht, wrap_add_l by lia. f_equal. lia.
    + rewrite map_filter_insert_not';
        [done | unfold isDuplicate; simpl; lia | intros y; by rewrite Hh].
Qed.

Lemma generateReport_tallies a sources wasCancelled isValidation :
  let rep := generateReport a sources wasCancelled isValidation in
  let ids := if checkKey a && negb isValidation
             then map_fold tallyID noIDs (idLocations a) else noIDs in
  let rows := if checkRow a && negb isValidation
              then map_fold tallyRow noRows (rowHashes a) else noRows in
  SummaryReport.UniqueKeysDuplicated (Summary rep)
  = uniqueDuplicateIDsCount ids ∧
  SummaryReport.DuplicateRowInstances (Summary rep)
  = totalDuplicateRowsCount rows ∧
  (isValidation = false →
   SummaryReport.TotalKeyOccurrences (Summary rep) = totalIDs ids).
Proof.
  unfold generateReport.
  destruct (fold_left (folderStep a) sources (∅, 0)) as [folderDetails total].
  destruct (map_fold _ _ folderDetails) as [bytes keys]. simpl.
  split; [done|]. split; [done|]. by intros ->.
Qed.
End Tallies.

(** X5. In the report of a full analysis the duplicate-key groups are
    exactly the by-key groups of the engine that hold more than one
    location, each with the engine's list of locations, and likewise the
    duplicate-row groups; a check that is off gives no group. The
    summary counts them: the number of duplicated keys, the number of
    locations in the duplicate-row groups, and the number of locations in
    all by-key groups, each as a 64-bit integer. *)
Theorem generateReport_duplicate_groups `{GoRuntime}
    (a : Analyser) (sources : list InputSource) (wasCancelled : bool) :
  let rep := generateReport a sources wasCancelled false in
  DuplicateIDs rep
  = (if checkKey a then filter isDuplicate (idLocations a) else ∅) ∧
  DuplicateRows rep
  = (if checkRow a then filter isDuplicate (rowHashes a) else ∅) ∧
  SummaryReport.UniqueKeysDuplicated (Summary rep)
  = wrap 64 (Z.of_nat (size (DuplicateIDs rep))) ∧
  SummaryReport.DuplicateRowInstances (Summary rep)
  = wrap 64 (sumOver len (DuplicateRows rep)) ∧
  SummaryReport.TotalKeyOccurrences (Summary rep)
  = (if checkKey a then wrap 64 (sumOver len (idLocations a)) else 0).
Proof.
  intros rep. subst rep.
  destruct (generateReport_groups a sources wasCancelled false) as [-> ->].
  destruct (generateReport_tallies a sources wasCancelled false)
    as (-> & -> & ->); [|done].
  rewrite !andb_true_r.
  destruct (tallyID_fold (idLocations a)) as (Hd & Ht & Hu).
  destruct (tallyRow_fold (rowHashes a)) as (Hrd & Hrt).
  destruct (checkKey a), (checkRow a); simpl;
    rewrite ?Hd, ?Ht, ?Hu, ?Hrd, ?Hrt, ?map_size_empty, ?sumOver_empty;
    done.
Qed.

(** ** The per-folder table of a report *)

(** The sum of the sizes of a list of sources. *)
Definition totalSize (sources : list InputSource) : Z :=
  foldr (λ s total, Size s + total) 0 sources.

(** The test [a.processedPaths[s.Path()]]. *)
Definition marked (a : Analyser) (s : InputSource) : Prop :=
  default false (processedPaths a !! Path s) = true.

Global Instance marked_dec a s : Decision (marked a s).
Proof. unfold marked. apply _. Defined.

Lemma totalSize_app l1 l2 : totalSize (l1 ++ l2) = totalSize l1 + totalSize l2.
Proof.
  unfold totalSize. induction l1 as [|s l1 IH]; simpl; [done|].
  rewrite IH. lia.
Qed.

Lemma len_app {A} (l1 l2 : list A) : len (l1 ++ l2) = len l1 + len l2.
Proof. unfold len. rewrite length_app. lia. Qed.

Section FolderTable.
Context `{GoRuntime}.

(** The sources of a list that lie in a folder. *)
Definition inFolder (dir : string) (sources : list InputSource)
    : list InputSource :=
  filter (λ s, Dir s = dir) sources.

(** The row of the table for a folder that holds the given sources. *)
Definition folderRow (a : Analyser) (dir : string)
    (members : list InputSource) : FolderDetail.t :=
  {| FolderDetail.TotalFiles := wrap 64 (len members);
     FolderDetail.TotalSizeBytes := wrap 64 (totalSize members);
     FolderDetail.FilesProcessed := wrap 64 (len (filter (marked a) members));
     FolderDetail.ProcessedSizeBytes :=
       wrap 64 (totalSize (filter (marked a) members));
     FolderDetail.KeysFound := default 0 (keysFoundPerFolder a !! dir);
     FolderDetail.RowsProcessed :=
       default 0 (rowsProcessedPerFolder a !! dir) |}.

Lemma folderStep_fold a sources :
  let '(folderDetails, total) := fold_left (folderStep a) sources (∅, 0) in
  total = wrap 64 (totalSize sources) ∧
  ∀ dir,
    folderDetails !! dir
    = if decide (inFolder dir sources = []) then None
      else Some (folderRow a dir (inFolder dir sources)).
Proof.
  induction sources as [|s sources IH] using rev_ind.
  - simpl. split; [done|]. intros dir. by rewrite lookup_empty.
  - rewrite fold_left_app. simpl.
    destruct (fold_left (folderStep a) sources (∅, 0)) as [fd total].
    destruct IH as [-> IH]. simpl. split.
    { unfold int64_add. rewrite wrap_add_l, totalSize_app by lia.
      f_equal. unfold totalSize. simpl. lia. }
    intros dir. unfold inFolder. rewrite filter_app.
    fold (inFolder dir sources).
    destruct (decide (Dir s = dir)) as [<-|Hne].
    + rewrite lookup_insert_eq, IH.
      rewrite filter_cons_True, filter_nil by done.
      destruct (decide (inFolder (Dir s) sources ++ [s] = []))
        as [[_ ?]%app_eq_nil|_]; [done|].
      f_equal. unfold folderRow.
      rewrite filter_app, !len_app, !totalSize_app.
      rewrite filter_cons, filter_nil.
      assert (wrap 64 0 = 0) as Hz by reflexivity.
      destruct (decide (inFolder (Dir s) sources = [])) as [->|_];
        destruct (decide (marked a s)) as [Hm|Hm];
        [unfold marked in Hm; rewrite Hm
        |apply not_true_is_false in Hm; rewrite Hm
        |unfold marked in Hm; rewrite Hm
        |apply not_true_is_false in Hm; rewrite Hm];
        simpl; unfold int_add, int64_add;
        rewrite ?filter_nil, ?wrap_add_l by lia;
        f_equal; try (f_equal; unfold totalSize, len; simpl; lia);
        unfold totalSize, len; simpl; by rewrite ?Z.add_0_r.
    + rewrite lookup_insert_ne, IH by done.
      rewrite filter_cons_False, filter_nil, app_nil_r by done. done.
Qed.
End FolderTable.

Lemma wrap_shift bits x : 0 < bits → ∃ k, wrap bits x = x + k * 2 ^ bits.
Proof.
  intros Hb. unfold wrap.
  assert (0 < 2 ^ bits) by (apply Z.pow_pos_nonneg; lia).
  exists (- ((x + 2 ^ (bits - 1)) `div` 2 ^ bits)).
  rewrite Z.mod_eq by lia. lia.
Qed.

Lemma wrap_shifted bits x k :
  0 < bits → wrap bits (x + k * 2 ^ bits) = wrap bits x.
Proof. intros Hb. apply wrap_mod; [done|]. apply Z_mod_plus_full. Qed.

Lemma sumOver_insert_Some {A} (f : A → Z) (m : gmap string A) i x old :
  m !! i = Some old → sumOver f (<[i:=x]> m) = f x - f old + sumOver f m.
Proof.
  intros Hi. rewrite <-insert_delete_eq.
  rewrite sumOver_insert by apply lookup_delete_eq.
  rewrite (sumOver_delete f m i old) by done. lia.
Qed.

Lemma totalSize_filter_le (P : InputSource → Prop) `{∀ s, Decision (P s)}
    (sources : list InputSource) :
  (∀ s, s ∈ sources → 0 ≤ Size s) →
  0 ≤ totalSize (filter P sources) ≤ totalSize sources.
Proof.
  induction sources as [|s sources IH]; intros Hs; [done|].
  rewrite filter_cons.
  assert (0 ≤ Size s) by (apply Hs; by left).
  assert (0 ≤ totalSize (filter P sources) ≤ totalSize sources) as IH'
    by (apply IH; intros; apply Hs; by right).
  destruct (decide (P s)); unfold totalSize in *; simpl; lia.
Qed.

Lemma len_filter_le {A} (P : A → Prop) `{∀ x, Decision (P x)} (l : list A) :
  0 ≤ len (filter P l) ≤ len l.
Proof. unfold len. pose proof (length_filter P l). lia. Qed.

Section FolderSums.
Context `{GoRuntime}.

Lemma folderStep_processed a sources :
  ∃ k,
    sumOver FolderDetail.ProcessedSizeBytes
      (fold_left (folderStep a) sources (∅, 0)).1
    = totalSize (filter (marked a) sources) + k * 2 ^ 64.
Proof.
  induction sources as [|s sources IH] using rev_ind.
  - exists 0. simpl. by rewrite sumOver_empty.
  - rewrite fold_left_app. simpl.
    pose proof (folderStep_fold a sources) as Hfold.
    destruct (fold_left (folderStep a) sources (∅, 0)) as [fd total].
    destruct Hfold as [_ Hfd]. destruct IH as [k IH]. simpl in *.
    rewrite filter_app, totalSize_app, filter_cons, filter_nil.
    destruct (fd !! Dir s) as [row|] eqn:Hrow.
    + rewrite (sumOver_insert_Some _ _ _ _ row) by done. simpl. rewrite IH.
      destruct (decide (marked a s)) as [Hm|Hm];
        [unfold marked in Hm; rewrite Hm
        |apply not_true_is_false in Hm; rewrite Hm].
      * destruct (wrap_shift 64
                    (FolderDetail.ProcessedSizeBytes row + Size s))
          as [j Hj]; [lia|].
        unfold int64_add. rewrite Hj. exists (k + j).
        unfold totalSize. simpl. lia.
      * exists k. unfold totalSize. simpl. lia.
    + rewrite sumOver_insert by done. simpl. rewrite IH.
      destruct (decide (marked a s)) as [Hm|Hm];
        [unfold marked in Hm; rewrite Hm
        |apply not_true_is_false in Hm; rewrite Hm].
      * destruct (wrap_shift 64 (0 + Size s)) as [j Hj]; [lia|].
        unfold int64_add. rewrite Hj. exists (k + j).
        unfold totalSize. simpl. lia.
      * exists k. unfold totalSize. simpl. lia.
Qed.

Lemma folderTotals_fold (fd : gmap string FolderDetail.t) :
  map_fold
    (λ _ detail '(bytes, keys),
       (int64_add bytes (FolderDetail.ProcessedSizeBytes detail),
        int_add keys (FolderDetail.KeysFound detail)))
    (0, 0) fd
  = (wrap 64 (sumOver FolderDetail.ProcessedSizeBytes fd),
     wrap 64 (sumOver FolderDetail.KeysFound fd)).
Proof.
  apply (map_fold_weak_ind
           (λ r m, r = (wrap 64 (sumOver FolderDetail.ProcessedSizeBytes m),
                        wrap 64 (sumOver FolderDetail.KeysFound m)))).
  - by rewrite !sumOver_empty.
  - intros dir detail m r Hdir ->. rewrite !sumOver_insert by done.
    unfold int64_add, int_add. rewrite !wrap_add_l by lia.
    f_equal; f_equal; lia.
Qed.

Lemma generateReport_folders a sources wasCancelled isValidation :
  let rep := generateReport a sources wasCancelled isValidation in
  let folders := fold_left (folderStep a) sources (∅, 0) in
  SummaryReport.FolderDetails (Summary rep) = folders.1 ∧
  SummaryReport.TotalDataSizeOverallBytes (Summary rep) = folders.2 ∧
  SummaryReport.ProcessedDataSizeBytes (Summary rep)
  = wrap 64 (sumOver FolderDetail.ProcessedSizeBytes folders.1) ∧
  (isValidation = true →
   SummaryReport.TotalKeyOccurrences (Summary rep)
   = wrap 64 (sumOver FolderDetail.KeysFound folders.1)).
Proof.
  unfold generateReport.
  destruct (fold_left (folderStep a) sources (∅, 0)) as [fd total].
  rewrite folderTotals_fold. simpl.
  split; [done|]. split; [done|]. split; [done|]. by intros ->.
Qed.
End FolderSums.

(** X6. The per-folder table of a report has a row for exactly the
    folders of the sources handed to the run. The row of a folder counts
    the sources of that folder and adds up their sizes, counts and adds
    up those of them that are marked processed, and carries the engine's
    keys-found and rows-processed counters of the folder. The summary's
    total size is the size of all sources and its processed size that of
    the marked ones. All sums are 64-bit. *)
Theorem generateReport_folder_table `{GoRuntime}
    (a : Analyser) (sources : list InputSource)
    (wasCancelled isValidation : bool) :
  let rep := generateReport a sources wasCancelled isValidation in
  (∀ dir,
     SummaryReport.FolderDetails (Summary rep) !! dir
     = if decide (inFolder dir sources = []) then None
       else Some (folderRow a dir (inFolder dir sources))) ∧
  SummaryReport.TotalDataSizeOverallBytes (Summary rep)
  = wrap 64 (totalSize sources) ∧
  SummaryReport.ProcessedDataSizeBytes (Summary rep)
  = wrap 64 (totalSize (filter (marked a) sources)).
Proof.
  intros rep. subst rep.
  destruct (generateReport_folders a sources wasCancelled isValidation)
    as (-> & -> & -> & _).
  pose proof (folderStep_fold a sources) as Hfold.
  destruct (folderStep_processed a sources) as [k Hk].
  destruct (fold_left (folderStep a) sources (∅, 0)) as [fd total].
  destruct Hfold as [-> Hfd]. simpl in *.
  split; [done|]. split; [done|].
  rewrite Hk. by apply wrap_shifted.
Qed.

(** X7. When no size is negative and the sizes of all sources add up to
    less than 2^63, every row of the per-folder table has at most as many
    processed files as files and at most as many processed bytes as
    bytes, and the processed size of the summary is at most its total
    size, whatever state the engine is in. *)
Theorem generateReport_processed_within_total `{GoRuntime}
    (a : Analyser) (sources : list InputSource)
    (wasCancelled isValidation : bool) :
  (∀ s, s ∈ sources → 0 ≤ Size s) →
  totalSize sources < 2 ^ 63 →
  len sources < 2 ^ 63 →
  let rep := generateReport a sources wasCancelled isValidation in
  (∀ dir detail,
     SummaryReport.FolderDetails (Summary rep) !! dir = Some detail →
     0 ≤ FolderDetail.FilesProcessed detail ≤ FolderDetail.TotalFiles detail ∧
     0 ≤ FolderDetail.ProcessedSizeBytes detail
       ≤ FolderDetail.TotalSizeBytes detail) ∧
  0 ≤ SummaryReport.ProcessedDataSizeBytes (Summary rep)
    ≤ SummaryReport.TotalDataSizeOverallBytes (Summary rep).
Proof.
  intros Hsize Htotal Hlen rep. subst rep.
  destruct (generateReport_folders a sources wasCancelled isValidation)
    as (-> & -> & -> & _).
  pose proof (folderStep_fold a sources) as Hfold.
  destruct (folderStep_processed a sources) as [k Hk].
  destruct (fold_left (folderStep a) sources (∅, 0)) as [fd total].
  destruct Hfold as [-> Hfd]. simpl in *.
  rewrite Hk, wrap_shifted by lia.
  assert (∀ l, (∀ s, s ∈ l → s ∈ sources) → ∀ (P : InputSource → Prop)
               `{∀ s, Decision (P s)},
            0 ≤ totalSize (filter P l) ≤ totalSize l) as Hfilter.
  { intros l Hl P ?. apply totalSize_filter_le. auto. }
  split.
  - intros dir detail. rewrite Hfd.
    destruct (decide (inFolder dir sources = [])); [done|].
    intros [= <-]. unfold folderRow. simpl.
    pose proof (len_filter_le (λ s, Dir s = dir) sources) as Hl1.
    pose proof (len_filter_le (marked a) (inFolder dir sources)) as Hl2.
    pose proof (totalSize_filter_le (λ s, Dir s = dir) sources Hsize) as Hs1.
    assert (0 ≤ totalSize (filter (marked a) (inFolder dir sources))
              ≤ totalSize (inFolder dir sources)) as Hs2.
    { apply totalSize_filter_le. intros s [_ Hs]%list_elem_of_filter. auto. }
    fold (inFolder dir sources) in Hl1, Hs1.
    rewrite !wrap_small by lia. lia.
  - pose proof (totalSize_filter_le (marked a) sources Hsize).
    rewrite !wrap_small by lia. lia.
Qed.

Lemma generateReport_processed_within_total_witness :
  let rep :=
    @generateReport Sample.runtime
      (markProcessed "/data/a.json" (New "id" 8 true true false))
      Sample.threeSources true false in
  0 ≤ SummaryReport.ProcessedDataSizeBytes (Summary rep)
    ≤ SummaryReport.TotalDataSizeOverallBytes (Summary rep).
Proof.
  refine (proj2 (@generateReport_processed_within_total Sample.runtime
                   (markProcessed "/data/a.json" (New "id" 8 true true false))
                   Sample.threeSources true false _ _ _)).
  - intros s Hs.
    apply elem_of_cons in Hs as [->|Hs]; [by vm_compute|].
    apply elem_of_cons in Hs as [->|Hs]; [by vm_compute|].
    apply elem_of_cons in Hs as [->|Hs]; [by vm_compute|].
    by apply elem_of_nil in Hs.
  - by vm_compute.
  - by vm_compute.
Defined.

(** ** The shape of the input *)

Set Warnings "-clear-no-such-hyp".

Section Shape.
Context `{GoRuntime}.

Lemma uniqueFolders_dom (sources : list InputSource) (m : gmap string bool) :
  dom (fold_left (λ m s, <[Dir s := true]> m) sources m)
  = list_to_set (Dir <$> sources) ∪ dom m.
Proof.
  revert m. induction sources as [|s sources IH]; intros m; simpl.
  - set_solver.
  - rewrite IH, dom_insert_L. set_solver.
Qed.

Lemma size_list_to_set_remove_dups (l : list string) :
  size (list_to_set l : gset string) = length (remove_dups l).
Proof.
  rewrite <-(size_list_to_set (C := gset string) (remove_dups l))
    by apply NoDup_remove_dups.
  f_equal. apply set_eq. intros x.
  by rewrite !elem_of_list_to_set, elem_of_remove_dups.
Qed.

Lemma uniqueFolders_size (sources : list InputSource) :
  size (fold_left (λ m s, <[Dir s := true]> m) sources
          (∅ : gmap string bool))
  = length (remove_dups (Dir <$> sources)).
Proof.
  rewrite <-size_dom, uniqueFolders_dom, dom_empty_L, (right_id_L ∅ (∪)).
  apply size_list_to_set_remove_dups.
Qed.

Lemma generateReport_average_files a sources wasCancelled isValidation :
  let folders :=
    Z.of_nat (size (fold_left (λ m s, <[Dir s := true]> m) sources
                      (∅ : gmap string bool))) in
  SummaryReport.AverageFilesPerFolder
    (Summary (generateReport a sources wasCancelled isValidation))
  = if 0 <? folders then float64_div (len sources) folders else 0%Qc.
Proof.
  unfold generateReport.
  destruct (fold_left (folderStep a) sources (∅, 0)) as [fd total].
  by destruct (map_fold _ _ fd) as [bytes keys].
Qed.
End Shape.

(** X8. The average number of files per folder in a report is the
    number of sources handed to the run over the number of distinct
    folders among them, and zero for an empty list. It is read off the
    list alone: neither the state of the engine nor the way the run ended
    enters it. *)
Theorem generateReport_average_files_per_folder `{GoRuntime}
    (a : Analyser) (sources : list InputSource)
    (wasCancelled isValidation : bool) :
  SummaryReport.AverageFilesPerFolder
    (Summary (generateReport a sources wasCancelled isValidation))
  = if decide (sources = []) then 0%Qc
    else float64_div (len sources)
           (Z.of_nat (length (remove_dups (Dir <$> sources)))).
Proof.
  rewrite generateReport_average_files, uniqueFolders_size.
  destruct sources as [|s sources]; [done|].
  rewrite decide_False by done.
  assert (0 < Z.of_nat (length (remove_dups (Dir <$> s :: sources)))) as Hpos.
  { destruct (remove_dups (Dir <$> s :: sources)) as [|d ds] eqn:E.
    - assert (Dir s ∈ remove_dups (Dir <$> s :: sources)) as Hin
        by (apply elem_of_remove_dups; left).
      rewrite E in Hin. by apply elem_of_nil in Hin.
    - simpl. lia. }
  by destruct (Z.ltb_spec 0 (Z.of_nat (length (remove_dups (Dir <$> s :: sources)))));
    [|lia].
Qed.

(** ** Every stored location points at a row that belongs there *)

(** The content hash of a record: the 64-bit FNV-1a of its compact form,
    in decimal. *)
Definition contentHash `{GoRuntime} (data : JSONData) : string :=
  FormatUint10 (fnv.Write fnv.offset64 (json_Marshal data)).

(** The record on the line a location points at, in a source of the list
    that can be opened. *)
Definition recordAt (w : World) (sources : list InputSource)
    (loc : LocationInfo) (data : JSONData) : Prop :=
  ∃ src reader t,
    src ∈ sources ∧ Path src = FilePath loc ∧ Open w src = Some reader ∧
    1 ≤ LineNumber loc ∧
    tokens reader !! Z.to_nat (LineNumber loc - 1) = Some (Json t) ∧
    json_Unmarshal t = Some data.

(** Whether all locations of all groups of a map are as [P] asks. *)
Definition allLocations (P : string → LocationInfo → Prop)
    (m : gmap string (list LocationInfo)) : Prop :=
  ∀ k locations loc, m !! k = Some locations → loc ∈ locations → P k loc.

(** A location filed under [id] holds a record whose value under the
    key prints as [id]. *)
Definition keyedAs `{GoRuntime} (w : World) (sources : list InputSource)
    (key id : string) (loc : LocationInfo) : Prop :=
  ∃ data v, recordAt w sources loc data ∧ data_lookup key data = Some v ∧
            fmt_Sprint_v v = id.

(** A location filed under [hash] holds a record with that content hash. *)
Definition hashedAs `{GoRuntime} (w : World) (sources : list InputSource)
    (hash : string) (loc : LocationInfo) : Prop :=
  ∃ data, recordAt w sources loc data ∧ contentHash data = hash.

Definition soundGroups `{GoRuntime} (w : World) (sources : list InputSource)
    (a : Analyser) : Prop :=
  allLocations (keyedAs w sources (uniqueKey a)) (idLocations a) ∧
  allLocations (hashedAs w sources) (rowHashes a).

Lemma allLocations_append P k loc m :
  allLocations P m → P k loc → allLocations P (appendLocation k loc m).
Proof.
  intros Hm HP k' locations loc'. unfold appendLocation.
  destruct (decide (k = k')) as [<-|Hne].
  - rewrite lookup_insert_eq. intros [= <-] [Hin|Hin]%elem_of_app.
    + destruct (m !! k) as [old|] eqn:E; simpl in Hin.
      * by apply (Hm k old).
      * by apply elem_of_nil in Hin.
    + by apply list_elem_of_singleton in Hin as ->.
  - rewrite lookup_insert_ne by done. apply Hm.
Qed.

Lemma allLocations_empty P : allLocations P ∅.
Proof. intros k locations loc. by rewrite lookup_empty. Qed.

Lemma rowsOf_elem (lines : list Line) n line :
  (n, line) ∈ rowsOf lines →
  1 ≤ n ∧ lines !! Z.to_nat (n - 1) = Some line.
Proof.
  intros [_ Hin]%list_elem_of_filter.
  apply list_elem_of_lookup in Hin as [i Hi].
  unfold numbered in Hi. rewrite numberedFrom_lookup in Hi.
  destruct (lines !! i) as [l|] eqn:E; [|done]. simpl in Hi.
  injection Hi as <- <-. split; [lia|].
  by replace (Z.to_nat (0 + Z.of_nat i + 1 - 1)) with i by lia.
Qed.

Section Soundness.
Context `{GoRuntime}.
Variable w : World.
Variable allSources : list InputSource.

Lemma processRow_sound b data src reader t n h :
  src ∈ allSources → Open w src = Some reader →
  1 ≤ n → tokens reader !! Z.to_nat (n - 1) = Some (Json t) →
  json_Unmarshal t = Some data →
  soundGroups w allSources b →
  soundGroups w allSources (processRow b data (Path src) n h).1.
Proof.
  intros Hsrc Hopen Hn Hline Hdata [Hids Hrows].
  assert (recordAt w allSources
            {| FilePath := Path src; LineNumber := n |} data) as Hrec.
  { by exists src, reader, t. }
  pose proof (processRow_settings b data (Path src) n h) as (Hkey & _).
  unfold soundGroups. rewrite <-Hkey. rewrite processRow_cases.
  destruct (checkKey b); [|done].
  destruct (data_lookup (uniqueKey b) data) as [v|] eqn:Hv;
    destruct (ValidateOnly b); try done;
    destruct (checkRow b); simpl; try done.
  - split.
    + apply allLocations_append; [done|]. by exists data, v.
    + apply allLocations_append; [done|]. by exists data.
  - split; [|done]. apply allLocations_append; [done|]. by exists data, v.
  - split; [done|]. apply allLocations_append; [done|]. by exists data.
Qed.

Lemma scanNumbered_sound src reader rows b h :
  src ∈ allSources → Open w src = Some reader →
  (∀ n line, (n, line) ∈ rows →
             1 ≤ n ∧ tokens reader !! Z.to_nat (n - 1) = Some line) →
  soundGroups w allSources b →
  soundGroups w allSources
    (fold_left (scanNumbered (Path src) (Dir src)) rows (b, h)).1.
Proof.
  intros Hsrc Hopen. revert b h.
  induction rows as [|[n line] rows IH]; intros b h Hrows Hb; [done|].
  simpl fold_left.
  change (scanNumbered (Path src) (Dir src) (b, h) (n, line))
    with (scanLine b (Path src) (Dir src) h n line).
  destruct (Hrows n line) as [Hn Hline]; [by left|].
  assert (soundGroups w allSources
            (scanLine b (Path src) (Dir src) h n line).1) as Hb1.
  { destruct line as [| |t]; simpl; [done|done|].
    destruct (json_Unmarshal t) as [data|] eqn:Hdata; [|done].
    by apply (processRow_sound _ _ src reader t). }
  destruct (scanLine b (Path src) (Dir src) h n line) as [b1 h1].
  apply IH; [|done]. intros n' line' Hin. apply Hrows. by right.
Qed.

Lemma processSource_sound ctx b src :
  src ∈ allSources →
  (∀ reader, Open w src = Some reader → len (tokens reader) < 2 ^ 63) →
  soundGroups w allSources b →
  soundGroups w allSources (processSource w ctx b src).2.
Proof.
  intros Hsrc Hlen Hb. rewrite processSource_cases.
  destruct (Open w src) as [reader|] eqn:Hopen; [|done].
  destruct (scanReach ctx 0 (tokens reader)) as [[ctx1 k] cancelled].
  assert (len (take k (tokens reader)) ≤ len (tokens reader)) as Hle.
  { unfold len. rewrite length_take. lia. }
  specialize (Hlen reader eq_refl).
  rewrite scanLines_rows by lia.
  assert (soundGroups w allSources
            (fold_left (scanNumbered (Path src) (Dir src))
               (rowsOf (take k (tokens reader)))
               (storeCurrentFolder (Dir src) b, fnv.New64a)).1) as Hsound.
  { apply (scanNumbered_sound src reader); try done.
    intros n line [Hn Hline]%rowsOf_elem. split; [done|].
    by apply lookup_take_Some in Hline as [Hline _]. }
  by destruct (cancelled || scanErr reader).
Qed.

Lemma worker_sound ctx b sources :
  (∀ src, src ∈ sources → src ∈ allSources) →
  (∀ src reader, src ∈ sources → Open w src = Some reader →
                 len (tokens reader) < 2 ^ 63) →
  soundGroups w allSources b →
  soundGroups w allSources (worker w ctx b sources).2.
Proof.
  revert ctx b. induction sources as [|src sources IH];
    intros ctx b Hall Hlen Hb; simpl; [done|].
  destruct (poll ctx) as [[] ctx1]; [done|].
  assert (soundGroups w allSources (processSource w ctx1 b src).2) as Hb1.
  { apply processSource_sound; [apply Hall; by left| |done].
    intros reader. apply Hlen. by left. }
  destruct (processSource w ctx1 b src) as [ctx2 b2].
  apply IH; [| |done].
  - intros s Hs. apply Hall. by right.
  - intros s reader Hs. apply Hlen. by right.
Qed.
End Soundness.

Section ReportGroups.
Context `{GoRuntime}.

Lemma generateReport_groups_from_engine a sources wasCancelled isValidation :
  let rep := generateReport a sources wasCancelled isValidation in
  (∀ k locations,
     DuplicateIDs rep !! k = Some locations →
     idLocations a !! k = Some locations ∧ 1 < len locations) ∧
  (∀ k locations,
     DuplicateRows rep !! k = Some locations →
     rowHashes a !! k = Some locations ∧ 1 < len locations).
Proof.
  intros rep. subst rep.
  destruct (generateReport_groups a sources wasCancelled isValidation)
    as [-> ->].
  destruct (tallyID_fold (idLocations a)) as (Hd & _).
  destruct (tallyRow_fold (rowHashes a)) as (Hr & _).
  split; intros k locations.
  - destruct (checkKey a && negb isValidation); simpl.
    + rewrite Hd. by intros [? ?]%map_lookup_filter_Some.
    + by rewrite lookup_empty.
  - destruct (checkRow a && negb isValidation); simpl.
    + rewrite Hr. by intros [? ?]%map_lookup_filter_Some.
    + by rewrite lookup_empty.
Qed.
End ReportGroups.

(** X9. Every location an engine stores, and so every location in the
    duplicate groups of its reports, points at a line that belongs
    there. Take an engine all of whose stored locations name a source of
    a list that can be opened and a line of it that decodes to a record,
    which under a by-key group has the key with a value printing as the
    name of the group, and under a by-hash group has the content hash
    that names the group; a fresh engine is one. After a run over sources
    of that list, each of fewer than 2^63 lines, the engine is again such
    an engine, however the run ended. *)
Theorem Run_locations_point_at_their_rows `{GoRuntime}
    (w : World) (ctx : Context) (a : Analyser)
    (sources allSources : list InputSource) :
  0 ≤ numWorkers a →
  (∀ src, src ∈ sources → src ∈ allSources) →
  (∀ src reader, src ∈ sources → Open w src = Some reader →
                 len (tokens reader) < 2 ^ 63) →
  soundGroups w allSources a →
  ∃ a' rep,
    Run w ctx a sources = Some (a', rep) ∧
    soundGroups w allSources a' ∧
    allLocations (keyedAs w allSources (uniqueKey a)) (DuplicateIDs rep) ∧
    allLocations (hashedAs w allSources) (DuplicateRows rep).
Proof.
  intros Hw Hall Hlen Ha.
  destruct (Run_returns w ctx a sources Hw) as (a' & rep & HRun).
  exists a', rep. split; [done|].
  destruct (Run_settings w ctx a sources a' rep HRun) as (Hkey & _).
  destruct (Run_report w ctx a sources a' rep HRun) as [c ->].
  assert (soundGroups w allSources a') as Ha'.
  { revert HRun. unfold Run.
    destruct (numWorkers a <? 0); [done|].
    destruct (numWorkers a =? 0).
    - by intros [= <- _].
    - pose proof (worker_sound w allSources ctx a sources Hall Hlen Ha) as Hs.
      destruct (worker w ctx a sources) as [ctx1 a1]. by intros [= <- _]. }
  split; [done|]. destruct Ha' as [Hids Hrows].
  destruct (generateReport_groups_from_engine a' sources c (ValidateOnly a'))
    as [Hsub1 Hsub2].
  rewrite Hkey. split.
  - intros k locations loc [Hk _]%Hsub1. by apply Hids.
  - intros k locations loc [Hk _]%Hsub2. by apply Hrows.
Qed.

Lemma Run_locations_point_at_their_rows_witness :
  ∃ a' rep,
    @Run Sample.runtime Sample.threeFiles None
      (New "id" 8 true true false) Sample.threeSources = Some (a', rep) ∧
    @soundGroups Sample.runtime Sample.threeFiles Sample.threeSources a' ∧
    allLocations
      (@keyedAs Sample.runtime Sample.threeFiles Sample.threeSources
         (uniqueKey (New "id" 8 true true false)))
      (DuplicateIDs rep) ∧
    allLocations
      (@hashedAs Sample.runtime Sample.threeFiles Sample.threeSources)
      (DuplicateRows rep).
Proof.
  apply (@Run_locations_point_at_their_rows Sample.runtime).
  - by vm_compute.
  - auto.
  - intros src reader Hsrc Hopen.
    apply elem_of_cons in Hsrc as [->|Hsrc];
      [vm_compute in Hopen; injection Hopen as <-; by vm_compute|].
    apply elem_of_cons in Hsrc as [->|Hsrc];
      [vm_compute in Hopen; injection Hopen as <-; by vm_compute|].
    apply elem_of_cons in Hsrc as [->|Hsrc];
      [vm_compute in Hopen; injection Hopen as <-; by vm_compute|].
    by apply elem_of_nil in Hsrc.
  - split; apply allLocations_empty.
Defined.

(** ** Every row of a source read to its end is filed *)

(** [loc] is among the locations of the group [k]. *)
Definition filed (m : gmap string (list LocationInfo)) (k : string)
    (loc : LocationInfo) : Prop :=
  ∃ locations, m !! k = Some locations ∧ loc ∈ locations.

Lemma filed_append m k loc : filed (appendLocation k loc m) k loc.
Proof.
  unfold filed, appendLocation. rewrite lookup_insert_eq.
  eexists. split; [done|]. apply elem_of_app. right. by left.
Qed.

Lemma filed_append_mono m k loc k' loc' :
  filed m k loc → filed (appendLocation k' loc' m) k loc.
Proof.
  intros (locations & Hk & Hin). unfold filed, appendLocation.
  destruct (decide (k' = k)) as [->|Hne].
  - rewrite lookup_insert_eq, Hk. simpl. eexists. split; [done|].
    apply elem_of_app. by left.
  - rewrite lookup_insert_ne by done. by exists locations.
Qed.

Section Completeness.
Context `{GoRuntime}.

(** A location is filed under a by-key group and another under a by-hash
    group; either may be left out with [None]. *)
Definition holds (byKey byHash : option (string * LocationInfo))
    (b : Analyser) : Prop :=
  (∀ k loc, byKey = Some (k, loc) → filed (idLocations b) k loc) ∧
  (∀ k loc, byHash = Some (k, loc) → filed (rowHashes b) k loc).

Lemma processRow_holds byKey byHash b data filePath n h :
  holds byKey byHash b →
  holds byKey byHash (processRow b data filePath n h).1.
Proof.
  intros [Hk Hh]. rewrite processRow_cases.
  destruct (checkKey b); [|done].
  destruct (data_lookup (uniqueKey b) data) as [v|];
    destruct (ValidateOnly b); try done;
    destruct (checkRow b); simpl; try done; split; simpl;
    intros k loc E; try (apply filed_append_mono); auto.
Qed.

Lemma worker_holds byKey byHash w ctx b sources :
  holds byKey byHash b → holds byKey byHash (worker w ctx b sources).2.
Proof.
  apply (worker_keeps b (holds byKey byHash)); try done.
  intros b' data filePath n h _. apply processRow_holds.
Qed.

Lemma fold_scanNumbered_holds byKey byHash path dir rows b h :
  holds byKey byHash b →
  holds byKey byHash (fold_left (scanNumbered path dir) rows (b, h)).1.
Proof.
  revert b h. induction rows as [|[n line] rows IH]; intros b h Hb; [done|].
  simpl fold_left.
  change (scanNumbered path dir (b, h) (n, line))
    with (scanLine b path dir h n line).
  assert (holds byKey byHash (scanLine b path dir h n line).1) as Hb1.
  { destruct line as [| |t]; simpl; [done|done|].
    destruct (json_Unmarshal t) as [data|]; [|done].
    by apply processRow_holds. }
  destruct (scanLine b path dir h n line) as [b1 h1]. by apply IH.
Qed.

(** What a row asks to be filed under, with the settings of [a]. *)
Definition keyEntry (a : Analyser) (data : JSONData) (loc : LocationInfo)
    : option (string * LocationInfo) :=
  match data_lookup (uniqueKey a) data with
  | Some v => Some (fmt_Sprint_v v, loc)
  | None => None
  end.

Definition hashEntry (a : Analyser) (data : JSONData) (loc : LocationInfo)
    : option (string * LocationInfo) :=
  if checkRow a then Some (contentHash data, loc) else None.

Lemma processRow_files a b data filePath n h :
  sameSettings a b → checkKey a = true → ValidateOnly a = false →
  let loc := {| FilePath := filePath; LineNumber := n |} in
  holds (keyEntry a data loc) (hashEntry a data loc)
    (processRow b data filePath n h).1.
Proof.
  intros (Hkey & _ & Hck & Hcr & Hvo) Hk Hv loc.
  unfold holds, keyEntry, hashEntry. rewrite processRow_cases.
  rewrite <-Hck, <-Hcr, <-Hvo, Hk, Hv, <-Hkey.
  destruct (data_lookup (uniqueKey a) data) as [v|];
    destruct (checkRow a); simpl; split; intros k loc' E;
    try done; injection E as <- <-;
    try apply filed_append; apply filed_append_mono, filed_append.
Qed.

Lemma fold_scanNumbered_files a path dir rows b h n t data :
  sameSettings a b → checkKey a = true → ValidateOnly a = false →
  (n, Json t) ∈ rows → json_Unmarshal t = Some data →
  let loc := {| FilePath := path; LineNumber := n |} in
  holds (keyEntry a data loc) (hashEntry a data loc)
    (fold_left (scanNumbered path dir) rows (b, h)).1.
Proof.
  intros Hs Hk Hv Hin Hdata loc. revert b h Hs.
  induction rows as [|[n' line] rows IH]; intros b h Hs.
  { by apply elem_of_nil in Hin. }
  simpl fold_left.
  change (scanNumbered path dir (b, h) (n', line))
    with (scanLine b path dir h n' line).
  pose proof (scanLine_settings b path dir h n' line) as Hs1.
  apply elem_of_cons in Hin as [[= <- <-]|Hin].
  - simpl. rewrite Hdata.
    pose proof (processRow_files a (countRow dir b) data path n h Hs Hk Hv)
      as Hf.
    destruct (processRow (countRow dir b) data path n h) as [b1 h1].
    by apply fold_scanNumbered_holds.
  - destruct (scanLine b path dir h n' line) as [b1 h1].
    apply IH; [done|by etrans].
Qed.

Lemma processSource_files a w ctx b src reader i t data :
  sameSettings a b → checkKey a = true → ValidateOnly a = false →
  Open w src = Some reader → len (tokens reader) < 2 ^ 63 →
  tokens reader !! i = Some (Json t) → json_Unmarshal t = Some data →
  live (processSource w ctx b src).1 →
  let loc := {| FilePath := Path src; LineNumber := Z.of_nat i + 1 |} in
  holds (keyEntry a data loc) (hashEntry a data loc)
    (processSource w ctx b src).2.
Proof.
  intros Hs Hk Hv Hopen Hlen Hline Hdata Hlive loc.
  revert Hlive. unfold processSource. rewrite Hopen.
  pose proof (scanLoop_live ctx (storeCurrentFolder (Dir src) b) (Path src)
                (Dir src) fnv.New64a 0 (tokens reader)) as Hl.
  rewrite scanLoop_reach in *.
  destruct (scanReach_bound ctx 0 (tokens reader)) as [_ Hall].
  destruct (scanReach ctx 0 (tokens reader)) as [[ctx1 k] cancelled].
  simpl in Hl, Hall.
  assert (live ctx1 → cancelled = false) as Hc by (by intros [_ ?]%Hl).
  intros Hlive.
  assert (cancelled = false) as ->.
  { apply Hc. by destruct cancelled, (scanErr reader). }
  rewrite Hall, firstn_all by done.
  rewrite scanLines_rows by lia.
  assert (holds (keyEntry a data loc) (hashEntry a data loc)
            (fold_left (scanNumbered (Path src) (Dir src))
               (filter isRow (numberedFrom 0 (tokens reader)))
               (storeCurrentFolder (Dir src) b, fnv.New64a)).1) as Hf.
  { apply (fold_scanNumbered_files a) with (t := t); try done.
    apply list_elem_of_filter. split; [done|].
    apply list_elem_of_lookup. exists i.
    rewrite numberedFrom_lookup, Hline. simpl. do 2 f_equal. }
  by destruct (scanErr reader).
Qed.

Lemma worker_files a w ctx b sources src reader i t data :
  sameSettings a b → checkKey a = true → ValidateOnly a = false →
  (∀ s r, s ∈ sources → Open w s = Some r → len (tokens r) < 2 ^ 63) →
  src ∈ sources → Open w src = Some reader →
  tokens reader !! i = Some (Json t) → json_Unmarshal t = Some data →
  live (worker w ctx b sources).1 →
  let loc := {| FilePath := Path src; LineNumber := Z.of_nat i + 1 |} in
  holds (keyEntry a data loc) (hashEntry a data loc)
    (worker w ctx b sources).2.
Proof.
  intros Hs Hk Hv Hlen Hsrc Hopen Hline Hdata Hlive loc.
  revert ctx b Hs Hlive.
  induction sources as [|s sources IH]; intros ctx b Hs.
  { by apply elem_of_nil in Hsrc. }
  simpl. pose proof (poll_live ctx) as Hp.
  destruct (poll ctx) as [[] ctx1]; simpl in Hp.
  { intros Hl. by specialize (Hp Hl). }
  pose proof (processSource_settings w ctx1 b s) as Hs1.
  pose proof (processSource_files a w ctx1 b s) as Hfiles.
  destruct (processSource w ctx1 b s) as [ctx2 b2] eqn:E. simpl in *.
  intros Hlive. apply elem_of_cons in Hsrc as [->|Hsrc].
  - apply worker_holds.
    apply (Hfiles reader i t data); try done.
    + apply (Hlen s); [by left|done].
    + by apply worker_live in Hlive.
  - apply IH; try done.
    + intros s' r Hs'. apply Hlen. by right.
    + by etrans.
Qed.
End Completeness.

(** X10. A full analysis that is not cancelled misses no row. Let an
    engine with the key check on, not validating and with at least one
    worker, run over sources of fewer than 2^63 lines each. If the report
    is not a partial one, then every line of every source of the list
    that opens, if it decodes to a record, is filed with its path and its
    position in the stream: in the by-key group named by the printed
    value of the key when the record has the key, and, with the row check
    on, in the by-hash group named by its content hash. *)
Theorem Run_files_every_row `{GoRuntime}
    (w : World) (ctx : Context) (a : Analyser) (sources : list InputSource) :
  0 < numWorkers a → checkKey a = true → ValidateOnly a = false →
  (∀ src reader, src ∈ sources → Open w src = Some reader →
                 len (tokens reader) < 2 ^ 63) →
  ∃ a' rep,
    Run w ctx a sources = Some (a', rep) ∧
    (SummaryReport.IsPartialReport (Summary rep) = false →
     ∀ src reader (i : nat) t data,
       src ∈ sources → Open w src = Some reader →
       tokens reader !! i = Some (Json t) → json_Unmarshal t = Some data →
       let loc := {| FilePath := Path src; LineNumber := Z.of_nat i + 1 |} in
       (∀ v, data_lookup (uniqueKey a) data = Some v →
             filed (idLocations a') (fmt_Sprint_v v) loc) ∧
       (checkRow a = true → filed (rowHashes a') (contentHash data) loc)).
Proof.
  intros Hw Hk Hv Hlen. unfold Run.
  destruct (Z.ltb_spec (numWorkers a) 0) as [?|_]; [lia|].
  destruct (Z.eqb_spec (numWorkers a) 0) as [?|_]; [lia|].
  pose proof (worker_files a w ctx a sources) as Hfiles.
  destruct (worker w ctx a sources) as [ctx1 a1]. simpl in Hfiles.
  eexists _, _. split; [done|]. rewrite generateReport_partial.
  intros Hlive src reader i t data Hsrc Hopen Hline Hdata. cbv zeta in *.
  destruct (Hfiles src reader i t data) as [Hkey Hhash]; try done.
  split.
  - intros v Hlook. apply Hkey. unfold keyEntry. by rewrite Hlook.
  - intros Hr. apply Hhash. unfold hashEntry. by rewrite Hr.
Qed.

Lemma Run_files_every_row_witness :
  ∃ a' rep,
    @Run Sample.runtime Sample.threeFiles None
      (New "id" 8 true true false) Sample.threeSources = Some (a', rep) ∧
    (SummaryReport.IsPartialReport (Summary rep) = false →
     ∀ src reader (i : nat) t data,
       src ∈ Sample.threeSources → Open Sample.threeFiles src = Some reader →
       tokens reader !! i = Some (Json t) → json_Unmarshal t = Some data →
       let loc := {| FilePath := Path src; LineNumber := Z.of_nat i + 1 |} in
       (∀ v, data_lookup (uniqueKey (New "id" 8 true true false)) data
             = Some v →
             filed (idLocations a') (@fmt_Sprint_v Sample.runtime v) loc) ∧
       (checkRow (New "id" 8 true true false) = true →
        filed (rowHashes a') (@contentHash Sample.runtime data) loc)).
Proof.
  apply (@Run_files_every_row Sample.runtime);
    [by vm_compute|by vm_compute|by vm_compute|].
  intros src reader Hsrc Hopen.
  apply elem_of_cons in Hsrc as [->|Hsrc];
    [vm_compute in Hopen; injection Hopen as <-; by vm_compute|].
  apply elem_of_cons in Hsrc as [->|Hsrc];
    [vm_compute in Hopen; injection Hopen as <-; by vm_compute|].
  apply elem_of_cons in Hsrc as [->|Hsrc];
    [vm_compute in Hopen; injection Hopen as <-; by vm_compute|].
  by apply elem_of_nil in Hsrc.
Defined.

(** ** Discovery *)

Section DiscoveryFacts.
Context `{GoRuntime}.

(** The file of a visit is one that discovery keeps. *)
Definition keptFile (v : Visit) : Prop :=
  visitIsDir v = false ∧ recognised (visitPath v) = true.

Global Instance keptFile_dec v : Decision (keptFile v).
Proof. unfold keptFile. apply _. Defined.

Lemma walkFn_ok st ctx visits acc ctx' sources :
  walkFn st ctx visits acc = (ctx', Ok sources) →
  (∀ v, v ∈ visits → visitFailed v = false) ∧
  ∃ found,
    sources = acc ++ found ∧
    Forall2
      (λ v s, filepath_Abs st (visitPath v) = Some (Path s) ∧
              s = LocalFileSource (Path s) (visitSize v))
      (filter keptFile visits) found.
Proof.
  revert ctx acc. induction visits as [|v visits IH]; intros ctx acc; simpl.
  - intros [= <- <-]. split; [by intros v ?%elem_of_nil|].
    exists []. by rewrite app_nil_r.
  - destruct (poll ctx) as [[] ctx1]; [done|].
    destruct (visitFailed v) eqn:Hfail; [done|].
    destruct (visitIsDir v) eqn:Hdir; simpl.
    + intros Hw. destruct (IH _ _ Hw) as (Hok & found & -> & Hall).
      split.
      * intros v' [->|?]%elem_of_cons; auto.
      * exists found. split; [done|].
        rewrite filter_cons_False; [done|].
        unfold keptFile. rewrite Hdir. by intros [? _].
    + destruct (recognised (visitPath v)) eqn:Hrec.
      * destruct (filepath_Abs st (visitPath v)) as [absPath|] eqn:Habs;
          [|done].
        intros Hw. destruct (IH _ _ Hw) as (Hok & found & -> & Hall).
        split.
        { intros v' [->|?]%elem_of_cons; auto. }
        exists (LocalFileSource absPath (visitSize v) :: found).
        split; [by rewrite <-app_assoc|].
        rewrite filter_cons_True by done. by constructor.
      * intros Hw. destruct (IH _ _ Hw) as (Hok & found & -> & Hall).
        split.
        { intros v' [->|?]%elem_of_cons; auto. }
        exists found. split; [done|].
        rewrite filter_cons_False; [done|].
        unfold keptFile. rewrite Hrec. by intros [_ ?].
Qed.
End DiscoveryFacts.

(** X11. When the discovery of a local directory succeeds, the walk met
    no entry it could not read, and the sources returned are, in the
    order of the walk, one for each entry that is not a directory and
    whose lower-cased path ends in .json, .ndjson or .jsonl, with the
    absolute path of the entry as its path and the size of the entry as
    its size; there is at least one. *)
Theorem discoverLocalFiles_returns_the_recognised_files `{GoRuntime}
    (st : Storage) (ctx ctx' : Context) (dirPath : string)
    (sources : list InputSource) :
  discoverLocalFiles st ctx dirPath = (ctx', Ok sources) →
  sources ≠ [] ∧
  (∀ v, v ∈ walk st dirPath → visitFailed v = false) ∧
  Forall2
    (λ v s, filepath_Abs st (visitPath v) = Some (Path s) ∧
            s = LocalFileSource (Path s) (visitSize v))
    (filter keptFile (walk st dirPath)) sources.
Proof.
  unfold discoverLocalFiles.
  destruct (walkFn st ctx (walk st dirPath) []) as [ctx1 [e|found]] eqn:Hw;
    [done|].
  destruct (Z.eqb_spec (len found) 0) as [?|Hne]; [done|].
  intros [= <- <-].
  destruct (walkFn_ok st ctx _ _ _ _ Hw) as (Hok & found' & -> & Hall).
  split; [|by split].
  intros Heq. rewrite Heq in Hne. by apply Hne.
Qed.

Section DiscoverAllFacts.
Context `{GoRuntime}.

(** A root that [DiscoverAll] does not skip. *)
Definition namesRoot (p : string) : Prop := strings_TrimSpace p ≠ EmptyString.

Global Instance namesRoot_dec p : Decision (namesRoot p).
Proof. unfold namesRoot. apply _. Defined.

(** The sources kept so far and the paths seen so far agree. *)
Definition seenExactly (acc : list InputSource * gmap string bool) : Prop :=
  NoDup (Path <$> acc.1) ∧
  ∀ path, default false (acc.2 !! path) = true ↔ path ∈ Path <$> acc.1.

Lemma addUnique_seen acc s :
  seenExactly acc →
  seenExactly (addUnique acc s) ∧
  (∃ more, (addUnique acc s).1 = acc.1 ++ more ∧ ∀ x, x ∈ more → x = s) ∧
  Path s ∈ Path <$> (addUnique acc s).1.
Proof.
  destruct acc as [us dp]. intros [Hnd Hseen]. unfold addUnique. simpl in *.
  destruct (default false (dp !! Path s)) eqn:E.
  - split; [done|]. split; [|by apply Hseen].
    exists []. split; [by rewrite app_nil_r|]. by intros x ?%elem_of_nil.
  - assert (Path s ∉ Path <$> us) as Hnew.
    { intros Hin. apply Hseen in Hin. congruence. }
    split; [|split].
    + split; simpl.
      * rewrite fmap_app. simpl. apply NoDup_app. split; [done|].
        split; [|apply NoDup_singleton].
        intros x Hx ->%list_elem_of_singleton. done.
      * intros path. rewrite fmap_app, elem_of_app. simpl.
        rewrite list_elem_of_singleton.
        destruct (decide (Path s = path)) as [<-|Hne].
        -- rewrite lookup_insert_eq. simpl. by split; [right|].
        -- rewrite lookup_insert_ne by done. rewrite Hseen.
           split; [by left|]. by intros [?|?].
    + exists [s]. split; [done|]. by intros x ->%list_elem_of_singleton.
    + simpl. rewrite fmap_app, elem_of_app. right. simpl. by left.
Qed.

Lemma fold_addUnique_seen found acc :
  seenExactly acc →
  let acc' := fold_left addUnique found acc in
  seenExactly acc' ∧
  (∃ more, acc'.1 = acc.1 ++ more ∧ ∀ x, x ∈ more → x ∈ found) ∧
  (∀ s, s ∈ found → Path s ∈ Path <$> acc'.1).
Proof.
  revert acc. induction found as [|s found IH]; intros acc Hacc; simpl.
  - split; [done|]. split; [|by intros s ?%elem_of_nil].
    exists []. split; [by rewrite app_nil_r|]. by intros x ?%elem_of_nil.
  - destruct (addUnique_seen acc s Hacc) as (Hacc1 & (m1 & Hm1 & Hs1) & Hin1).
    destruct (IH _ Hacc1) as (Hacc2 & (m2 & Hm2 & Hs2) & Hin2).
    split; [done|]. split.
    + exists (m1 ++ m2). split; [by rewrite Hm2, Hm1, app_assoc|].
      intros x [Hx|Hx]%elem_of_app;
        [rewrite (Hs1 x Hx); by left|right; auto].
    + intros s' [->|Hs']%elem_of_cons; [|by apply Hin2].
      rewrite Hm2, fmap_app, elem_of_app. by left.
Qed.

(** Some root of the list was discovered with the outcome [r]. *)
Definition discoveredAs (st : Storage) (paths : list string)
    (p : string) (r : result (list InputSource)) : Prop :=
  p ∈ paths ∧ namesRoot p ∧
  ∃ ctx ctx', Discover st ctx (strings_TrimSpace p) = (ctx', r).

Lemma discoverEach_ok st ctx paths acc acc' :
  seenExactly acc →
  discoverEach st ctx paths acc = Ok acc' →
  seenExactly acc' ∧
  (∃ more, acc'.1 = acc.1 ++ more ∧
           ∀ s, s ∈ more →
                ∃ p found, discoveredAs st paths p (Ok found) ∧ s ∈ found) ∧
  (∀ p, p ∈ paths → namesRoot p →
        ∃ found, discoveredAs st paths p (Ok found) ∧
                 ∀ s, s ∈ found → Path s ∈ Path <$> acc'.1).
Proof.
  revert ctx acc. induction paths as [|p paths IH]; intros ctx acc Hacc; simpl.
  - intros [= <-]. split; [done|]. split; [|by intros p ?%elem_of_nil].
    exists []. split; [by rewrite app_nil_r|]. by intros s ?%elem_of_nil.
  - destruct (String.eqb_spec (strings_TrimSpace p) EmptyString) as [Hb|Hb].
    + intros Hrest. destruct (IH _ _ Hacc Hrest) as (Hacc' & (m & Hm & Hs) & Hc).
      split; [done|]. split.
      * exists m. split; [done|]. intros s Hin.
        destruct (Hs s Hin) as (q & found & (Hq & Hn & Hd) & Hsf).
        exists q, found. split; [|done]. split; [by right|done].
      * intros q [->|Hq]%elem_of_cons Hn; [done|].
        destruct (Hc q Hq Hn) as (found & (Hq' & Hn' & Hd) & Hsf).
        exists found. split; [|done]. split; [by right|done].
    + destruct (Discover st ctx (strings_TrimSpace p)) as [ctx1 [e|found]] eqn:Hd;
        [done|].
      destruct (fold_addUnique_seen found acc Hacc) as (Hacc1 & (m1 & Hm1 & Hs1) & Hin1).
      intros Hrest.
      destruct (IH _ _ Hacc1 Hrest) as (Hacc' & (m & Hm & Hs) & Hc).
      assert (discoveredAs st (p :: paths) p (Ok found)) as Hp.
      { split; [by left|]. split; [done|]. by exists ctx, ctx1. }
      split; [done|]. split.
      * exists (m1 ++ m). split; [by rewrite Hm, Hm1, app_assoc|].
        intros s [Hin|Hin]%elem_of_app.
        -- exists p, found. auto.
        -- destruct (Hs s Hin) as (q & fq & (Hq & Hn & Hdq) & Hsf).
           exists q, fq. split; [|done]. split; [by right|done].
      * intros q [->|Hq]%elem_of_cons Hn.
        -- exists found. split; [done|]. intros s Hsf.
           rewrite Hm, fmap_app, elem_of_app. left. by apply Hin1.
        -- destruct (Hc q Hq Hn) as (fq & (Hq' & Hn' & Hdq) & Hsf).
           exists fq. split; [|done]. split; [by right|done].
Qed.
End DiscoverAllFacts.

(** X12. The sources that the discovery over several roots returns have
    pairwise different paths, and there is at least one. Each of them was
    found by the discovery of one of the roots, and for every root that
    is not blank the discovery succeeded and the path of each source it
    found is the path of one of the sources returned: overlapping roots
    lose nothing and double nothing. *)
Theorem DiscoverAll_returns_each_path_once `{GoRuntime}
    (st : Storage) (ctx : Context) (paths : list string)
    (sources : list InputSource) :
  DiscoverAll st ctx paths = Ok sources →
  sources ≠ [] ∧
  NoDup (Path <$> sources) ∧
  (∀ s, s ∈ sources →
        ∃ p found, discoveredAs st paths p (Ok found) ∧ s ∈ found) ∧
  (∀ p, p ∈ paths → namesRoot p →
        ∃ found, discoveredAs st paths p (Ok found) ∧
                 ∀ s, s ∈ found → Path s ∈ Path <$> sources).
Proof.
  unfold DiscoverAll.
  destruct (discoverEach st ctx paths ([], ∅)) as [e|[us dp]] eqn:He; [done|].
  destruct (Z.eqb_spec (len us) 0) as [?|Hne]; [done|].
  intros [= <-].
  assert (seenExactly ([], ∅)) as H0.
  { split; [constructor|]. intros path. simpl. rewrite lookup_empty. simpl.
    split; [done|by intros ?%elem_of_nil]. }
  destruct (discoverEach_ok st ctx paths _ _ H0 He)
    as ([Hnd _] & (m & Hm & Hs) & Hc). simpl in *.
  split; [by intros ->|]. split; [done|]. split; [|done].
  intros s Hin. apply Hs. by rewrite Hm in Hin.
Qed.

Section DiscoverAllErrors.
Context `{GoRuntime}.

Lemma discoverEach_err st ctx paths acc e :
  discoverEach st ctx paths acc = Err e →
  ∃ p e', discoveredAs st paths p (Err e') ∧
          e = ErrorInPath (strings_TrimSpace p) e'.
Proof.
  revert ctx acc. induction paths as [|p paths IH]; intros ctx acc; simpl;
    [done|].
  destruct (String.eqb_spec (strings_TrimSpace p) EmptyString) as [Hb|Hb].
  - intros (q & e' & (Hq & Hn & Hd) & ->)%IH.
    exists q, e'. split; [|done]. split; [by right|done].
  - destruct (Discover st ctx (strings_TrimSpace p)) as [ctx1 [e'|found]] eqn:Hd.
    + intros [= <-]. exists p, e'. split; [|done].
      split; [by left|]. split; [done|]. by exists ctx, ctx1.
    + intros (q & e' & (Hq & Hn & Hdq) & ->)%IH.
      exists q, e'. split; [|done]. split; [by right|done].
Qed.

Lemma discoverEach_skips_blank st ctx paths acc :
  discoverEach st ctx paths acc
  = discoverEach st ctx (filter namesRoot paths) acc.
Proof.
  revert ctx acc. induction paths as [|p paths IH]; intros ctx acc; [done|].
  rewrite filter_cons. simpl.
  destruct (String.eqb_spec (strings_TrimSpace p) EmptyString) as [Hb|Hb].
  - rewrite decide_False by (unfold namesRoot; tauto). apply IH.
  - rewrite decide_True by done. simpl.
    destruct (String.eqb_spec (strings_TrimSpace p) EmptyString); [done|].
    destruct (Discover st ctx (strings_TrimSpace p)) as [ctx1 [e'|found]];
      [done|apply IH].
Qed.
End DiscoverAllErrors.

(** X13. When the discovery over several roots fails, either the
    discovery of one root that is not blank failed, and the error names
    that root, trimmed, and carries the root's error; or no root failed
    and none found anything, and the error says that there are no files
    to process. *)
Theorem DiscoverAll_fails_with_a_root_or_with_nothing `{GoRuntime}
    (st : Storage) (ctx : Context) (paths : list string) (e : error) :
  DiscoverAll st ctx paths = Err e →
  (∃ p e', discoveredAs st paths p (Err e') ∧
           e = ErrorInPath (strings_TrimSpace p) e') ∨
  (e = NoProcessableFiles ∧
   ∀ p, p ∈ paths → namesRoot p → discoveredAs st paths p (Ok [])).
Proof.
  unfold DiscoverAll.
  destruct (discoverEach st ctx paths ([], ∅)) as [e0|[us dp]] eqn:He.
  - intros [= <-]. left. by apply (discoverEach_err st ctx paths ([], ∅)).
  - destruct (Z.eqb_spec (len us) 0) as [Hz|?]; [|done].
    intros [= <-]. right. split; [done|].
    assert (us = []) as -> by (by destruct us).
    assert (seenExactly ([], ∅)) as H0.
    { split; [constructor|]. intros path. simpl. rewrite lookup_empty. simpl.
      split; [done|by intros ?%elem_of_nil]. }
    destruct (discoverEach_ok st ctx paths _ _ H0 He) as (_ & _ & Hc).
    intros p Hp Hn. destruct (Hc p Hp Hn) as (found & Hd & Hsf).
    destruct found as [|s found]; [done|].
    assert (s ∈ s :: found) as Hin by (by left).
    specialize (Hsf s Hin). by apply elem_of_nil in Hsf.
Qed.

(** X14. Roots that are blank once trimmed play no part in a discovery:
    it gives what the discovery over the other roots gives. *)
Theorem DiscoverAll_skips_blank_roots `{GoRuntime}
    (st : Storage) (ctx : Context) (paths : list string) :
  DiscoverAll st ctx paths = DiscoverAll st ctx (filter namesRoot paths).
Proof. unfold DiscoverAll. by rewrite discoverEach_skips_blank. Qed.

(** A directory [/data] with a JSON file, a text file and a
    subdirectory [/data/sub] that holds a JSON-lines file; nothing in the
    object store. *)
Module SampleDisk.
Definition inSub : list Visit :=
  [ {| visitPath := "/data/sub"; visitFailed := false; visitIsDir := true;
       visitSize := 4096 |};
    {| visitPath := "/data/sub/B.JSONL"; visitFailed := false;
       visitIsDir := false; visitSize := 7 |} ].

Definition inData : list Visit :=
  [ {| visitPath := "/data"; visitFailed := false; visitIsDir := true;
       visitSize := 4096 |};
    {| visitPath := "/data/a.json"; visitFailed := false;
       visitIsDir := false; visitSize := 11 |};
    {| visitPath := "/data/notes.txt"; visitFailed := false;
       visitIsDir := false; visitSize := 5 |} ] ++ inSub.

Definition storage : Storage :=
  {| os_Stat := λ path,
       if bool_decide (path ∈ ["/data"; "/data/sub"]) then Some true
       else if bool_decide (path ∈ visitPath <$> inData) then Some false
       else None;
     walk := λ path,
       if String.eqb path "/data" then inData
       else if String.eqb path "/data/sub" then inSub else [];
     filepath_Abs := Some;
     gcsObjects := λ path, Err (GCSFailed path) |}.
End SampleDisk.

Lemma discoverLocalFiles_returns_the_recognised_files_witness :
  ∃ sources,
    @discoverLocalFiles Sample.runtime SampleDisk.storage None "/data"
    = (None, Ok sources) ∧
    sources ≠ [] ∧
    (∀ v, v ∈ walk SampleDisk.storage "/data" → visitFailed v = false) ∧
    Forall2
      (λ v s, filepath_Abs SampleDisk.storage (visitPath v) = Some (Path s) ∧
              s = LocalFileSource (Path s) (visitSize v))
      (filter (@keptFile Sample.runtime) (walk SampleDisk.storage "/data"))
      sources.
Proof.
  exists [LocalFileSource "/data/a.json" 11;
          LocalFileSource "/data/sub/B.JSONL" 7].
  assert (@discoverLocalFiles Sample.runtime SampleDisk.storage None "/data"
          = (None, Ok [LocalFileSource "/data/a.json" 11;
                       LocalFileSource "/data/sub/B.JSONL" 7])) as Hd
    by (by vm_compute).
  split; [done|].
  exact (@discoverLocalFiles_returns_the_recognised_files Sample.runtime
           SampleDisk.storage None None "/data" _ Hd).
Defined.

Lemma DiscoverAll_returns_each_path_once_witness :
  ∃ sources,
    @DiscoverAll Sample.runtime SampleDisk.storage None
      ["/data"; " /data/sub "; " "] = Ok sources ∧
    length sources = 2%nat ∧
    NoDup (Path <$> sources).
Proof.
  exists [LocalFileSource "/data/a.json" 11;
          LocalFileSource "/data/sub/B.JSONL" 7].
  assert (@DiscoverAll Sample.runtime SampleDisk.storage None
            ["/data"; " /data/sub "; " "]
          = Ok [LocalFileSource "/data/a.json" 11;
                LocalFileSource "/data/sub/B.JSONL" 7]) as Hd
    by (by vm_compute).
  split; [done|]. split; [done|].
  exact (proj1 (proj2 (@DiscoverAll_returns_each_path_once Sample.runtime
                         SampleDisk.storage None _ _ Hd))).
Defined.

Lemma DiscoverAll_fails_with_a_root_or_with_nothing_witness :
  (∃ p e', @discoveredAs Sample.runtime SampleDisk.storage
             ["/data"; "/missing"] p (Err e') ∧
           ErrorInPath "/missing" InvalidPath
           = ErrorInPath (@strings_TrimSpace Sample.runtime p) e') ∨
  (ErrorInPath "/missing" InvalidPath = NoProcessableFiles ∧
   ∀ p, p ∈ ["/data"; "/missing"] → @namesRoot Sample.runtime p →
        @discoveredAs Sample.runtime SampleDisk.storage
          ["/data"; "/missing"] p (Ok [])).
Proof.
  apply (@DiscoverAll_fails_with_a_root_or_with_nothing Sample.runtime
           SampleDisk.storage None).
  by vm_compute.
Defined.

(** ** Discovery in the object store: [discoverGCSObjects] *)

(** The fields of a [storage.ObjectAttrs] that discovery reads. *)
Module ObjectAttrs.
Record t := {
  Bucket : string;
  Name : string;
  ContentType : string;
  Size : Z;
}.
End ObjectAttrs.

(** What the iterator of [bucket.Objects] yields before [it.Next]
    returns [iterator.Done], or another error when [listingFails]. *)
Record Listing := { objects : list ObjectAttrs.t; listingFails : bool }.

(** The object store as [discoverGCSObjects] sees it: whether
    [storage.NewClient] and [bucket.Attrs] succeed, and the listing of a
    bucket under a prefix. *)
Record ObjectStore := {
  newClient : bool;
  bucketAttrs : string → bool;
  bucketObjects : string → string → Listing;
}.

Inductive gcsError :=
| ClientFailed
| EmptyBucketName (path : string)
| BucketNotFound (bucketName : string)
| IterationFailed (bucketName : string)
| DiscoveryCanceled
| NoJSONObjects (bucketName prefix : string).

(** [s[n:]] *)
Fixpoint dropChars (n : nat) (s : string) : string :=
  match n, s with
  | O, _ => s
  | S n, String _ rest => dropChars n rest
  | S _, EmptyString => EmptyString
  end.

(** [strings.TrimPrefix] *)
Definition TrimPrefix (s pre : string) : string :=
  if HasPrefix s pre then dropChars (String.length pre) s else s.

(** [strings.SplitN(s, sep, 2)] for a separator of one byte: the part
    before the first separator and, if there is one, the part after. *)
Fixpoint splitFirst (sep : ascii) (s : string) : string * option string :=
  match s with
  | EmptyString => (EmptyString, None)
  | String c rest =>
      if Ascii.eqb c sep then (EmptyString, Some rest)
      else let '(before, after) := splitFirst sep rest in
           (String c before, after)
  end.

(** The bucket name and the prefix that [discoverGCSObjects] reads off
    its path. *)
Definition bucketAndPrefix (path : string) : string * string :=
  let trimmedPath := TrimPrefix path "gs://" in
  let '(bucketName, rest) := splitFirst "/" trimmedPath in
  (bucketName, default EmptyString rest).

Definition allowedMimeTypes : list string :=
  [ "application/json"; "application/x-ndjson"; "application/json-seq";
    "application/jsonlines"; "application/jsonlines+json";
    "application/x-jsonlines" ].

(** The loop over the iterator. *)
Fixpoint gcsIterate (ctx : Context) (bucketName : string)
    (rest : list ObjectAttrs.t) (fails : bool) (sources : list InputSource)
    : Context * (gcsError + list InputSource) :=
  match rest with
  | [] =>
      if fails then (ctx, inl (IterationFailed bucketName))
      else (ctx, inr sources)
  | attrs :: rest =>
      let '(done, ctx) := poll ctx in
      if done then (ctx, inl DiscoveryCanceled)
      else if HasSuffix (ObjectAttrs.Name attrs) "/" then
        gcsIterate ctx bucketName rest fails sources
      else if bool_decide (ObjectAttrs.ContentType attrs ∈ allowedMimeTypes)
      then
        gcsIterate ctx bucketName rest fails
          (sources ++ [GCSObjectSource (ObjectAttrs.Bucket attrs)
                         (ObjectAttrs.Name attrs) (ObjectAttrs.Size attrs)])
      else gcsIterate ctx bucketName rest fails sources
  end.

(** [discoverGCSObjects] *)
Definition discoverGCSObjects (store : ObjectStore) (ctx : Context)
    (path : string) : Context * (gcsError + list InputSource) :=
  if negb (newClient store) then (ctx, inl ClientFailed)
  else
    let '(bucketName, pre) := bucketAndPrefix path in
    if String.eqb bucketName EmptyString
    then (ctx, inl (EmptyBucketName path))
    else if negb (bucketAttrs store bucketName)
    then (ctx, inl (BucketNotFound bucketName))
    else
      let listing := bucketObjects store bucketName pre in
      match gcsIterate ctx bucketName (objects listing)
              (listingFails listing) [] with
      | (ctx, inl e) => (ctx, inl e)
      | (ctx, inr sources) =>
          if len sources =? 0
          then (ctx, inl (NoJSONObjects bucketName pre))
          else (ctx, inr sources)
      end.

(** An object that discovery keeps: not a folder marker, and of a JSON
    content type. *)
Definition keptObject (attrs : ObjectAttrs.t) : Prop :=
  HasSuffix (ObjectAttrs.Name attrs) "/" = false ∧
  ObjectAttrs.ContentType attrs ∈ allowedMimeTypes.

Global Instance keptObject_dec attrs : Decision (keptObject attrs).
Proof. unfold keptObject. apply _. Defined.

Definition sourceOfObject (attrs : ObjectAttrs.t) : InputSource :=
  GCSObjectSource (ObjectAttrs.Bucket attrs) (ObjectAttrs.Name attrs)
    (ObjectAttrs.Size attrs).

Lemma gcsIterate_ok ctx bucketName objs fails acc ctx' sources :
  gcsIterate ctx bucketName objs fails acc = (ctx', inr sources) →
  fails = false ∧
  sources = acc ++ (sourceOfObject <$> filter keptObject objs).
Proof.
  revert ctx acc. induction objs as [|attrs objs IH]; intros ctx acc; simpl.
  - destruct fails; [done|]. intros [= <- <-]. by rewrite app_nil_r.
  - destruct (poll ctx) as [[] ctx1]; [done|].
    destruct (HasSuffix (ObjectAttrs.Name attrs) "/") eqn:Hsuf.
    + intros [-> ->]%IH. split; [done|].
      rewrite filter_cons_False; [done|].
      unfold keptObject. rewrite Hsuf. by intros [? _].
    + destruct (decide (ObjectAttrs.ContentType attrs ∈ allowedMimeTypes))
        as [Hin|Hout].
      * rewrite bool_decide_eq_true_2 by done.
        intros [-> ->]%IH. split; [done|].
        rewrite filter_cons_True by done. simpl.
        by rewrite <-app_assoc.
      * rewrite bool_decide_eq_false_2 by done.
        intros [-> ->]%IH. split; [done|].
        rewrite filter_cons_False; [done|]. by intros [_ ?].
Qed.

(** X15. When the discovery of a bucket path succeeds, the path names a
    bucket, the client could be made, the bucket could be read and its
    listing came to its end; the sources returned are, in the order of
    the listing of that bucket under the prefix of the path, one for
    each object whose name does not end in a slash and whose content
    type is one of the six JSON types, and there is at least one. *)
Theorem discoverGCSObjects_returns_the_json_objects
    (store : ObjectStore) (ctx ctx' : Context) (path : string)
    (sources : list InputSource) :
  discoverGCSObjects store ctx path = (ctx', inr sources) →
  let '(bucketName, pre) := bucketAndPrefix path in
  let listing := bucketObjects store bucketName pre in
  sources ≠ [] ∧ bucketName ≠ EmptyString ∧
  newClient store = true ∧ bucketAttrs store bucketName = true ∧
  listingFails listing = false ∧
  sources = sourceOfObject <$> filter keptObject (objects listing).
Proof.
  unfold discoverGCSObjects.
  destruct (newClient store); [|done]. simpl.
  destruct (bucketAndPrefix path) as [bucketName pre].
  destruct (String.eqb_spec bucketName EmptyString) as [?|Hne]; [done|].
  destruct (bucketAttrs store bucketName); [|done]. simpl.
  destruct (gcsIterate ctx bucketName _ _ []) as [ctx1 [e|found]] eqn:Hit;
    [done|].
  destruct (Z.eqb_spec (len found) 0) as [?|Hlen]; [done|].
  intros [= <- <-].
  apply gcsIterate_ok in Hit as [Hfails ->]. simpl in *.
  repeat split; try done.
  intros Heq. rewrite Heq in Hlen. by apply Hlen.
Qed.

Lemma dropChars_app (pre s : string) :
  dropChars (String.length pre) (pre +:+ s) = s.
Proof. induction pre as [|c pre IH]; simpl; [done|]. apply IH. Qed.

Lemma splitFirst_app (sep : ascii) (before after : string) :
  sep ∉ String.list_ascii_of_string before →
  splitFirst sep (before +:+ String sep after) = (before, Some after).
Proof.
  induction before as [|c before IH]; simpl; intros Hsep.
  - by rewrite Ascii.eqb_refl.
  - destruct (Ascii.eqb_spec c sep) as [->|Hne].
    + exfalso. apply Hsep. by left.
    + rewrite IH; [done|]. intros Hin. apply Hsep. by right.
Qed.

Lemma TrimPrefix_gs (s : string) : TrimPrefix ("gs://" +:+ s) "gs://" = s.
Proof.
  unfold TrimPrefix, HasPrefix. simpl.
  by replace (String.prefix EmptyString (EmptyString +:+ s)) with true
    by (by destruct s).
Qed.

(** X16. The path of a bucket object reads back as its bucket and its
    name: for a bucket name without a slash, the bucket and the prefix
    that the discovery of a bucket path reads off the path of an object
    are the bucket and the name of the object. *)
Theorem bucketAndPrefix_of_Path (bucket name : string) (size : Z) :
  "/"%char ∉ String.list_ascii_of_string bucket →
  bucketAndPrefix (Path (GCSObjectSource bucket name size)) = (bucket, name).
Proof.
  intros Hslash. unfold bucketAndPrefix.
  change (Path (GCSObjectSource bucket name size))
    with ("gs://" +:+ (bucket +:+ String "/" name)).
  by rewrite TrimPrefix_gs, splitFirst_app.
Qed.

(** A bucket [logs] with a folder marker, a JSON-lines object and a text
    object under the prefix [2024/]. *)
Module SampleBucket.
Definition listing : Listing :=
  {| objects :=
       [ {| ObjectAttrs.Bucket := "logs"; ObjectAttrs.Name := "2024/";
            ObjectAttrs.ContentType := "application/json";
            ObjectAttrs.Size := 0 |};
         {| ObjectAttrs.Bucket := "logs"; ObjectAttrs.Name := "2024/a.ndjson";
            ObjectAttrs.ContentType := "application/x-ndjson";
            ObjectAttrs.Size := 20 |};
         {| ObjectAttrs.Bucket := "logs"; ObjectAttrs.Name := "2024/readme";
            ObjectAttrs.ContentType := "text/plain";
            ObjectAttrs.Size := 3 |} ];
     listingFails := false |}.

Definition store : ObjectStore :=
  {| newClient := true;
     bucketAttrs := λ bucketName, String.eqb bucketName "logs";
     bucketObjects := λ bucketName pre,
       if String.eqb bucketName "logs" && String.eqb pre "2024/"
       then listing else {| objects := []; listingFails := false |} |}.
End SampleBucket.

Lemma discoverGCSObjects_returns_the_json_objects_witness :
  let sources := [GCSObjectSource "logs" "2024/a.ndjson" 20] in
  let '(bucketName, pre) := bucketAndPrefix "gs://logs/2024/" in
  let listing := bucketObjects SampleBucket.store bucketName pre in
  sources ≠ [] ∧ bucketName ≠ EmptyString ∧
  newClient SampleBucket.store = true ∧
  bucketAttrs SampleBucket.store bucketName = true ∧
  listingFails listing = false ∧
  sources = sourceOfObject <$> filter keptObject (objects listing).
Proof.
  apply (discoverGCSObjects_returns_the_json_objects SampleBucket.store
           None None "gs://logs/2024/").
  by vm_compute.
Defined.

Lemma bucketAndPrefix_of_Path_witness :
  bucketAndPrefix (Path (GCSObjectSource "logs" "2024/a.ndjson" 20))
  = ("logs", "2024/a.ndjson").
Proof.
  apply bucketAndPrefix_of_Path.
  apply (bool_decide_unpack _). by vm_compute.
Defined.

(** ** [report.HumanSize] *)

(** The loop [for n := bytes / unit; n >= unit; n /= unit] of
    [HumanSize], with [div *= unit] and [exp++] as its body, for at most
    [fuel] turns. [None] when the turns do not suffice. *)
Fixpoint humanLoop (fuel : nat) (n div exp : Z) : option (Z * Z) :=
  if 1024 <=? n then
    match fuel with
    | O => None
    | S fuel =>
        humanLoop fuel (Z.quot n 1024) (wrap 64 (div * 1024)) (int_add exp 1)
    end
  else Some (div, exp).

(** What [HumanSize] hands to [fmt.Sprintf]: the bytes alone for the
    format [%d B], or the bytes, the divisor and the letter of the unit
    for [%.1f %ciB]. *)
Inductive HumanSizeArgs :=
| PlainBytes (bytes : Z)
| Scaled (bytes div : Z) (unit : ascii).

(** The string is indexed with [exp]; an index outside it is a run-time
    panic. *)
Inductive HumanSizeOutcome :=
| Printed (args : HumanSizeArgs)
| IndexOutOfRange
| OutOfTurns.

Definition HumanSize (bytes : Z) : HumanSizeOutcome :=
  if bytes <? 1024 then Printed (PlainBytes bytes)
  else
    match humanLoop 64 (Z.quot bytes 1024) 1024 0 with
    | None => OutOfTurns
    | Some (div, exp) =>
        if exp <? 0 then IndexOutOfRange
        else
          match String.get (Z.to_nat exp) "KMGTPE" with
          | Some unit => Printed (Scaled bytes div unit)
          | None => IndexOutOfRange
          end
    end.

Lemma humanLoop_scales fuel n div exp :
  0 ≤ n < 1024 ^ Z.of_nat fuel → 0 < div → div * n < 2 ^ 63 →
  0 ≤ exp → exp + Z.of_nat fuel < 2 ^ 63 →
  ∃ k : nat,
    humanLoop fuel n div exp
    = Some (div * 1024 ^ Z.of_nat k, exp + Z.of_nat k) ∧
    1024 ^ Z.of_nat k ≤ Z.max n 1 ∧ n < 1024 ^ (Z.of_nat k + 1).
Proof.
  revert n div exp. induction fuel as [|fuel IH]; intros n div exp Hn Hd Hdn He Hef.
  - exists 0%nat. simpl in *.
    destruct (Z.leb_spec 1024 n); [lia|].
    rewrite Z.mul_1_r, Z.add_0_r. split; [done|]. lia.
  - cbn [humanLoop]. destruct (Z.leb_spec 1024 n) as [Hbig|Hsmall].
    + assert (0 ≤ n `quot` 1024) by (apply Z.quot_pos; lia).
      assert (1024 * (n `quot` 1024) ≤ n) by (apply Z.mul_quot_le; lia).
      assert (n < 1024 * (n `quot` 1024) + 1024) as Hup.
      { pose proof (Z.quot_rem' n 1024).
        pose proof (Z.rem_bound_pos n 1024). lia. }
      assert (1 ≤ n `quot` 1024) by lia.
      rewrite wrap_small by nia.
      rewrite int_add_small by lia.
      destruct (IH (n `quot` 1024) (div * 1024) (exp + 1)) as (k & -> & Hk1 & Hk2);
        try lia; try nia.
      { rewrite Nat2Z.inj_succ, Z.pow_succ_r in Hn by lia. lia. }
      exists (S k). rewrite !Nat2Z.inj_succ.
      rewrite Z.pow_add_r, Z.pow_1_r in * by lia.
      rewrite !Z.pow_succ_r by lia.
      assert (0 < 1024 ^ Z.of_nat k) by (apply Z.pow_pos_nonneg; lia).
      generalize dependent (1024 ^ Z.of_nat k). intros P ? ? ?.
      split; [f_equal; f_equal; lia|]. split; lia.
    + exists 0%nat. simpl. rewrite Z.mul_1_r, Z.add_0_r. split; [done|]. lia.
Qed.

(** X17. For every size that an [int64] holds, [HumanSize] reaches its
    [Sprintf] call: the loop ends and the index into the unit letters is
    within them. A size below 1024 (a negative one too) is printed in
    bytes. Any other size is printed with the largest power of 1024 that
    does not exceed it as the divisor, so that the quotient is at least 1
    and below 1024, and with the letter of that power: K for
    1024, up to E for 1024^6. *)
Theorem HumanSize_picks_the_unit (bytes : Z) :
  - 2 ^ 63 ≤ bytes < 2 ^ 63 →
  if bytes <? 1024 then HumanSize bytes = Printed (PlainBytes bytes)
  else
    ∃ exp : nat,
      (exp ≤ 5)%nat ∧
      1024 ^ (Z.of_nat exp + 1) ≤ bytes < 1024 ^ (Z.of_nat exp + 2) ∧
      ∃ unit,
        String.get exp "KMGTPE" = Some unit ∧
        HumanSize bytes
        = Printed (Scaled bytes (1024 ^ (Z.of_nat exp + 1)) unit).
Proof.
  intros Hb. unfold HumanSize.
  destruct (Z.ltb_spec bytes 1024) as [?|Hbig]; [done|].
  assert (0 ≤ bytes `quot` 1024) by (apply Z.quot_pos; lia).
  assert (1024 * (bytes `quot` 1024) ≤ bytes) by (apply Z.mul_quot_le; lia).
  assert (bytes < 1024 * (bytes `quot` 1024) + 1024) as Hup.
  { pose proof (Z.quot_rem' bytes 1024).
    pose proof (Z.rem_bound_pos bytes 1024). lia. }
  destruct (humanLoop_scales 64 (bytes `quot` 1024) 1024 0)
    as (k & -> & Hk1 & Hk2); try lia.
  assert (1024 ^ Z.of_nat k ≤ bytes `quot` 1024) as Hk1' by lia.
  assert (k ≤ 5)%nat as Hk5.
  { destruct (decide (k ≤ 5)%nat) as [?|Hgt]; [done|]. exfalso.
    assert (1024 ^ 6 ≤ 1024 ^ Z.of_nat k) by (apply Z.pow_le_mono_r; lia).
    change (1024 ^ 6) with (2 ^ 60) in *. 
    assert (2 ^ 63 = 8 * 2 ^ 60) by done. lia. }
  exists k. split; [done|].
  rewrite Z.pow_add_r, Z.pow_1_r in Hk2 by lia.
  split.
  { rewrite !Z.pow_add_r by lia. change (1024 ^ 1) with 1024.
    change (1024 ^ 2) with (1024 * 1024). nia. }
  rewrite Z.add_0_l, Nat2Z.id.
  destruct (Z.ltb_spec (Z.of_nat k) 0) as [?|_]; [lia|].
  assert (1024 * 1024 ^ Z.of_nat k = 1024 ^ (Z.of_nat k + 1)) as ->.
  { rewrite Z.pow_add_r, Z.pow_1_r by lia. lia. }
  destruct k as [|[|[|[|[|[|k]]]]]]; [eexists; split; [reflexivity|done]..|lia].
Qed.

Lemma HumanSize_picks_the_unit_witness :
  ∃ exp : nat,
    (exp ≤ 5)%nat ∧
    1024 ^ (Z.of_nat exp + 1) ≤ 5000000 < 1024 ^ (Z.of_nat exp + 2) ∧
    ∃ unit,
      String.get exp "KMGTPE" = Some unit ∧
      HumanSize 5000000
      = Printed (Scaled 5000000 (1024 ^ (Z.of_nat exp + 1)) unit).
Proof.
  apply (HumanSize_picks_the_unit 5000000). by vm_compute.
Defined.

(** X18. The by-key groups are named by the printed value of the key,
    not by the value: two records whose values under the key print alike
    are filed in one group, whatever the two values are. *)
Theorem processRow_groups_by_printed_key `{GoRuntime}
    (a : Analyser) (d1 d2 : JSONData) (v1 v2 : JSONValue)
    (path1 path2 : string) (n1 n2 h : Z) :
  checkKey a = true → ValidateOnly a = false →
  data_lookup (uniqueKey a) d1 = Some v1 →
  data_lookup (uniqueKey a) d2 = Some v2 →
  fmt_Sprint_v v1 = fmt_Sprint_v v2 →
  let '(a1, h1) := processRow a d1 path1 n1 h in
  let '(a2, _) := processRow a1 d2 path2 n2 h1 in
  filed (idLocations a2) (fmt_Sprint_v v1)
    {| FilePath := path1; LineNumber := n1 |} ∧
  filed (idLocations a2) (fmt_Sprint_v v1)
    {| FilePath := path2; LineNumber := n2 |}.
Proof.
  intros Hk Hv Hv1 Hv2 Hprint.
  pose proof (processRow_files a a d1 path1 n1 h (reflexivity _) Hk Hv)
    as [Hf1 _].
  pose proof (processRow_settings a d1 path1 n1 h) as Hs1.
  destruct (processRow a d1 path1 n1 h) as [a1 h1]. simpl in *.
  pose proof (processRow_files a a1 d2 path2 n2 h1 Hs1 Hk Hv) as [Hf2 _].
  pose proof (processRow_holds
                (keyEntry a d1 {| FilePath := path1; LineNumber := n1 |}) None
                a1 d2 path2 n2 h1) as Hkeep.
  destruct (processRow a1 d2 path2 n2 h1) as [a2 h2]. simpl in *.
  split.
  - apply Hkeep; [|by unfold keyEntry; rewrite Hv1].
    split; [done|]. by intros k loc [=].
  - rewrite Hprint. apply Hf2. unfold keyEntry. by rewrite Hv2.
Qed.

Lemma processRow_groups_by_printed_key_witness :
  let a := New "id" 8 true false false in
  let d1 : JSONData := Some {[ "id" := JString "true" ]} in
  let d2 : JSONData := Some {[ "id" := JBool true ]} in
  JString "true" ≠ JBool true ∧
  let '(a1, h1) := @processRow Sample.runtime a d1 "/data/a.json" 1 0 in
  let '(a2, _) := @processRow Sample.runtime a1 d2 "/data/b.json" 4 h1 in
  filed (idLocations a2) (@fmt_Sprint_v Sample.runtime (JString "true"))
    {| FilePath := "/data/a.json"; LineNumber := 1 |} ∧
  filed (idLocations a2) (@fmt_Sprint_v Sample.runtime (JString "true"))
    {| FilePath := "/data/b.json"; LineNumber := 4 |}.
Proof.
  intros a d1 d2. split; [done|].
  by apply (@processRow_groups_by_printed_key Sample.runtime a d1 d2
              (JString "true") (JBool true)).
Defined.

(** ** Continuing a cancelled job *)

(** The Continue command of the report screen ([updateReport], case
    ["c"]) for a job that was cancelled and whose engine is kept: the
    engine runs again, under a context of its own, over the unprocessed
    sources of the original list, unless there are none. [None] is the
    panic of [Run]; without a run there is no report. Whether the screen
    shows the report is left to it. *)
Definition continueJob `{GoRuntime} (w : World) (ctx : Context)
    (a : Analyser) (originalSources : list InputSource)
    : option (Analyser * option AnalysisReport) :=
  let unprocessedSources := GetUnprocessedSources a originalSources in
  if 0 <? len unprocessedSources then
    match Run w ctx a unprocessedSources with
    | Some (a', rep) => Some (a', Some rep)
    | None => None
    end
  else Some (a, None).

(** The locations of a group that lie in the source with path [p]. *)
Definition locationsIn (p : string) (m : gmap string (list LocationInfo))
    (k : string) : list LocationInfo :=
  filter (λ loc, FilePath loc = p) (default [] (m !! k)).

Lemma locationsIn_append p k' loc m k :
  FilePath loc ≠ p →
  locationsIn p (appendLocation k' loc m) k = locationsIn p m k.
Proof.
  intros Hne. unfold locationsIn, appendLocation.
  destruct (decide (k' = k)) as [->|Hk].
  - rewrite lookup_insert_eq. simpl.
    rewrite filter_app, filter_cons_False, filter_nil, app_nil_r by done.
    done.
  - by rewrite lookup_insert_ne.
Qed.

Section PreservationFor.
Context `{GoRuntime}.

(** As [Preservation], for a relation that the writes of the engine
    keep only for some sources. *)
Variable a0 : Analyser.
Variable keeps : Analyser → Prop.
Variable onSource : InputSource → Prop.
Hypothesis keeps_store : ∀ b dir, keeps b → keeps (storeCurrentFolder dir b).
Hypothesis keeps_count :
  ∀ b src, onSource src → keeps b → keeps (countRow (Dir src) b).
Hypothesis keeps_mark : ∀ b path, keeps b → keeps (markProcessed path b).
Hypothesis keeps_row :
  ∀ b data src n h,
    onSource src → sameSettings a0 b → keeps b →
    keeps (processRow b data (Path src) n h).1.

Lemma scanLoop_keeps_on ctx b src h n lines :
  onSource src → sameSettings a0 b → keeps b →
  keeps (scanLoop ctx b (Path src) (Dir src) h n lines).1.2.
Proof.
  intros Hp. revert ctx b h n.
  induction lines as [|line lines IH]; intros ctx b h n Hs Hk; simpl; [done|].
  destruct (if Z.rem n 1000 =? 0 then poll ctx else (false, ctx))
    as [[] ctx1]; [done|].
  pose proof (scanLine_settings b (Path src) (Dir src) h (int_add n 1) line)
    as Hs1.
  assert (keeps (scanLine b (Path src) (Dir src) h (int_add n 1) line).1)
    as Hk1.
  { destruct line as [| |t]; simpl; [done|by apply keeps_count|].
    destruct (json_Unmarshal t) as [data|]; [|by apply keeps_count].
    apply keeps_row; [done|done|by apply keeps_count]. }
  destruct (scanLine b (Path src) (Dir src) h (int_add n 1) line) as [b1 h1].
  apply IH; [by etrans|done].
Qed.

Lemma worker_keeps_on w ctx b sources :
  (∀ src, src ∈ sources → onSource src) →
  sameSettings a0 b → keeps b → keeps (worker w ctx b sources).2.
Proof.
  revert ctx b. induction sources as [|src sources IH];
    intros ctx b Hp Hs Hk; simpl; [done|].
  destruct (poll ctx) as [[] ctx1]; [done|].
  pose proof (processSource_settings w ctx1 b src) as Hs1.
  assert (keeps (processSource w ctx1 b src).2) as Hk1.
  { unfold processSource.
    destruct (Open w src) as [reader|]; [|by apply keeps_store].
    pose proof (scanLoop_keeps_on ctx1 (storeCurrentFolder (Dir src) b)
                  src fnv.New64a 0 (tokens reader)) as Hl.
    destruct (scanLoop _ _ _ _ _ _ _) as [[ctx2 b1] cancelled]. simpl in Hl.
    assert (keeps b1) as Hb1.
    { apply Hl; [apply Hp; by left|done|by apply keeps_store]. }
    destruct cancelled, (scanErr reader); simpl; try done.
    by apply keeps_mark. }
  destruct (processSource w ctx1 b src) as [ctx2 b2].
  apply IH; [|by etrans|done]. intros s Hs'. apply Hp. by right.
Qed.

Lemma Run_keeps_on w ctx sources a' rep :
  (∀ src, src ∈ sources → onSource src) →
  keeps a0 → Run w ctx a0 sources = Some (a', rep) → keeps a'.
Proof.
  intros Hp Hk. unfold Run.
  destruct (numWorkers a0 <? 0); [done|].
  destruct (numWorkers a0 =? 0).
  - by intros [= <- _].
  - pose proof (worker_keeps_on w ctx a0 sources Hp (reflexivity _) Hk) as Hk1.
    destruct (worker w ctx a0 sources) as [ctx1 a1]. by intros [= <- _].
Qed.
End PreservationFor.

Section ContinueFacts.
Context `{GoRuntime}.

Lemma Run_other_paths w ctx a sources a' rep p :
  (∀ src, src ∈ sources → Path src ≠ p) →
  Run w ctx a sources = Some (a', rep) →
  ∀ k, locationsIn p (idLocations a') k = locationsIn p (idLocations a) k ∧
       locationsIn p (rowHashes a') k = locationsIn p (rowHashes a) k.
Proof.
  intros Hp.
  apply (Run_keeps_on a
           (λ b, ∀ k,
              locationsIn p (idLocations b) k = locationsIn p (idLocations a) k ∧
              locationsIn p (rowHashes b) k = locationsIn p (rowHashes a) k)
           (λ src, Path src ≠ p)); try done.
  intros b data src n h Hne _ Hb k. destruct (Hb k) as [<- <-].
  rewrite processRow_cases.
  destruct (checkKey b); [|done].
  destruct (data_lookup (uniqueKey b) data) as [v|];
    destruct (ValidateOnly b); try done;
    destruct (checkRow b); simpl; by rewrite ?locationsIn_append.
Qed.

Lemma Run_keeps_marks w ctx a sources a' rep path :
  Run w ctx a sources = Some (a', rep) →
  processedPaths a !! path = Some true →
  processedPaths a' !! path = Some true.
Proof.
  intros HRun. revert path.
  apply (Run_keeps a
           (λ b, ∀ path, processedPaths a !! path = Some true →
                         processedPaths b !! path = Some true))
    with (w := w) (ctx := ctx) (sources := sources) (rep := rep); try done.
  - intros b p Hb path Hp. simpl.
    destruct (decide (p = path)) as [->|Hne];
      [apply lookup_insert_eq|rewrite lookup_insert_ne by done; auto].
  - intros b data filePath n h _ Hb path Hp.
    destruct (processRow_marks b data filePath n h) as [_ <-]. auto.
Qed.

Lemma Run_marks_all w ctx a sources a' rep :
  0 < numWorkers a →
  (∀ s, s ∈ sources →
        ∃ reader, Open w s = Some reader ∧ scanErr reader = false) →
  Run w ctx a sources = Some (a', rep) →
  SummaryReport.IsPartialReport (Summary rep) = false →
  ∀ s, s ∈ sources → processedPaths a' !! Path s = Some true.
Proof.
  intros Hw Hok. unfold Run.
  destruct (Z.ltb_spec (numWorkers a) 0) as [?|_]; [lia|].
  destruct (Z.eqb_spec (numWorkers a) 0) as [?|_]; [lia|].
  pose proof (worker_marks_all w ctx a sources Hok) as Hm.
  destruct (worker w ctx a sources) as [ctx1 a1]. simpl in Hm.
  intros [= <- <-]. rewrite generateReport_partial. done.
Qed.
End ContinueFacts.

(** X19. A run leaves alone what is filed for sources it is not given:
    if no source of the list has the path [p], then in every by-key and
    every by-hash group the locations with the path [p] are after the run
    what they were before it. *)
Theorem Run_leaves_other_sources_alone `{GoRuntime}
    (w : World) (ctx : Context) (a : Analyser) (sources : list InputSource)
    (p : string) :
  0 ≤ numWorkers a →
  (∀ src, src ∈ sources → Path src ≠ p) →
  ∃ a' rep,
    Run w ctx a sources = Some (a', rep) ∧
    ∀ k, locationsIn p (idLocations a') k = locationsIn p (idLocations a) k ∧
         locationsIn p (rowHashes a') k = locationsIn p (rowHashes a) k.
Proof.
  intros Hw Hp. destruct (Run_returns w ctx a sources Hw) as (a' & rep & HRun).
  exists a', rep. split; [done|]. by apply (Run_other_paths w ctx a sources a' rep).
Qed.

Lemma Run_leaves_other_sources_alone_witness :
  ∃ a' rep,
    @Run Sample.runtime Sample.threeFiles None
      (New "id" 8 true true false) Sample.threeSources = Some (a', rep) ∧
    ∀ k,
      locationsIn "/data/z.json" (idLocations a') k
      = locationsIn "/data/z.json"
          (idLocations (New "id" 8 true true false)) k ∧
      locationsIn "/data/z.json" (rowHashes a') k
      = locationsIn "/data/z.json"
          (rowHashes (New "id" 8 true true false)) k.
Proof.
  apply (@Run_leaves_other_sources_alone Sample.runtime); [by vm_compute|].
  intros src Hsrc.
  apply elem_of_cons in Hsrc as [->|Hsrc]; [by vm_compute|].
  apply elem_of_cons in Hsrc as [->|Hsrc]; [by vm_compute|].
  apply elem_of_cons in Hsrc as [->|Hsrc]; [by vm_compute|].
  by apply elem_of_nil in Hsrc.
Defined.

(** X20. Continuing a cancelled job finishes it and leaves alone what
    is filed for the sources that were finished. Let the engine have at least one worker and
    let every source of the original list open and be read to its end
    without a scanner error. Then the Continue step does not panic; the
    locations filed for a source that was marked processed before it are
    untouched by it; and unless its report is a partial one, no source of
    the original list is unprocessed after it. Without a run, none was
    unprocessed before. *)
Theorem continueJob_finishes_without_rereading `{GoRuntime}
    (w : World) (ctx : Context) (a : Analyser)
    (originalSources : list InputSource) :
  0 < numWorkers a →
  (∀ s, s ∈ originalSources →
        ∃ reader, Open w s = Some reader ∧ scanErr reader = false) →
  ∃ a' outcome,
    continueJob w ctx a originalSources = Some (a', outcome) ∧
    (∀ p k, processedPaths a !! p = Some true →
            locationsIn p (idLocations a') k = locationsIn p (idLocations a) k ∧
            locationsIn p (rowHashes a') k = locationsIn p (rowHashes a) k) ∧
    match outcome with
    | Some rep =>
        SummaryReport.IsPartialReport (Summary rep) = false →
        GetUnprocessedSources a' originalSources = []
    | None => a' = a ∧ GetUnprocessedSources a originalSources = []
    end.
Proof.
  intros Hw Hok. unfold continueJob.
  set (rest := GetUnprocessedSources a originalSources).
  assert (∀ s, s ∈ rest → s ∈ originalSources ∧
                          default false (processedPaths a !! Path s) = false)
    as Hrest.
  { intros s [Hun Hin]%list_elem_of_filter. done. }
  destruct (Z.ltb_spec 0 (len rest)) as [Hsome|Hnone].
  - destruct (Run_returns w ctx a rest) as (a' & rep & HRun); [lia|].
    rewrite HRun. exists a', (Some rep). split; [done|]. split.
    + intros p k Hp. apply (Run_other_paths w ctx a rest a' rep); [|done].
      intros src [_ Hun]%Hrest Heq. rewrite Heq in Hun.
      by rewrite Hp in Hun.
    + intros Hfull.
      assert (∀ s, s ∈ rest → processedPaths a' !! Path s = Some true)
        as Hdone.
      { apply (Run_marks_all w ctx a rest a' rep); try done.
        intros s [Hs _]%Hrest. by apply Hok. }
      unfold GetUnprocessedSources. apply elem_of_nil_inv.
      intros s [Hun Hs]%list_elem_of_filter.
      destruct (decide (default false (processedPaths a !! Path s) = false))
        as [Hnot|Hwas].
      * assert (s ∈ rest) as Hin by (by apply list_elem_of_filter).
        by rewrite (Hdone s Hin) in Hun.
      * destruct (processedPaths a !! Path s) as [[]|] eqn:E; try done.
        by rewrite (Run_keeps_marks w ctx a rest a' rep _ HRun E) in Hun.
  - exists a, None. split; [done|]. split; [done|]. split; [done|].
    destruct rest; [done|]. unfold len in Hnone. simpl in Hnone. lia.
Qed.

Lemma continueJob_finishes_without_rereading_witness :
  ∃ a' outcome,
    @continueJob Sample.runtime Sample.threeFiles None
      (markProcessed "/data/a.json" (New "id" 8 true true false))
      Sample.threeSources = Some (a', outcome) ∧
    match outcome with
    | Some rep =>
        SummaryReport.IsPartialReport (Summary rep) = false →
        GetUnprocessedSources a' Sample.threeSources = []
    | None => False
    end.
Proof.
  destruct (@continueJob_finishes_without_rereading Sample.runtime
              Sample.threeFiles None
              (markProcessed "/data/a.json" (New "id" 8 true true false))
              Sample.threeSources) as (a' & outcome & Hc & _ & Hout).
  - by vm_compute.
  - intros s Hs. exists {| tokens := [Sample.idRow "a"]; scanErr := false |}.
    split; [|done].
    apply elem_of_cons in Hs as [->|Hs]; [by vm_compute|].
    apply elem_of_cons in Hs as [->|Hs]; [by vm_compute|].
    apply elem_of_cons in Hs as [->|Hs]; [by vm_compute|].
    by apply elem_of_nil in Hs.
  - exists a', outcome. split; [done|].
    destruct outcome as [rep|]; [done|].
    destruct Hout as [_ Hnone]. by vm_compute in Hnone.
Defined.

(** ** Validation against a full analysis *)

(** Two engines that agree in everything but the groups and the
    choice between validation and analysis. *)
Definition sameCounts (a b : Analyser) : Prop :=
  uniqueKey a = uniqueKey b ∧ checkKey a = checkKey b ∧
  keysFoundPerFolder a = keysFoundPerFolder b ∧
  rowsProcessedPerFolder a = rowsProcessedPerFolder b ∧
  ProcessedFiles a = ProcessedFiles b ∧ TotalRows a = TotalRows b ∧
  CurrentFolder a = CurrentFolder b ∧
  processedPaths a = processedPaths b.

Section TwoEngines.
Context `{GoRuntime}.

Lemma processRow_sameCounts a b data filePath n h1 h2 :
  sameCounts a b →
  sameCounts (processRow a data filePath n h1).1
             (processRow b data filePath n h2).1.
Proof.
  intros (Hu & Hk & Hf & Hr & Hp & Ht & Hc & Hm). rewrite !processRow_cases.
  rewrite <-Hu, <-Hk, <-Hf.
  destruct (checkKey a) eqn:E;
    [|unfold sameCounts; simpl; repeat split; congruence].
  destruct (data_lookup (uniqueKey a) data) as [v|];
    destruct (ValidateOnly a), (ValidateOnly b), (checkRow a), (checkRow b);
    unfold sameCounts; simpl; repeat split; congruence.
Qed.

Lemma scanLine_sameCounts a b path dir h1 h2 n line :
  sameCounts a b →
  sameCounts (scanLine a path dir h1 n line).1
             (scanLine b path dir h2 n line).1.
Proof.
  intros Hab.
  assert (sameCounts (countRow dir a) (countRow dir b)) as Hcount.
  { destruct Hab as (Hu & Hk & Hf & Hr & Hp & Ht & Hc & Hm).
    unfold sameCounts. simpl. by rewrite Hr, Ht. }
  destruct line as [| |t]; simpl; [done|done|].
  destruct (json_Unmarshal t) as [data|]; [|done].
  by apply processRow_sameCounts.
Qed.

Lemma scanLoop_sameCounts ctx a b path dir h1 h2 n lines :
  sameCounts a b →
  (scanLoop ctx a path dir h1 n lines).1.1
  = (scanLoop ctx b path dir h2 n lines).1.1 ∧
  (scanLoop ctx a path dir h1 n lines).2
  = (scanLoop ctx b path dir h2 n lines).2 ∧
  sameCounts (scanLoop ctx a path dir h1 n lines).1.2
             (scanLoop ctx b path dir h2 n lines).1.2.
Proof.
  revert ctx a b h1 h2 n.
  induction lines as [|line lines IH]; intros ctx a b h1 h2 n Hab; simpl;
    [done|].
  destruct (if Z.rem n 1000 =? 0 then poll ctx else (false, ctx))
    as [[] ctx1]; [done|].
  pose proof (scanLine_sameCounts a b path dir h1 h2 (int_add n 1) line Hab)
    as Hline.
  destruct (scanLine a path dir h1 (int_add n 1) line) as [a1 h1'].
  destruct (scanLine b path dir h2 (int_add n 1) line) as [b1 h2'].
  by apply IH.
Qed.

Lemma processSource_sameCounts w ctx a b src :
  sameCounts a b →
  (processSource w ctx a src).1 = (processSource w ctx b src).1 ∧
  sameCounts (processSource w ctx a src).2 (processSource w ctx b src).2.
Proof.
  intros Hab.
  assert (sameCounts (storeCurrentFolder (Dir src) a)
                     (storeCurrentFolder (Dir src) b)) as Hstore.
  { destruct Hab as (Hu & Hk & Hf & Hr & Hp & Ht & Hc & Hm).
    by unfold sameCounts. }
  unfold processSource.
  destruct (Open w src) as [reader|]; [|done].
  pose proof (scanLoop_sameCounts ctx _ _ (Path src) (Dir src)
                fnv.New64a fnv.New64a 0 (tokens reader) Hstore)
    as (Hctx & Hcancel & Hloop).
  destruct (scanLoop ctx (storeCurrentFolder (Dir src) a) _ _ _ _ _)
    as [[ctx1 a1] c1].
  destruct (scanLoop ctx (storeCurrentFolder (Dir src) b) _ _ _ _ _)
    as [[ctx2 b1] c2].
  simpl in *. subst ctx2 c2.
  destruct c1, (scanErr reader); simpl; try done.
  split; [done|].
  destruct Hloop as (Hu & Hk & Hf & Hr & Hp & Ht & Hc & Hm).
  unfold sameCounts. simpl. by rewrite Hp, Hm.
Qed.

Lemma worker_sameCounts w ctx a b sources :
  sameCounts a b →
  (worker w ctx a sources).1 = (worker w ctx b sources).1 ∧
  sameCounts (worker w ctx a sources).2 (worker w ctx b sources).2.
Proof.
  revert ctx a b. induction sources as [|src sources IH];
    intros ctx a b Hab; simpl; [done|].
  destruct (poll ctx) as [[] ctx1]; [done|].
  pose proof (processSource_sameCounts w ctx1 a b src Hab) as [Hctx Hsrc].
  destruct (processSource w ctx1 a src) as [ctx2 a2].
  destruct (processSource w ctx1 b src) as [ctx3 b2].
  simpl in *. subst ctx3. by apply IH.
Qed.

(** The table and what the summary takes from the counters depend on
    the counts alone. *)
Lemma folderStep_sameCounts a b sources acc :
  sameCounts a b →
  fold_left (folderStep a) sources acc = fold_left (folderStep b) sources acc.
Proof.
  intros (Hu & Hk & Hf & Hr & Hp & Ht & Hc & Hm). revert acc.
  induction sources as [|s sources IH]; intros acc; simpl; [done|].
  rewrite <-IH. f_equal. destruct acc as [fd total]. unfold folderStep.
  by rewrite Hf, Hr, Hm.
Qed.

Lemma generateReport_counters a sources wasCancelled isValidation :
  let rep := generateReport a sources wasCancelled isValidation in
  SummaryReport.TotalRowsProcessed (Summary rep) = TotalRows a ∧
  SummaryReport.FilesProcessed (Summary rep) = ProcessedFiles a ∧
  SummaryReport.AverageRowsPerFile (Summary rep)
  = if 0 <? ProcessedFiles a
    then float64_div (TotalRows a) (ProcessedFiles a) else 0%Qc.
Proof.
  unfold generateReport.
  destruct (fold_left (folderStep a) sources (∅, 0)) as [folderDetails total].
  by destruct (map_fold _ _ folderDetails) as [bytes keys].
Qed.

(** A column of the table adds up to the counters it is taken from
    when the table has a row for every folder with a counter. *)
Lemma sumOver_column (f : FolderDetail.t → Z)
    (fd : gmap string FolderDetail.t) :
  ∀ kf : gmap string Z,
    (∀ d, fd !! d = None → kf !! d = None) →
    (∀ d row, fd !! d = Some row → f row = default 0 (kf !! d)) →
    sumOver f fd = sumOver id kf.
Proof.
  induction fd as [|d row fd Hd IH] using map_ind; intros kf Hdom Hrow.
  - rewrite sumOver_empty.
    assert (kf = ∅) as ->; [|by rewrite sumOver_empty].
    apply map_eq. intros d. rewrite lookup_empty. by apply Hdom.
  - rewrite sumOver_insert by done.
    rewrite (Hrow d row) by apply lookup_insert_eq.
    rewrite (IH (delete d kf)).
    + destruct (kf !! d) as [x|] eqn:E; simpl.
      * by rewrite (sumOver_delete id kf d x).
      * by rewrite delete_id.
    + intros d' Hd'. destruct (decide (d' = d)) as [->|Hne].
      * apply lookup_delete_eq.
      * rewrite lookup_delete_ne by done. apply Hdom.
        by rewrite lookup_insert_ne.
    + intros d' row' Hd'. destruct (decide (d' = d)) as [->|Hne].
      * by rewrite Hd in Hd'.
      * rewrite lookup_delete_ne by done. apply Hrow.
        by rewrite lookup_insert_ne.
Qed.

Lemma Dir_of_Path s : Dir s = filepath_Dir (Path s).
Proof. by destruct s. Qed.

(** In an analysing engine every key found is a location filed, up to
    the width of the counters, and only folders of the sources of the
    run have a count. *)
Definition keysFiled (sources : list InputSource) (b : Analyser) : Prop :=
  (∃ k, sumOver id (keysFoundPerFolder b)
        = (if checkKey b then sumOver len (idLocations b) else 0)
          + k * 2 ^ 64) ∧
  ∀ d, keysFoundPerFolder b !! d ≠ None → ∃ s, s ∈ sources ∧ Dir s = d.

Lemma sumOver_appendLocation k loc m :
  sumOver len (appendLocation k loc m) = sumOver len m + 1.
Proof.
  unfold appendLocation. destruct (m !! k) as [locations|] eqn:E; simpl.
  - rewrite (sumOver_insert_Some _ _ _ _ locations) by done.
    rewrite len_app. unfold len. simpl. lia.
  - rewrite sumOver_insert by done. unfold len. simpl. lia.
Qed.

Lemma sumOver_count (kf : gmap string Z) d :
  ∃ j, sumOver id (<[d := int64_add (default 0 (kf !! d)) 1]> kf)
       = sumOver id kf + 1 + j * 2 ^ 64.
Proof.
  destruct (wrap_shift 64 (default 0 (kf !! d) + 1)) as [j Hj]; [lia|].
  exists j. unfold int64_add. rewrite Hj.
  destruct (kf !! d) as [x|] eqn:E; simpl.
  - rewrite (sumOver_insert_Some _ _ _ _ x) by done. unfold id. lia.
  - rewrite sumOver_insert by done. unfold id. lia.
Qed.

Lemma Run_keysFiled w ctx a sources a' rep :
  ValidateOnly a = false →
  keysFiled sources a →
  Run w ctx a sources = Some (a', rep) → keysFiled sources a'.
Proof.
  intros Hfull.
  apply (Run_keeps_on a (keysFiled sources) (λ s, s ∈ sources)); try done.
  intros b data s n h Hs (_ & _ & _ & _ & Hv) [[k Hsum] Hdom].
  set (filePath := Path s). rewrite Hv in Hfull.
  rewrite processRow_cases, Hfull.
  destruct (checkKey b) eqn:Hk;
    [|simpl; split; [exists k; by rewrite Hk|done]].
  destruct (data_lookup (uniqueKey b) data) as [v|].
  - assert (keysFiled sources
              (with_idLocations
                 (appendLocation (fmt_Sprint_v v)
                    {| FilePath := filePath; LineNumber := n |}
                    (idLocations b))
                 (with_keysFoundPerFolder
                    (<[filepath_Dir filePath :=
                         int64_add
                           (default 0
                              (keysFoundPerFolder b !! filepath_Dir filePath))
                           1]> (keysFoundPerFolder b)) b))) as Hfiled.
    { split; simpl.
      - destruct (sumOver_count (keysFoundPerFolder b)
                    (filepath_Dir filePath)) as [j Hj].
        exists (k + j). rewrite Hj, Hsum, Hk, sumOver_appendLocation. lia.
      - intros d Hd.
        destruct (decide (d = filepath_Dir filePath)) as [->|Hne].
        + exists s. split; [done|]. by rewrite Dir_of_Path.
        + rewrite lookup_insert_ne in Hd by done. by apply Hdom. }
    destruct (checkRow b); [|done].
    destruct Hfiled as [Hs' Hd']. split; simpl in *; [|done].
    by rewrite Hk in *.
  - destruct (checkRow b); split; simpl; try done; exists k; by rewrite Hk.
Qed.
End TwoEngines.

(** X21. Validation counts what a full analysis counts. Two fresh
    engines with the same key, workers and checks, one validating and one
    analysing, run over the same sources under the same cancellation,
    give reports with the same number of key occurrences, although the
    validation adds up its per-folder counters and the analysis the
    lengths of its by-key groups. The reports also agree on the rows and
    the files processed, on the average of rows per file, on the
    per-folder table and on being partial. *)
Theorem Run_validation_counts_as_analysis `{GoRuntime}
    (w : World) (ctx : Context) (key : string) (workers : Z)
    (checkKey checkRow : bool) (sources : list InputSource) :
  0 ≤ workers →
  ∃ av repv af repf,
    Run w ctx (New key workers checkKey checkRow true) sources
    = Some (av, repv) ∧
    Run w ctx (New key workers checkKey checkRow false) sources
    = Some (af, repf) ∧
    SummaryReport.TotalKeyOccurrences (Summary repv)
    = SummaryReport.TotalKeyOccurrences (Summary repf) ∧
    SummaryReport.TotalRowsProcessed (Summary repv)
    = SummaryReport.TotalRowsProcessed (Summary repf) ∧
    SummaryReport.FilesProcessed (Summary repv)
    = SummaryReport.FilesProcessed (Summary repf) ∧
    SummaryReport.AverageRowsPerFile (Summary repv)
    = SummaryReport.AverageRowsPerFile (Summary repf) ∧
    SummaryReport.FolderDetails (Summary repv)
    = SummaryReport.FolderDetails (Summary repf) ∧
    SummaryReport.IsPartialReport (Summary repv)
    = SummaryReport.IsPartialReport (Summary repf).
Proof.
  intros Hw.
  set (a0 := New key workers checkKey checkRow true).
  set (b0 := New key workers checkKey checkRow false).
  destruct (Run_returns w ctx a0 sources Hw) as (av & repv & HRunv).
  destruct (Run_returns w ctx b0 sources Hw) as (af & repf & HRunf).
  exists av, repv, af, repf. split; [done|]. split; [done|].
  assert (keysFiled sources af) as [[k Hsum] Hdom].
  { apply (Run_keysFiled w ctx b0 sources af repf); [done| |done].
    split; [|done]. exists 0. simpl. rewrite !sumOver_empty.
    by destruct checkKey. }
  pose proof (Run_settings w ctx b0 sources af repf HRunf)
    as (_ & _ & Hkf & _ & Hvf).
  pose proof (Run_settings w ctx a0 sources av repv HRunv)
    as (_ & _ & _ & _ & Hvv).
  simpl in Hkf, Hvf, Hvv.
  assert (sameCounts a0 b0) as H0 by done.
  revert HRunv HRunf. unfold Run. simpl.
  destruct (Z.ltb_spec workers 0) as [?|_]; [lia|].
  assert ((if workers =? 0 then (ctx, a0) else worker w ctx a0 sources).1
          = (if workers =? 0 then (ctx, b0) else worker w ctx b0 sources).1 ∧
          sameCounts
            (if workers =? 0 then (ctx, a0) else worker w ctx a0 sources).2
            (if workers =? 0 then (ctx, b0) else worker w ctx b0 sources).2)
    as [Hctx Hsame].
  { destruct (workers =? 0); [done|]. by apply worker_sameCounts. }
  destruct (if workers =? 0 then (ctx, a0) else worker w ctx a0 sources)
    as [ctx1 a1].
  destruct (if workers =? 0 then (ctx, b0) else worker w ctx b0 sources)
    as [ctx2 b1].
  simpl in Hctx, Hsame. subst ctx2.
  intros [= <- <-] [= <- <-]. rewrite <-Hvf, <-Hvv.
  pose proof Hsame as (Hu & Hk & Hf & Hr & Hp & Ht & Hc & Hm).
  destruct (generateReport_folders a1 sources (poll ctx1).1 true)
    as (Hfdv & _ & _ & Hkeys).
  destruct (generateReport_folders b1 sources (poll ctx1).1 false)
    as (Hfdf & _ & _ & _).
  destruct (generateReport_tallies b1 sources (poll ctx1).1 false)
    as (_ & _ & Hids).
  destruct (generateReport_counters a1 sources (poll ctx1).1 true)
    as (-> & -> & ->).
  destruct (generateReport_counters b1 sources (poll ctx1).1 false)
    as (-> & -> & ->).
  rewrite !generateReport_partial, Hkeys, Hids, Hfdv, Hfdf by done.
  rewrite (folderStep_sameCounts a1 b1 sources _ Hsame), Hp, Ht.
  split; [|done].
  pose proof (folderStep_fold b1 sources) as Hfold.
  destruct (fold_left (folderStep b1) sources (∅, 0)) as [fd total].
  destruct Hfold as [_ Hfd]. simpl.
  rewrite (sumOver_column FolderDetail.KeysFound fd (keysFoundPerFolder b1)).
  - rewrite Hsum, wrap_shifted by lia. rewrite <-Hkf. simpl.
    destruct checkKey; simpl; [|done].
    by destruct (tallyID_fold (idLocations b1)) as (_ & -> & _).
  - intros d. rewrite Hfd.
    destruct (decide (inFolder d sources = [])) as [Hnone|]; [|done].
    intros _. destruct (keysFoundPerFolder b1 !! d) eqn:E; [|done].
    destruct (Hdom d) as (s & Hs & Hdir); [by rewrite E|].
    assert (s ∈ inFolder d sources) as Hin
      by (by apply list_elem_of_filter).
    rewrite Hnone in Hin. by apply elem_of_nil in Hin.
  - intros d row. rewrite Hfd.
    destruct (decide (inFolder d sources = [])); [done|]. by intros [= <-].
Qed.

Lemma Run_validation_counts_as_analysis_witness :
  ∃ av repv af repf,
    @Run Sample.runtime Sample.threeFiles (Some 2%nat)
      (New "id" 8 true true true) Sample.threeSources = Some (av, repv) ∧
    @Run Sample.runtime Sample.threeFiles (Some 2%nat)
      (New "id" 8 true true false) Sample.threeSources = Some (af, repf) ∧
    SummaryReport.TotalKeyOccurrences (Summary repv)
    = SummaryReport.TotalKeyOccurrences (Summary repf) ∧
    SummaryReport.TotalRowsProcessed (Summary repv)
    = SummaryReport.TotalRowsProcessed (Summary repf) ∧
    SummaryReport.FilesProcessed (Summary repv)
    = SummaryReport.FilesProcessed (Summary repf) ∧
    SummaryReport.AverageRowsPerFile (Summary repv)
    = SummaryReport.AverageRowsPerFile (Summary repf) ∧
    SummaryReport.FolderDetails (Summary repv)
    = SummaryReport.FolderDetails (Summary repf) ∧
    SummaryReport.IsPartialReport (Summary repv)
    = SummaryReport.IsPartialReport (Summary repf).
Proof.
  apply (@Run_validation_counts_as_analysis Sample.runtime). by vm_compute.
Defined.

(** ** The counters of rows *)

(** The per-folder counters of rows add up to the counter of all rows,
    up to the width of the counters, and only folders of the sources of
    the run have a counter. *)
Definition rowsTallied `{GoRuntime} (sources : list InputSource)
    (b : Analyser) : Prop :=
  (∃ k, sumOver id (rowsProcessedPerFolder b) = TotalRows b + k * 2 ^ 64) ∧
  wrap 64 (TotalRows b) = TotalRows b ∧
  ∀ d, rowsProcessedPerFolder b !! d ≠ None → ∃ s, s ∈ sources ∧ Dir s = d.

Lemma wrap_wrap bits x : 0 < bits → wrap bits (wrap bits x) = wrap bits x.
Proof. intros Hb. apply wrap_mod; [done|]. by apply wrap_wrap_mod. Qed.

Section RowCounters.
Context `{GoRuntime}.

Lemma countRow_rowsTallied sources b s :
  s ∈ sources → rowsTallied sources b →
  rowsTallied sources (countRow (Dir s) b).
Proof.
  intros Hs ([k Hsum] & Hrange & Hdom). split; [|split]; simpl.
  - destruct (sumOver_count (rowsProcessedPerFolder b) (Dir s)) as [j Hj].
    destruct (wrap_shift 64 (TotalRows b + 1)) as [i Hi]; [lia|].
    exists (k + j - i). rewrite Hj. unfold int64_add. rewrite Hi, Hsum. lia.
  - unfold int64_add. by rewrite wrap_wrap.
  - intros d Hd. destruct (decide (d = Dir s)) as [->|Hne].
    + by exists s.
    + rewrite lookup_insert_ne in Hd by done. by apply Hdom.
Qed.

Lemma Run_rowsTallied w ctx a sources a' rep :
  rowsTallied sources a →
  Run w ctx a sources = Some (a', rep) → rowsTallied sources a'.
Proof.
  apply (Run_keeps_on a (rowsTallied sources) (λ s, s ∈ sources)); try done.
  - intros b s Hs Hb. by apply countRow_rowsTallied.
  - intros b data s n h _ _ Hb.
    destruct (processRow_rowCounts b data (Path s) n h) as [Ht Hr].
    unfold rowsTallied. by rewrite <-Ht, <-Hr.
Qed.
End RowCounters.

(** X22. In the report of a first run the rows processed of the summary
    are what the rows processed of the per-folder table add up to, as a
    64-bit integer, however the run ended and whatever the engine
    checks: every row counted is counted for the folder of a source of
    the run, so the table misses none. *)
Theorem Run_rows_add_up `{GoRuntime}
    (w : World) (ctx : Context) (key : string) (workers : Z)
    (checkKey checkRow validateOnly : bool) (sources : list InputSource) :
  0 ≤ workers →
  ∃ a' rep,
    Run w ctx (New key workers checkKey checkRow validateOnly) sources
    = Some (a', rep) ∧
    SummaryReport.TotalRowsProcessed (Summary rep)
    = wrap 64 (sumOver FolderDetail.RowsProcessed
                 (SummaryReport.FolderDetails (Summary rep))).
Proof.
  intros Hw. set (a := New key workers checkKey checkRow validateOnly).
  destruct (Run_returns w ctx a sources Hw) as (a' & rep & HRun).
  exists a', rep. split; [done|].
  assert (rowsTallied sources a') as ([k Hsum] & Hrange & Hdom).
  { apply (Run_rowsTallied w ctx a sources a' rep); [|done].
    split; [|done]. exists 0. simpl. by rewrite sumOver_empty. }
  destruct (Run_report w ctx a sources a' rep HRun) as [wasCancelled ->].
  destruct (generateReport_counters a' sources wasCancelled (ValidateOnly a'))
    as (-> & _).
  destruct (generateReport_folders a' sources wasCancelled (ValidateOnly a'))
    as (-> & _).
  pose proof (folderStep_fold a' sources) as Hfold.
  destruct (fold_left (folderStep a') sources (∅, 0)) as [fd total].
  destruct Hfold as [_ Hfd]. simpl.
  rewrite (sumOver_column FolderDetail.RowsProcessed fd
             (rowsProcessedPerFolder a')).
  - by rewrite Hsum, wrap_shifted by lia.
  - intros d. rewrite Hfd.
    destruct (decide (inFolder d sources = [])) as [Hnone|]; [|done].
    intros _. destruct (rowsProcessedPerFolder a' !! d) eqn:E; [|done].
    destruct (Hdom d) as (s & Hs & Hdir); [by rewrite E|].
    assert (s ∈ inFolder d sources) as Hin
      by (by apply list_elem_of_filter).
    rewrite Hnone in Hin. by apply elem_of_nil in Hin.
  - intros d row. rewrite Hfd.
    destruct (decide (inFolder d sources = [])); [done|]. by intros [= <-].
Qed.

Lemma Run_rows_add_up_witness :
  ∃ a' rep,
    @Run Sample.runtime Sample.threeFiles (Some 2%nat)
      (New "id" 8 true true false) Sample.threeSources = Some (a', rep) ∧
    SummaryReport.TotalRowsProcessed (Summary rep)
    = wrap 64 (sumOver FolderDetail.RowsProcessed
                 (SummaryReport.FolderDetails (Summary rep))).
Proof.
  apply (@Run_rows_add_up Sample.runtime). by vm_compute.
Defined.

(** ** The counter of processed files *)

(** The counter of processed files is the number of marks, as a 32-bit
    integer, and every mark is [true] and is the path of a source of
    [done]. *)
Definition marksCounted (done : list InputSource) (b : Analyser) : Prop :=
  ProcessedFiles b = wrap 32 (Z.of_nat (size (processedPaths b))) ∧
  ∀ p v, processedPaths b !! p = Some v →
         v = true ∧ ∃ s, s ∈ done ∧ Path s = p.

Lemma marksCounted_mono done done' b :
  (∀ s, s ∈ done → s ∈ done') → marksCounted done b → marksCounted done' b.
Proof.
  intros Hsub [Hcount Hmarks]. split; [done|].
  intros p v Hp. destruct (Hmarks p v Hp) as (-> & s & Hs & Hpath).
  split; [done|]. exists s. auto.
Qed.

Lemma filter_ext_in {A} (P Q : A → Prop) `{∀ x, Decision (P x)}
    `{∀ x, Decision (Q x)} (l : list A) :
  (∀ x, x ∈ l → P x ↔ Q x) → filter P l = filter Q l.
Proof.
  induction l as [|x l IH]; intros HPQ; [done|].
  rewrite !filter_cons.
  assert (P x ↔ Q x) as Hx by (apply HPQ; by left).
  rewrite IH by (intros y Hy; apply HPQ; by right).
  destruct (decide (P x)), (decide (Q x)); tauto.
Qed.

(** Of sources with pairwise different paths, as many are marked as
    there are marks, when every mark is [true] and is the path of one of
    them. *)
Lemma marked_count (l : list InputSource) :
  ∀ m : gmap string bool,
    NoDup (Path <$> l) →
    (∀ p v, m !! p = Some v → v = true ∧ ∃ s, s ∈ l ∧ Path s = p) →
    length (filter (λ s, default false (m !! Path s) = true) l) = size m.
Proof.
  induction l as [|s l IH]; intros m Hnodup Hmarks.
  - assert (m = ∅) as ->; [|done].
    apply map_eq. intros p. rewrite lookup_empty.
    destruct (m !! p) as [v|] eqn:E; [|done].
    destruct (Hmarks p v E) as (_ & s & Hs & _). by apply elem_of_nil in Hs.
  - rewrite fmap_cons in Hnodup. apply NoDup_cons in Hnodup as [Hfresh Hnodup].
    rewrite filter_cons.
    destruct (m !! Path s) as [v|] eqn:E.
    + destruct (Hmarks _ _ E) as [-> _].
      rewrite decide_True by done. simpl.
      assert (size m = S (size (delete (Path s) m))) as ->.
      { rewrite <-(insert_delete_id m (Path s) true) at 1 by done.
        by rewrite map_size_insert_None by apply lookup_delete_eq. }
      f_equal. rewrite <-(IH (delete (Path s) m)); [|done|].
      * f_equal. apply filter_ext_in. intros s' Hs'.
        rewrite lookup_delete_ne; [done|].
        intros Heq. apply Hfresh. rewrite Heq.
        by apply list_elem_of_fmap_2.
      * intros p v Hp. apply lookup_delete_Some in Hp as [Hne Hp].
        destruct (Hmarks p v Hp) as (-> & s' & Hs' & Hpath).
        split; [done|]. exists s'. split; [|done].
        apply elem_of_cons in Hs' as [->|Hs']; [done|done].
    + rewrite decide_False by done. apply IH; [done|].
      intros p v Hp. destruct (Hmarks p v Hp) as (-> & s' & Hs' & Hpath).
      split; [done|]. exists s'. split; [|done].
      apply elem_of_cons in Hs' as [->|Hs']; [|done].
      rewrite Hpath, Hp in E. done.
Qed.

Section FileCounter.
Context `{GoRuntime}.

Lemma processSource_marksCounted w ctx b done src :
  Path src ∉ Path <$> done →
  marksCounted done b →
  marksCounted (done ++ [src]) (processSource w ctx b src).2.
Proof.
  intros Hfresh Hb.
  assert (marksCounted (done ++ [src]) b) as Hb'.
  { apply (marksCounted_mono done); [|done].
    intros s Hs. apply elem_of_app. by left. }
  unfold processSource. destruct (Open w src) as [reader|]; [|done].
  pose proof (scanLoop_marks ctx (storeCurrentFolder (Dir src) b) (Path src)
                (Dir src) fnv.New64a 0 (tokens reader)) as [Hfiles Hpaths].
  destruct (scanLoop _ _ _ _ _ _ _) as [[ctx1 b1] cancelled].
  simpl in Hfiles, Hpaths.
  assert (marksCounted (done ++ [src]) b1) as Hb1.
  { unfold marksCounted. by rewrite <-Hfiles, <-Hpaths. }
  destruct cancelled, (scanErr reader); simpl; try done.
  destruct Hb as [Hcount Hmarks]. split; simpl.
  - rewrite <-Hfiles, <-Hpaths, Hcount.
    assert (processedPaths b !! Path src = None) as Hnone.
    { destruct (processedPaths b !! Path src) as [v|] eqn:E; [|done].
      destruct (Hmarks _ _ E) as (_ & s & Hs & Hpath).
      destruct Hfresh. rewrite <-Hpath. by apply list_elem_of_fmap_2. }
    rewrite map_size_insert_None by done.
    unfold int32_add. rewrite wrap_add_l by lia. f_equal. lia.
  - intros p v. rewrite <-Hpaths.
    destruct (decide (p = Path src)) as [->|Hne].
    + rewrite lookup_insert_eq. intros [= <-]. split; [done|].
      exists src. split; [|done]. apply elem_of_app. right. by left.
    + rewrite lookup_insert_ne by done. intros Hp.
      destruct (Hmarks p v Hp) as (-> & s & Hs & Hpath).
      split; [done|]. exists s. split; [|done]. apply elem_of_app. by left.
Qed.

Lemma worker_marksCounted w ctx b done rest :
  NoDup (Path <$> (done ++ rest)) →
  marksCounted done b →
  marksCounted (done ++ rest) (worker w ctx b rest).2.
Proof.
  revert ctx b done. induction rest as [|src rest IH];
    intros ctx b done Hnodup Hb; simpl.
  - by rewrite app_nil_r.
  - assert (marksCounted (done ++ src :: rest) b) as Hb'.
    { apply (marksCounted_mono done); [|done].
      intros s Hs. apply elem_of_app. by left. }
    destruct (poll ctx) as [[] ctx1]; [done|].
    assert (Path src ∉ Path <$> done) as Hfresh.
    { rewrite fmap_app, fmap_cons in Hnodup.
      apply NoDup_app in Hnodup as (_ & Hdisj & _).
      intros Hin. apply (Hdisj _ Hin). by left. }
    pose proof (processSource_marksCounted w ctx1 b done src Hfresh Hb) as Hs.
    destruct (processSource w ctx1 b src) as [ctx2 b2].
    rewrite cons_middle, app_assoc. apply IH; [|done].
    by rewrite <-app_assoc, <-cons_middle.
Qed.

Lemma folderStep_files a sources :
  ∃ k,
    sumOver FolderDetail.FilesProcessed
      (fold_left (folderStep a) sources (∅, 0)).1
    = len (filter (marked a) sources) + k * 2 ^ 64.
Proof.
  induction sources as [|s sources IH] using rev_ind.
  - exists 0. simpl. by rewrite sumOver_empty.
  - rewrite fold_left_app. simpl.
    destruct (fold_left (folderStep a) sources (∅, 0)) as [fd total].
    destruct IH as [k IH]. simpl in *.
    rewrite filter_app, len_app, filter_cons, filter_nil.
    destruct (fd !! Dir s) as [row|] eqn:Hrow.
    + rewrite (sumOver_insert_Some _ _ _ _ row) by done. simpl. rewrite IH.
      destruct (decide (marked a s)) as [Hm|Hm];
        [unfold marked in Hm; rewrite Hm
        |apply not_true_is_false in Hm; rewrite Hm].
      * destruct (wrap_shift 64 (FolderDetail.FilesProcessed row + 1))
          as [j Hj]; [lia|].
        unfold int_add. rewrite Hj. exists (k + j). unfold len. simpl. lia.
      * exists k. unfold len. simpl. lia.
    + rewrite sumOver_insert by done. simpl. rewrite IH.
      destruct (decide (marked a s)) as [Hm|Hm];
        [unfold marked in Hm; rewrite Hm
        |apply not_true_is_false in Hm; rewrite Hm].
      * destruct (wrap_shift 64 (0 + 1)) as [j Hj]; [lia|].
        unfold int_add. rewrite Hj. exists (k + j). unfold len. simpl. lia.
      * exists k. unfold len. simpl. lia.
Qed.
End FileCounter.

(** X23. In the report of a first run over sources with pairwise
    different paths, fewer than 2^31 of them, the files processed of the
    summary are the sources of the list that are marked processed: the
    counter and the processed-set agree. So the number is what the files
    processed of the per-folder table add up to, and it is at most the
    total number of files, however the run ended. *)
Theorem Run_files_processed_are_the_marked `{GoRuntime}
    (w : World) (ctx : Context) (key : string) (workers : Z)
    (checkKey checkRow validateOnly : bool) (sources : list InputSource) :
  0 ≤ workers →
  NoDup (Path <$> sources) →
  len sources < 2 ^ 31 →
  ∃ a' rep,
    Run w ctx (New key workers checkKey checkRow validateOnly) sources
    = Some (a', rep) ∧
    SummaryReport.FilesProcessed (Summary rep)
    = len (filter (marked a') sources) ∧
    SummaryReport.FilesProcessed (Summary rep)
    = wrap 64 (sumOver FolderDetail.FilesProcessed
                 (SummaryReport.FolderDetails (Summary rep))) ∧
    0 ≤ SummaryReport.FilesProcessed (Summary rep)
      ≤ SummaryReport.TotalFiles (Summary rep).
Proof.
  intros Hw Hnodup Hlen.
  set (a := New key workers checkKey checkRow validateOnly).
  destruct (Run_returns w ctx a sources Hw) as (a' & rep & HRun).
  exists a', rep. split; [done|].
  assert (marksCounted sources a') as [Hcount Hmarks].
  { assert (marksCounted [] a) as Ha.
    { split; [done|]. intros p v Hp. unfold a in Hp. simpl in Hp.
      by rewrite lookup_empty in Hp. }
    revert HRun. unfold Run.
    destruct (numWorkers a <? 0); [done|].
    destruct (numWorkers a =? 0).
    - intros [= <- _]. apply (marksCounted_mono []); [|done].
      intros s Hs. by apply elem_of_nil in Hs.
    - pose proof (worker_marksCounted w ctx a [] sources Hnodup Ha) as Hwork.
      destruct (worker w ctx a sources) as [ctx1 a1]. by intros [= <- _]. }
  pose proof (marked_count sources (processedPaths a') Hnodup Hmarks) as Hsize.
  fold (marked a') in Hsize.
  pose proof (len_filter_le (marked a') sources) as Hle.
  assert (ProcessedFiles a' = len (filter (marked a') sources)) as Hfiles.
  { rewrite Hcount, <-Hsize. apply wrap_small; [lia|]. unfold len in *. lia. }
  destruct (Run_report w ctx a sources a' rep HRun) as [wasCancelled ->].
  destruct (generateReport_counters a' sources wasCancelled (ValidateOnly a'))
    as (_ & -> & _).
  destruct (generateReport_folders a' sources wasCancelled (ValidateOnly a'))
    as (-> & _).
  destruct (folderStep_files a' sources) as [k ->].
  rewrite wrap_shifted, wrap_small by lia.
  split; [done|]. split; [done|].
  unfold generateReport.
  destruct (fold_left (folderStep a') sources (∅, 0)) as [fd total].
  destruct (map_fold _ _ fd) as [bytes keys]. simpl. lia.
Qed.

Lemma Run_files_processed_are_the_marked_witness :
  ∃ a' rep,
    @Run Sample.runtime Sample.threeFiles (Some 2%nat)
      (New "id" 8 true true false) Sample.threeSources = Some (a', rep) ∧
    SummaryReport.FilesProcessed (Summary rep)
    = len (filter (marked a') Sample.threeSources) ∧
    SummaryReport.FilesProcessed (Summary rep)
    = wrap 64 (sumOver FolderDetail.FilesProcessed
                 (SummaryReport.FolderDetails (Summary rep))) ∧
    0 ≤ SummaryReport.FilesProcessed (Summary rep)
      ≤ SummaryReport.TotalFiles (Summary rep).
Proof.
  apply (@Run_files_processed_are_the_marked Sample.runtime).
  - by vm_compute.
  - apply (bool_decide_unpack _). by vm_compute.
  - by vm_compute.
Defined.

(** ** Purging duplicates (the terminal interface) *)

(** [recordsToDelete], a [map[string]map[int]bool], holds the line
    numbers to delete, per file. [recordsToDelete[path][n]]: a missing
    map or entry reads false. *)
Definition toDelete (m : gmap string (gmap Z bool)) (path : string) (n : Z) : bool :=
  default false (default ∅ (m !! path) !! n).

(** [m.recordsToDelete[loc.FilePath][loc.LineNumber] = true], the map of
    the file being made first when there is none. *)
Definition markRecord (loc : LocationInfo) (m : gmap string (gmap Z bool))
    : gmap string (gmap Z bool) :=
  <[FilePath loc := <[LineNumber loc := true]> (default ∅ (m !! FilePath loc))]>
    m.

(** The loop of the case ["enter"] of [updatePurgeSelection] over the
    locations of a group; [i] is the index of the first of
    [locations]. *)
Fixpoint markOthers (purgeSelectionCursor i : Z)
    (locations : list LocationInfo) (m : gmap string (gmap Z bool)) : gmap string (gmap Z bool) :=
  match locations with
  | [] => m
  | loc :: rest =>
      markOthers purgeSelectionCursor (i + 1) rest
        (if i =? purgeSelectionCursor then m else markRecord loc m)
  end.

(** [purgeResultMsg] without its error. *)
Record purgeResultMsg := { filesModified : Z; recordsDeleted : Z }.

Definition newline : string := String "010"%char EmptyString.

(** The loop [for scanner.Scan() { ... }] of [performPurgeCmd], from
    the token about to be read; [lineNumber] counts the tokens read so
    far. The two builders and [result.recordsDeleted] are handed
    back. *)
Fixpoint purgeScan (lineNumbersToDelete : gmap Z bool) (lineNumber : Z)
    (tokens : list string) (newContent backupContent : string)
    (recordsDeleted : Z) : string * string * Z :=
  match tokens with
  | [] => (newContent, backupContent, recordsDeleted)
  | text :: rest =>
      let lineNumber := int_add lineNumber 1 in
      if default false (lineNumbersToDelete !! lineNumber)
      then purgeScan lineNumbersToDelete lineNumber rest newContent
             (backupContent +:+ (text +:+ newline)) (int_add recordsDeleted 1)
      else purgeScan lineNumbersToDelete lineNumber rest
             (newContent +:+ (text +:+ newline)) backupContent recordsDeleted
  end.

(** What [os.Open] and the scan of a file give: the tokens up to the
    point where [scanner.Scan] returns false, and whether [scanner.Err]
    is then non-nil. *)
Record TextFile := { textTokens : list string; textScanErr : bool }.

(** What one turn of the loop over [recordsToDelete] meets: the file
    opened or not, and whether each [os.WriteFile] it comes to
    succeeds. *)
Record PurgeTurn := {
  opened : option TextFile;
  backupWritten : bool;
  originalWritten : bool;
}.

(** A call of [os.WriteFile] and whether it returned nil. *)
Record Write := { writeName : string; writeData : string; writeOK : bool }.

Section PurgeFile.
(** [filepath.Base] and [filepath.Join] of two elements. *)
Variable filepath_Base : string → string.
Variable filepath_Join : string → string → string.

Definition backupPathOf (filePath : string) : string :=
  filepath_Join "deleted_records" ("deleted_records_" +:+ filepath_Base filePath).

(** One turn of the loop over [recordsToDelete] of [performPurgeCmd]:
    the result so far as the turn leaves it, and the calls of
    [os.WriteFile] it made, in order. *)
Definition purgeFile (turn : PurgeTurn) (result : purgeResultMsg)
    (filePath : string) (lineNumbersToDelete : gmap Z bool)
    : purgeResultMsg * list Write :=
  match opened turn with
  | None => (result, [])
  | Some file =>
      let '(newContent, backupContent, deleted) :=
        purgeScan lineNumbersToDelete 0 (textTokens file)
          EmptyString EmptyString (recordsDeleted result) in
      let result :=
        {| filesModified := filesModified result;
           recordsDeleted := deleted |} in
      if textScanErr file then (result, [])
      else
        let backup :=
          {| writeName := backupPathOf filePath; writeData := backupContent;
             writeOK := backupWritten turn |} in
        let original :=
          {| writeName := filePath; writeData := newContent;
             writeOK := originalWritten turn |} in
        let hasBackup := 0 <? Z.of_nat (String.length backupContent) in
        if hasBackup && negb (backupWritten turn) then (result, [backup])
        else
          let writes := (if hasBackup then [backup] else []) ++ [original] in
          if originalWritten turn
          then ({| filesModified := int_add (filesModified result) 1;
                   recordsDeleted := recordsDeleted result |}, writes)
          else (result, writes)
  end.
End PurgeFile.

(** *** The lines of a file by their numbers *)

(** The tokens next to their line numbers, the first being line
    [lineNumber + 1]. *)
Fixpoint numberLines (lineNumber : Z) (tokens : list string)
    : list (Z * string) :=
  match tokens with
  | [] => []
  | text :: rest => (lineNumber + 1, text) :: numberLines (lineNumber + 1) rest
  end.

Definition markedLine (lineNumbersToDelete : gmap Z bool)
    (line : Z * string) : Prop :=
  default false (lineNumbersToDelete !! line.1) = true.

Global Instance markedLine_dec d line : Decision (markedLine d line).
Proof. unfold markedLine. apply _. Defined.

(** The lines that are marked, and those that are not, in the order of
    the file. *)
Definition removedLines (d : gmap Z bool) (lineNumber : Z)
    (tokens : list string) : list string :=
  (filter (markedLine d) (numberLines lineNumber tokens)).*2.

Definition keptLines (d : gmap Z bool) (lineNumber : Z)
    (tokens : list string) : list string :=
  (filter (λ line, ¬ markedLine d line) (numberLines lineNumber tokens)).*2.

(** Each line followed by a newline. *)
Definition joinLines (lines : list string) : string :=
  foldr (λ text rest, (text +:+ newline) +:+ rest) EmptyString lines.

Lemma append_nil_r (s : string) : s +:+ EmptyString = s.
Proof.
  induction s as [|c s IH]; [done|].
  change (String c (s +:+ EmptyString) = String c s). by rewrite IH.
Qed.

Lemma append_assoc (s1 s2 s3 : string) :
  (s1 +:+ s2) +:+ s3 = s1 +:+ (s2 +:+ s3).
Proof.
  induction s1 as [|c s1 IH]; [done|].
  change (String c ((s1 +:+ s2) +:+ s3) = String c (s1 +:+ (s2 +:+ s3))).
  by rewrite IH.
Qed.

Lemma append_length (s1 s2 : string) :
  String.length (s1 +:+ s2) = (String.length s1 + String.length s2)%nat.
Proof.
  induction s1 as [|c s1 IH]; [done|].
  change (S (String.length (s1 +:+ s2))
          = S (String.length s1 + String.length s2)). by rewrite IH.
Qed.

Lemma joinLines_empty lines : joinLines lines = EmptyString ↔ lines = [].
Proof.
  split; [|by intros ->].
  destruct lines as [|text lines]; [done|]. simpl. intros Heq.
  apply (f_equal String.length) in Heq.
  rewrite !append_length in Heq. simpl in Heq. lia.
Qed.

Lemma wrap_range bits x :
  0 < bits → - 2 ^ (bits - 1) ≤ wrap bits x < 2 ^ (bits - 1).
Proof.
  intros Hb. unfold wrap.
  assert (2 ^ bits = 2 * 2 ^ (bits - 1)) as Hp.
  { rewrite <-Z.pow_succ_r by lia. f_equal. lia. }
  assert (0 < 2 ^ (bits - 1)) by (apply Z.pow_pos_nonneg; lia).
  pose proof (Z.mod_pos_bound (x + 2 ^ (bits - 1)) (2 ^ bits)). lia.
Qed.

Lemma removedLines_cons d n text tokens :
  removedLines d n (text :: tokens)
  = if default false (d !! (n + 1))
    then text :: removedLines d (n + 1) tokens
    else removedLines d (n + 1) tokens.
Proof.
  unfold removedLines. simpl. rewrite filter_cons.
  destruct (decide (markedLine d (n + 1, text))) as [Hm|Hm];
    unfold markedLine in Hm; simpl in Hm;
    [|apply not_true_is_false in Hm]; by rewrite Hm.
Qed.

Lemma keptLines_cons d n text tokens :
  keptLines d n (text :: tokens)
  = if default false (d !! (n + 1))
    then keptLines d (n + 1) tokens
    else text :: keptLines d (n + 1) tokens.
Proof.
  unfold keptLines. simpl. rewrite filter_cons.
  destruct (decide (¬ markedLine d (n + 1, text))) as [Hm|Hm].
  - unfold markedLine in Hm. simpl in Hm.
    apply not_true_is_false in Hm. by rewrite Hm.
  - apply dec_stable in Hm. unfold markedLine in Hm. simpl in Hm.
    by rewrite Hm.
Qed.

Lemma purgeScan_from d tokens :
  ∀ n newContent backupContent deleted,
    0 ≤ n → n + len tokens < 2 ^ 63 → - 2 ^ 63 ≤ deleted < 2 ^ 63 →
    purgeScan d n tokens newContent backupContent deleted
    = (newContent +:+ joinLines (keptLines d n tokens),
       backupContent +:+ joinLines (removedLines d n tokens),
       wrap 64 (deleted + len (removedLines d n tokens))).
Proof.
  induction tokens as [|text tokens IH];
    intros n newContent backupContent deleted Hn Hlen Hdel.
  - cbn. rewrite !append_nil_r, Z.add_0_r, wrap_small by lia. done.
  - unfold len in Hlen. simpl in Hlen.
    rewrite removedLines_cons, keptLines_cons. simpl.
    rewrite int_add_small by lia.
    destruct (default false (d !! (n + 1))).
    + rewrite IH; [|lia|unfold len; lia|apply (wrap_range 64); lia].
      simpl. rewrite append_assoc. unfold int_add.
      rewrite wrap_add_l by lia. do 2 f_equal. unfold len. simpl. lia.
    + rewrite IH; [|lia|unfold len; lia|done].
      simpl. by rewrite append_assoc.
Qed.

Lemma numberLines_lookup tokens :
  ∀ n k text,
    (k, text) ∈ numberLines n tokens
    ↔ n + 1 ≤ k ∧ tokens !! Z.to_nat (k - n - 1) = Some text.
Proof.
  induction tokens as [|t tokens IH]; intros n k text; simpl.
  - split; [by intros ?%elem_of_nil|]. by intros [_ ?].
  - rewrite elem_of_cons, IH. split.
    + intros [[= -> ->]|[Hk Hlook]].
      * split; [lia|]. by replace (n + 1 - n - 1) with 0 by lia.
      * split; [lia|].
        replace (k - n - 1) with (Z.succ (k - (n + 1) - 1)) by lia.
        rewrite Z2Nat.inj_succ by lia. done.
    + intros [Hk Hlook]. destruct (decide (k = n + 1)) as [->|Hne].
      * left. replace (n + 1 - n - 1) with 0 in Hlook by lia.
        simpl in Hlook. by injection Hlook as ->.
      * right. split; [lia|].
        replace (k - n - 1) with (Z.succ (k - (n + 1) - 1)) in Hlook by lia.
        rewrite Z2Nat.inj_succ in Hlook by lia. done.
Qed.

Lemma kept_removed_Permutation d n tokens :
  keptLines d n tokens ++ removedLines d n tokens ≡ₚ tokens.
Proof.
  revert n. induction tokens as [|text tokens IH]; intros n; [done|].
  rewrite removedLines_cons, keptLines_cons.
  destruct (default false (d !! (n + 1))).
  - rewrite <-Permutation_middle. by rewrite IH.
  - simpl. by rewrite IH.
Qed.

Lemma toDelete_markRecord loc m path n :
  toDelete (markRecord loc m) path n
  = if decide (FilePath loc = path ∧ LineNumber loc = n) then true
    else toDelete m path n.
Proof.
  unfold toDelete, markRecord.
  destruct (decide (FilePath loc = path)) as [<-|Hp].
  - rewrite lookup_insert_eq. simpl.
    destruct (decide (LineNumber loc = n)) as [<-|Hn].
    + rewrite lookup_insert_eq, decide_True by done. done.
    + rewrite lookup_insert_ne, decide_False by tauto. done.
  - rewrite lookup_insert_ne, decide_False by tauto. done.
Qed.

Lemma markOthers_from cursor locations :
  ∀ i m path n,
    toDelete (markOthers cursor i locations m) path n = true
    ↔ toDelete m path n = true ∨
      ∃ (j : nat) loc,
        locations !! j = Some loc ∧ i + Z.of_nat j ≠ cursor ∧
        FilePath loc = path ∧ LineNumber loc = n.
Proof.
  induction locations as [|loc locations IH]; intros i m path n; simpl.
  - split; [by left|]. by intros [?|(j & loc & ? & _)].
  - rewrite IH. split.
    + intros [Hm|(j & loc' & Hj & Hc & Hp & Hn)].
      * destruct (Z.eqb_spec i cursor) as [->|Hne]; [by left|].
        rewrite toDelete_markRecord in Hm.
        destruct (decide _) as [[Hp Hn]|_]; [|by left].
        right. exists 0%nat, loc. split; [done|]. split; [lia|done].
      * right. exists (S j), loc'. split; [done|]. split; [lia|done].
    + intros [Hm|(j & loc' & Hj & Hc & Hp & Hn)].
      * left. destruct (i =? cursor); [done|].
        rewrite toDelete_markRecord. by destruct (decide _).
      * destruct j as [|j]; simpl in Hj.
        -- injection Hj as ->. left.
           destruct (Z.eqb_spec i cursor) as [->|Hne]; [lia|].
           rewrite toDelete_markRecord, decide_True by done. done.
        -- right. exists j, loc'. split; [done|]. split; [lia|done].
Qed.

(** X24. Choosing the record to keep of a duplicate group marks every
    other location of the group for deletion and nothing else: after the
    step a line of a file is marked exactly when it was marked before or
    is the line of a location of the group at another index than the
    cursor. So marks are never taken back, and the chosen record gets no
    mark from its own group, unless the group holds it twice. *)
Theorem markOthers_marks_all_but_the_chosen
    (purgeSelectionCursor : Z) (locations : list LocationInfo)
    (m : gmap string (gmap Z bool)) (path : string) (n : Z) :
  toDelete (markOthers purgeSelectionCursor 0 locations m) path n = true
  ↔ toDelete m path n = true ∨
    ∃ (i : nat) loc,
      locations !! i = Some loc ∧ Z.of_nat i ≠ purgeSelectionCursor ∧
      FilePath loc = path ∧ LineNumber loc = n.
Proof.
  rewrite markOthers_from. split.
  - intros [?|(j & loc & Hj & Hc & Hp & Hn)]; [by left|].
    right. exists j, loc. split; [done|]. split; [lia|done].
  - intros [?|(j & loc & Hj & Hc & Hp & Hn)]; [by left|].
    right. exists j, loc. split; [done|]. split; [lia|done].
Qed.

(** X25. The purge scan splits a file by line numbers and loses no
    line. For a file of fewer than 2^63 lines, the first being line 1,
    the new content is the lines whose number is not marked, the backup
    the lines whose number is marked, each line followed by a newline and
    in the order of the file; the count of deleted records grows by the
    number of marked lines; and the two parts together are the lines of
    the file. Marks on numbers beyond the file do nothing. *)
Theorem purgeScan_splits_by_line_number
    (lineNumbersToDelete : gmap Z bool) (tokens : list string) (deleted : Z) :
  len tokens < 2 ^ 63 →
  - 2 ^ 63 ≤ deleted < 2 ^ 63 →
  let kept := keptLines lineNumbersToDelete 0 tokens in
  let removed := removedLines lineNumbersToDelete 0 tokens in
  purgeScan lineNumbersToDelete 0 tokens EmptyString EmptyString deleted
  = (joinLines kept, joinLines removed, wrap 64 (deleted + len removed)) ∧
  kept ++ removed ≡ₚ tokens ∧
  (∀ n text, (n, text) ∈ numberLines 0 tokens
             ↔ 1 ≤ n ∧ tokens !! Z.to_nat (n - 1) = Some text) ∧
  (∀ text, text ∈ removed
           ↔ ∃ n, 1 ≤ n ∧ tokens !! Z.to_nat (n - 1) = Some text ∧
                  default false (lineNumbersToDelete !! n) = true).
Proof.
  intros Hlen Hdel kept removed.
  split; [by rewrite purgeScan_from by lia|].
  split; [apply kept_removed_Permutation|].
  assert (∀ n text, (n, text) ∈ numberLines 0 tokens
                    ↔ 1 ≤ n ∧ tokens !! Z.to_nat (n - 1) = Some text) as Hnum.
  { intros n text. rewrite numberLines_lookup.
    by replace (n - 0 - 1) with (n - 1) by lia. }
  split; [done|].
  intros text. unfold removed, removedLines. rewrite list_elem_of_fmap. split.
  - intros ([n text'] & -> & [Hmark Hin]%list_elem_of_filter).
    apply Hnum in Hin as [Hn Hlook]. by exists n.
  - intros (n & Hn & Hlook & Hmark). exists (n, text). split; [done|].
    apply list_elem_of_filter. split; [done|]. by apply Hnum.
Qed.

Lemma purgeScan_splits_by_line_number_witness :
  purgeScan {[2 := true]} 0 ["a"; "b"; "c"] EmptyString EmptyString 0
  = (joinLines ["a"; "c"], joinLines ["b"], 1).
Proof.
  destruct (purgeScan_splits_by_line_number {[2 := true]} ["a"; "b"; "c"] 0)
    as [Hscan _]; [by vm_compute|by vm_compute|].
  rewrite Hscan. by vm_compute.
Defined.

Lemma hasBackup_removed (removed : list string) :
  (0 <? Z.of_nat (String.length (joinLines removed)))
  = negb (bool_decide (removed = [])).
Proof.
  destruct removed as [|text removed]; [done|].
  rewrite bool_decide_eq_false_2 by done. simpl.
  rewrite !append_length. simpl. apply Z.ltb_lt. lia.
Qed.

(** X26. A turn of the purge overwrites a file only with its unmarked
    lines, and only after its marked lines are safe. Let the file open
    and have fewer than 2^63 lines. If the scan fails nothing is written.
    Otherwise, when no line of the file is marked, the file is rewritten
    with all its lines; when some are, they are first written to the
    backup, and the file is rewritten with the others only if that write
    succeeded. The file counts as modified exactly when its rewrite
    succeeded. The count of deleted records grows by the marked lines of
    the file in each of these cases, also when nothing was written. *)
Theorem purgeFile_overwrites_after_the_backup
    (filepath_Base : string → string)
    (filepath_Join : string → string → string)
    (turn : PurgeTurn) (result : purgeResultMsg) (filePath : string)
    (lineNumbersToDelete : gmap Z bool) (file : TextFile) :
  opened turn = Some file →
  len (textTokens file) < 2 ^ 63 →
  - 2 ^ 63 ≤ recordsDeleted result < 2 ^ 63 →
  let kept := keptLines lineNumbersToDelete 0 (textTokens file) in
  let removed := removedLines lineNumbersToDelete 0 (textTokens file) in
  let backup :=
    {| writeName := backupPathOf filepath_Base filepath_Join filePath;
       writeData := joinLines removed; writeOK := backupWritten turn |} in
  let original :=
    {| writeName := filePath; writeData := joinLines kept;
       writeOK := originalWritten turn |} in
  let after :=
    purgeFile filepath_Base filepath_Join turn result filePath
      lineNumbersToDelete in
  after.2
  = (if textScanErr file then []
     else if bool_decide (removed = []) then [original]
     else if backupWritten turn then [backup; original] else [backup]) ∧
  filesModified after.1
  = (if negb (textScanErr file)
        && (bool_decide (removed = []) || backupWritten turn)
        && originalWritten turn
     then int_add (filesModified result) 1 else filesModified result) ∧
  recordsDeleted after.1
  = wrap 64 (recordsDeleted result + len removed).
Proof.
  intros Hopen Hlen Hdel kept removed backup original after.
  subst after. unfold purgeFile. rewrite Hopen.
  rewrite purgeScan_from by lia.
  change (EmptyString +:+ ?x) with x. fold kept removed.
  rewrite hasBackup_removed.
  destruct (textScanErr file); [done|].
  destruct (bool_decide (removed = [])); simpl;
    destruct (backupWritten turn), (originalWritten turn); done.
Qed.

Lemma purgeFile_overwrites_after_the_backup_witness :
  (purgeFile (λ path, path) (λ dir name, dir +:+ "/" +:+ name)
     {| opened := Some {| textTokens := ["a"; "b"; "c"];
                          textScanErr := false |};
        backupWritten := false; originalWritten := true |}
     {| filesModified := 0; recordsDeleted := 0 |}
     "x.json" {[2 := true]}).2
  = [{| writeName := "deleted_records/deleted_records_x.json";
        writeData := joinLines ["b"]; writeOK := false |}].
Proof.
  destruct (purgeFile_overwrites_after_the_backup
              (λ path, path) (λ dir name, dir +:+ "/" +:+ name)
              {| opened := Some {| textTokens := ["a"; "b"; "c"];
                                   textScanErr := false |};
                 backupWritten := false; originalWritten := true |}
              {| filesModified := 0; recordsDeleted := 0 |}
              "x.json" {[2 := true]}
              {| textTokens := ["a"; "b"; "c"]; textScanErr := false |})
    as (Hwrites & _); [done|by vm_compute|by vm_compute|].
  rewrite Hwrites. by vm_compute.
Defined.

(** * The claims on discovery, on runs and on reports *)

(** C9. The sources that the discovery over several roots returns have
    pairwise different paths, whatever the roots are and however they
    overlap: two positions of the list that hold sources with the same
    path are the same position. *)
Theorem C9_discovery_returns_no_path_twice `{GoRuntime}
    (st : Storage) (ctx : Context) (paths : list string)
    (sources : list InputSource) :
  DiscoverAll st ctx paths = Ok sources →
  NoDup (Path <$> sources) ∧
  ∀ (i j : nat) s1 s2,
    sources !! i = Some s1 → sources !! j = Some s2 →
    Path s1 = Path s2 → i = j.
Proof.
  unfold DiscoverAll.
  destruct (discoverEach st ctx paths ([], ∅)) as [e|[us dp]] eqn:He; [done|].
  destruct (len us =? 0); [done|]. intros [= <-].
  assert (seenExactly ([], ∅)) as H0.
  { split; [constructor|]. intros path. simpl. rewrite lookup_empty. simpl.
    split; [done|by intros ?%elem_of_nil]. }
  destruct (discoverEach_ok st ctx paths _ _ H0 He) as ([Hnd _] & _).
  simpl in Hnd. split; [done|].
  intros i j s1 s2 Hi Hj Hpath.
  apply (NoDup_lookup (Path <$> us) i j (Path s1)); [done| |].
  - by rewrite list_lookup_fmap, Hi.
  - by rewrite list_lookup_fmap, Hj, Hpath.
Qed.

Lemma C9_discovery_returns_no_path_twice_witness :
  @DiscoverAll Sample.runtime SampleDisk.storage None
    ["/data"; "/data/sub"; "/data"]
  = Ok [LocalFileSource "/data/a.json" 11;
        LocalFileSource "/data/sub/B.JSONL" 7] ∧
  NoDup (Path <$> [LocalFileSource "/data/a.json" 11;
                   LocalFileSource "/data/sub/B.JSONL" 7]).
Proof.
  assert (@DiscoverAll Sample.runtime SampleDisk.storage None
            ["/data"; "/data/sub"; "/data"]
          = Ok [LocalFileSource "/data/a.json" 11;
                LocalFileSource "/data/sub/B.JSONL" 7]) as Hd
    by (by vm_compute).
  split; [done|].
  exact (proj1 (@C9_discovery_returns_no_path_twice Sample.runtime
                  SampleDisk.storage None _ _ Hd)).
Defined.

(** ** What a run that is not cancelled leaves unprocessed *)

(** A source that opens and whose stream ends without a scanner
    error. *)
Definition readable (w : World) (s : InputSource) : bool :=
  match Open w s with
  | Some reader => negb (scanErr reader)
  | None => false
  end.

Section Unprocessed.
Context `{GoRuntime}.

Lemma readable_spec w s :
  readable w s = true
  ↔ ∃ reader, Open w s = Some reader ∧ scanErr reader = false.
Proof.
  unfold readable. destruct (Open w s) as [reader|].
  - split.
    + intros Hr. exists reader. split; [done|]. by destruct (scanErr reader).
    + intros (r & [= <-] & ->). done.
  - split; [done|]. by intros (r & ? & _).
Qed.

Lemma processSource_marks_only w ctx a src p v :
  processedPaths (processSource w ctx a src).2 !! p = Some v →
  processedPaths a !! p = Some v ∨
  (v = true ∧ Path src = p ∧ readable w src = true).
Proof.
  unfold processSource, readable.
  destruct (Open w src) as [reader|]; [|by left].
  pose proof (scanLoop_marks ctx (storeCurrentFolder (Dir src) a) (Path src)
                (Dir src) fnv.New64a 0 (tokens reader)) as [_ Hs].
  destruct (scanLoop _ _ _ _ _ _ _) as [[ctx1 a1] cancelled].
  simpl in Hs. destruct cancelled, (scanErr reader); simpl;
    rewrite <-?Hs; try by left.
  destruct (decide (Path src = p)) as [<-|Hne].
  - rewrite lookup_insert_eq. intros [= <-]. by right.
  - rewrite lookup_insert_ne by done. by left.
Qed.

Lemma worker_marks_only w ctx a sources p v :
  processedPaths (worker w ctx a sources).2 !! p = Some v →
  processedPaths a !! p = Some v ∨
  (v = true ∧ ∃ s, s ∈ sources ∧ Path s = p ∧ readable w s = true).
Proof.
  revert ctx a. induction sources as [|src sources IH]; intros ctx a; simpl;
    [by left|].
  destruct (poll ctx) as [[] ctx1]; [by left|].
  pose proof (processSource_marks_only w ctx1 a src p v) as Hs.
  destruct (processSource w ctx1 a src) as [ctx2 a2]. simpl in Hs.
  intros [Hp|(-> & s & Hin & Hpath & Hr)]%IH.
  - destruct (Hs Hp) as [?|(-> & Hpath & Hr)]; [by left|].
    right. split; [done|]. exists src. split; [by left|done].
  - right. split; [done|]. exists s. split; [by right|done].
Qed.

Lemma worker_marks_readable w ctx a sources :
  live (worker w ctx a sources).1 →
  ∀ s, s ∈ sources → readable w s = true →
       processedPaths (worker w ctx a sources).2 !! Path s = Some true.
Proof.
  revert ctx a. induction sources as [|src sources IH]; intros ctx a; simpl.
  - intros _ s Hs. by apply elem_of_nil in Hs.
  - pose proof (poll_live ctx) as Hp.
    destruct (poll ctx) as [[] ctx1]; simpl in *.
    { intros Hl. by specialize (Hp Hl). }
    pose proof (processSource_marked w ctx1 a src) as Hm.
    destruct (processSource w ctx1 a src) as [ctx2 a2] eqn:E. simpl in Hm.
    intros Hl s Hs Hr. apply elem_of_cons in Hs as [->|Hs].
    + apply readable_spec in Hr as (reader & Hopen & Herr).
      apply worker_keeps_marks, (Hm reader Hopen Herr).
      by apply worker_live in Hl.
    + by apply IH.
Qed.
End Unprocessed.

(** C8 (amended). Let an engine with at least one worker run over a
    list of sources. The run returns a report, and when the report is not
    a partial one, the unprocessed sources of the list after the run are
    exactly the sources that were unmarked before it and whose path no
    source of the list has that opens and is read to its end without a
    scanner error. There is none when every source of the list opens and
    is read to its end without a scanner error. *)
Theorem C8_full_run_leaves_only_the_unreadable_unprocessed `{GoRuntime}
    (w : World) (ctx : Context) (a : Analyser) (sources : list InputSource) :
  0 < numWorkers a →
  ∃ a' rep,
    Run w ctx a sources = Some (a', rep) ∧
    (SummaryReport.IsPartialReport (Summary rep) = false →
     (∀ s, s ∈ GetUnprocessedSources a' sources
           ↔ s ∈ sources ∧
             default false (processedPaths a !! Path s) = false ∧
             ∀ s', s' ∈ sources → Path s' = Path s → readable w s' = false) ∧
     ((∀ s, s ∈ sources → readable w s = true) →
      GetUnprocessedSources a' sources = [])).
Proof.
  intros Hw. unfold Run.
  destruct (Z.ltb_spec (numWorkers a) 0) as [?|_]; [lia|].
  destruct (Z.eqb_spec (numWorkers a) 0) as [?|_]; [lia|].
  pose proof (worker_marks_readable w ctx a sources) as Hall.
  pose proof (worker_marks_only w ctx a sources) as Honly.
  pose proof (λ p, worker_keeps_marks w ctx a sources p) as Hkeep.
  destruct (worker w ctx a sources) as [ctx1 a1]. simpl in Hall, Honly, Hkeep.
  eexists _, _. split; [done|]. rewrite generateReport_partial. intros Hl.
  assert (∀ s, s ∈ GetUnprocessedSources a1 sources
               ↔ s ∈ sources ∧
                 default false (processedPaths a !! Path s) = false ∧
                 ∀ s', s' ∈ sources → Path s' = Path s →
                       readable w s' = false) as Hun.
  { intros s. unfold GetUnprocessedSources. rewrite list_elem_of_filter.
    split.
    - intros [Hs Hin]. split; [done|]. split.
      + destruct (processedPaths a !! Path s) as [[]|] eqn:E; try done.
        by rewrite (Hkeep _ E) in Hs.
      + intros s' Hin' Hpath.
        destruct (readable w s') eqn:Hr; [|done].
        by rewrite <-Hpath, (Hall Hl s' Hin' Hr) in Hs.
    - intros (Hin & Hbefore & Hnone). split; [|done].
      destruct (processedPaths a1 !! Path s) as [[]|] eqn:E; try done.
      destruct (Honly _ _ E) as [Hold|(_ & s' & Hin' & Hpath & Hr)].
      + by rewrite Hold in Hbefore.
      + by rewrite (Hnone s' Hin' Hpath) in Hr. }
  split; [done|]. intros Hread. apply elem_of_nil_inv. intros s.
  rewrite Hun. intros (Hin & _ & Hnone).
  specialize (Hread s Hin). by rewrite (Hnone s Hin eq_refl) in Hread.
Qed.

Lemma C8_full_run_leaves_only_the_unreadable_unprocessed_witness :
  let a := New "id" 8 true true false in
  let sources := LocalFileSource "/data/missing.json" 11
                 :: Sample.threeSources in
  ∃ a' rep,
    @Run Sample.runtime Sample.threeFiles None a sources = Some (a', rep) ∧
    (SummaryReport.IsPartialReport (Summary rep) = false →
     (∀ s, s ∈ GetUnprocessedSources a' sources
           ↔ s ∈ sources ∧
             default false (processedPaths a !! Path s) = false ∧
             ∀ s', s' ∈ sources → Path s' = Path s →
                   readable Sample.threeFiles s' = false) ∧
     ((∀ s, s ∈ sources → readable Sample.threeFiles s = true) →
      GetUnprocessedSources a' sources = [])).
Proof.
  apply (@C8_full_run_leaves_only_the_unreadable_unprocessed Sample.runtime).
  by vm_compute.
Defined.

(** C8 as it is worded has every source processed after a run that was
    not cancelled. The file [/data/missing.json] cannot be opened: the
    run over it and [/data/a.json] is not cancelled, its report is not a
    partial one, and the file is still unprocessed. *)
Lemma C8_unopened_source_stays_unprocessed :
  let sources := [LocalFileSource "/data/missing.json" 11;
                  LocalFileSource "/data/a.json" 11] in
  let run :=
    @Run Sample.runtime Sample.threeFiles None (New "id" 8 true true false)
      sources in
  (SummaryReport.IsPartialReport ∘ Summary ∘ snd) <$> run = Some false ∧
  (λ r, GetUnprocessedSources r.1 sources) <$> run
  = Some [LocalFileSource "/data/missing.json" 11].
Proof. vm_compute. split; reflexivity. Qed.

(** ** Processed within total, per folder *)

(** C6 (amended). In the per-folder table of every report, whatever
    state the engine is in and however the run ended, a folder has at
    most as many processed files as files. It has at most as many
    processed bytes as bytes when no source has a negative size and the
    sizes of all sources add up to less than 2^63, so that no 64-bit sum
    of sizes wraps around. *)
Theorem C6_folder_processed_within_total `{GoRuntime}
    (a : Analyser) (sources : list InputSource)
    (wasCancelled isValidation : bool) :
  len sources < 2 ^ 63 →
  let rep := generateReport a sources wasCancelled isValidation in
  (∀ dir detail,
     SummaryReport.FolderDetails (Summary rep) !! dir = Some detail →
     0 ≤ FolderDetail.FilesProcessed detail ≤ FolderDetail.TotalFiles detail) ∧
  ((∀ s, s ∈ sources → 0 ≤ Size s) → totalSize sources < 2 ^ 63 →
   ∀ dir detail,
     SummaryReport.FolderDetails (Summary rep) !! dir = Some detail →
     0 ≤ FolderDetail.ProcessedSizeBytes detail
       ≤ FolderDetail.TotalSizeBytes detail).
Proof.
  intros Hlen rep. subst rep.
  destruct (generateReport_folders a sources wasCancelled isValidation)
    as (-> & _).
  pose proof (folderStep_fold a sources) as Hfold.
  destruct (fold_left (folderStep a) sources (∅, 0)) as [fd total].
  destruct Hfold as [_ Hfd]. simpl. split.
  - intros dir detail. rewrite Hfd.
    destruct (decide (inFolder dir sources = [])); [done|].
    intros [= <-]. unfold folderRow. simpl.
    pose proof (len_filter_le (λ s, Dir s = dir) sources) as Hl1.
    pose proof (len_filter_le (marked a) (inFolder dir sources)) as Hl2.
    fold (inFolder dir sources) in Hl1.
    rewrite !wrap_small by lia. lia.
  - intros Hsize Htotal dir detail. rewrite Hfd.
    destruct (decide (inFolder dir sources = [])); [done|].
    intros [= <-]. unfold folderRow. simpl.
    pose proof (totalSize_filter_le (λ s, Dir s = dir) sources Hsize) as Hs1.
    assert (0 ≤ totalSize (filter (marked a) (inFolder dir sources))
              ≤ totalSize (inFolder dir sources)) as Hs2.
    { apply totalSize_filter_le. intros s [_ Hs]%list_elem_of_filter. auto. }
    fold (inFolder dir sources) in Hs1.
    rewrite !wrap_small by lia. lia.
Qed.

Lemma C6_folder_processed_within_total_witness :
  let detail :=
    {| FolderDetail.ProcessedSizeBytes := 11;
       FolderDetail.TotalSizeBytes := 33;
       FolderDetail.FilesProcessed := 1; FolderDetail.TotalFiles := 3;
       FolderDetail.KeysFound := 0; FolderDetail.RowsProcessed := 0 |} in
  SummaryReport.FolderDetails
    (Summary
       (@generateReport Sample.runtime
          (markProcessed "/data/a.json" (New "id" 8 true true false))
          Sample.threeSources true false)) !! "/data" = Some detail ∧
  0 ≤ FolderDetail.FilesProcessed detail ≤ FolderDetail.TotalFiles detail.
Proof.
  intros detail. split; [by vm_compute|].
  refine (proj1 (@C6_folder_processed_within_total Sample.runtime
                   (markProcessed "/data/a.json" (New "id" 8 true true false))
                   Sample.threeSources true false _) "/data" detail _);
    by vm_compute.
Defined.

(** C6 as it is worded holds for all inputs. Two sources of one folder
    have 2^62 bytes each; the first is read, the second cannot be opened.
    The folder's total of 2^63 bytes wraps around to -2^63, and the
    processed 2^62 bytes are more than that. *)
Lemma C6_sizes_that_wrap_around :
  let sources := [LocalFileSource "/data/a.json" (2 ^ 62);
                  LocalFileSource "/data/missing.json" (2 ^ 62)] in
  let detail :=
    (λ r : Analyser * AnalysisReport,
       SummaryReport.FolderDetails (Summary r.2) !! "/data")
      <$> @Run Sample.runtime Sample.threeFiles None
            (New "id" 8 true true false) sources in
  FolderDetail.ProcessedSizeBytes <$> mjoin detail = Some (2 ^ 62) ∧
  FolderDetail.TotalSizeBytes <$> mjoin detail = Some (- 2 ^ 63) ∧
  ¬ (2 ^ 62 ≤ - 2 ^ 63).
Proof. vm_compute. split; [reflexivity|]. split; [reflexivity|]. done. Qed.

(** ** Validation against analysis, key occurrences *)

Section ValidationKeys.
Context `{GoRuntime}.

Lemma Run_validation_keys w ctx key workers checkKey rowsV rowsA sources
    av repv af repf :
  Run w ctx (New key workers checkKey rowsV true) sources = Some (av, repv) →
  Run w ctx (New key workers checkKey rowsA false) sources = Some (af, repf) →
  SummaryReport.TotalKeyOccurrences (Summary repv)
  = SummaryReport.TotalKeyOccurrences (Summary repf).
Proof.
  set (a0 := New key workers checkKey rowsV true).
  set (b0 := New key workers checkKey rowsA false).
  intros HRunv HRunf.
  assert (keysFiled sources af) as [[k Hsum] Hdom].
  { apply (Run_keysFiled w ctx b0 sources af repf); [done| |done].
    split; [|done]. exists 0. simpl. rewrite !sumOver_empty.
    by destruct checkKey. }
  pose proof (Run_settings w ctx b0 sources af repf HRunf)
    as (_ & _ & Hkf & _ & Hvf).
  pose proof (Run_settings w ctx a0 sources av repv HRunv)
    as (_ & _ & _ & _ & Hvv).
  simpl in Hkf, Hvf, Hvv.
  assert (sameCounts a0 b0) as H0 by done.
  revert HRunv HRunf. unfold Run. simpl.
  destruct (workers <? 0); [done|].
  assert (sameCounts
            (if workers =? 0 then (ctx, a0) else worker w ctx a0 sources).2
            (if workers =? 0 then (ctx, b0) else worker w ctx b0 sources).2)
    as Hsame.
  { destruct (workers =? 0); [done|]. by apply worker_sameCounts. }
  destruct (if workers =? 0 then (ctx, a0) else worker w ctx a0 sources)
    as [ctx1 a1].
  destruct (if workers =? 0 then (ctx, b0) else worker w ctx b0 sources)
    as [ctx2 b1].
  simpl in Hsame.
  intros [= <- <-] [= <- <-]. rewrite <-Hvf, <-Hvv.
  destruct (generateReport_folders a1 sources (poll ctx1).1 true)
    as (_ & _ & _ & Hkeys).
  destruct (generateReport_tallies b1 sources (poll ctx2).1 false)
    as (_ & _ & Hids).
  rewrite Hkeys, Hids by done.
  rewrite (folderStep_sameCounts a1 b1 sources _ Hsame).
  pose proof (folderStep_fold b1 sources) as Hfold.
  destruct (fold_left (folderStep b1) sources (∅, 0)) as [fd total].
  destruct Hfold as [_ Hfd]. simpl.
  rewrite (sumOver_column FolderDetail.KeysFound fd (keysFoundPerFolder b1)).
  - rewrite Hsum, wrap_shifted by lia. rewrite <-Hkf. simpl.
    destruct checkKey; simpl; [|done].
    by destruct (tallyID_fold (idLocations b1)) as (_ & -> & _).
  - intros d. rewrite Hfd.
    destruct (decide (inFolder d sources = [])) as [Hnone|]; [|done].
    intros _. destruct (keysFoundPerFolder b1 !! d) eqn:E; [|done].
    destruct (Hdom d) as (s & Hs & Hdir); [by rewrite E|].
    assert (s ∈ inFolder d sources) as Hin
      by (by apply list_elem_of_filter).
    rewrite Hnone in Hin. by apply elem_of_nil in Hin.
  - intros d row. rewrite Hfd.
    destruct (decide (inFolder d sources = [])); [done|]. by intros [= <-].
Qed.

Lemma Run_validation_groups w ctx a sources a' rep :
  ValidateOnly a = true → Run w ctx a sources = Some (a', rep) →
  idLocations a' = idLocations a ∧ rowHashes a' = rowHashes a ∧
  DuplicateIDs rep = ∅ ∧ DuplicateRows rep = ∅.
Proof.
  intros Hv HRun.
  assert (idLocations a' = idLocations a ∧ rowHashes a' = rowHashes a)
    as [Hi Hr].
  { apply (Run_keeps a
             (λ b, idLocations b = idLocations a ∧ rowHashes b = rowHashes a))
      with (w := w) (ctx := ctx) (sources := sources) (rep := rep); try done.
    intros b data filePath n h (_ & _ & _ & _ & Hvb) Hb.
    rewrite processRow_cases. rewrite <-Hvb, Hv.
    destruct (checkKey b); [|done].
    by destruct (data_lookup (uniqueKey b) data). }
  split; [done|]. split; [done|].
  destruct (Run_report w ctx a sources a' rep HRun) as [c ->].
  destruct (Run_settings w ctx a sources a' _ HRun) as (_ & _ & _ & _ & Hva).
  destruct (generateReport_groups a' sources c (ValidateOnly a')) as [-> ->].
  rewrite <-Hva, Hv. simpl. by rewrite !andb_false_r.
Qed.
End ValidationKeys.

(** C3 (amended). A fresh engine in validation mode ends its run with
    no location stored, and its report has neither a duplicate-key nor a
    duplicate-row group. The key occurrences of that report are those of
    the report of a fresh engine that analyses the same sources for the
    same key with the same setting of the key check, both runs being ended
    by the same cancellation or by none; the row check may be set
    differently in the two. *)
Theorem C3_validation_counts_the_keys_of_an_analysis `{GoRuntime}
    (w : World) (ctx : Context) (key : string) (workers : Z)
    (checkKey rowsV rowsA : bool) (sources : list InputSource) :
  0 ≤ workers →
  ∃ av repv af repf,
    Run w ctx (New key workers checkKey rowsV true) sources
    = Some (av, repv) ∧
    Run w ctx (New key workers checkKey rowsA false) sources
    = Some (af, repf) ∧
    idLocations av = ∅ ∧ rowHashes av = ∅ ∧
    DuplicateIDs repv = ∅ ∧ DuplicateRows repv = ∅ ∧
    SummaryReport.TotalKeyOccurrences (Summary repv)
    = SummaryReport.TotalKeyOccurrences (Summary repf).
Proof.
  intros Hw.
  destruct (Run_returns w ctx (New key workers checkKey rowsV true) sources Hw)
    as (av & repv & HRunv).
  destruct (Run_returns w ctx (New key workers checkKey rowsA false) sources
              Hw) as (af & repf & HRunf).
  exists av, repv, af, repf. split; [exact HRunv|]. split; [exact HRunf|].
  destruct (Run_validation_groups w ctx
              (New key workers checkKey rowsV true) sources av repv
              eq_refl HRunv) as (Hi & Hr & Hdi & Hdr).
  split; [exact Hi|]. split; [exact Hr|]. split; [exact Hdi|].
  split; [exact Hdr|].
  exact (Run_validation_keys w ctx key workers checkKey rowsV rowsA sources
           av repv af repf HRunv HRunf).
Qed.

Lemma C3_validation_counts_the_keys_of_an_analysis_witness :
  ∃ av repv af repf,
    @Run Sample.runtime Sample.threeFiles None
      (New "id" 8 true false true) Sample.threeSources = Some (av, repv) ∧
    @Run Sample.runtime Sample.threeFiles None
      (New "id" 8 true true false) Sample.threeSources = Some (af, repf) ∧
    idLocations av = ∅ ∧ rowHashes av = ∅ ∧
    DuplicateIDs repv = ∅ ∧ DuplicateRows repv = ∅ ∧
    SummaryReport.TotalKeyOccurrences (Summary repv)
    = SummaryReport.TotalKeyOccurrences (Summary repf).
Proof.
  apply (@C3_validation_counts_the_keys_of_an_analysis Sample.runtime).
  by vm_compute.
Defined.

(** C3 as it is worded compares a validation with any full analysis for
    the same key. Over the three files with the row [{"id":"a"}], the
    validation with the key check on reports three key occurrences; the
    analysis with only the row check on counts no key and reports
    none. *)
Lemma C3_analysis_without_key_check_counts_no_key :
  (SummaryReport.TotalKeyOccurrences ∘ Summary ∘ snd)
    <$> @Run Sample.runtime Sample.threeFiles None
          (New "id" 8 true false true) Sample.threeSources
  = Some 3 ∧
  (SummaryReport.TotalKeyOccurrences ∘ Summary ∘ snd)
    <$> @Run Sample.runtime Sample.threeFiles None
          (New "id" 8 false true false) Sample.threeSources
  = Some 0.
Proof. vm_compute. split; reflexivity. Qed.

(** ** The averages of a report *)

Section RowsOfUnmarked.
Context `{GoRuntime}.

(** A scan that is not cancelled counts every row of the stream, whether
    or not the source is marked at the end. *)
Lemma processSource_counts_rows w ctx a src reader :
  Open w src = Some reader →
  len (tokens reader) < 2 ^ 63 →
  survives ctx (pollsOfScan (tokens reader)) →
  TotalRows (processSource w ctx a src).2
  = (if decide (rowsOf (tokens reader) = []) then TotalRows a
     else wrap 64 (TotalRows a + len (rowsOf (tokens reader)))).
Proof.
  intros Hopen Hlen Hlive. rewrite processSource_cases, Hopen.
  rewrite <-pollsFrom_zero in Hlive.
  apply scanReach_cancelled in Hlive; [|lia|done].
  destruct (scanReach_bound ctx 0 (tokens reader)) as [_ Hall].
  destruct (scanReach ctx 0 (tokens reader)) as [[ctx1 k] cancelled].
  simpl in Hlive, Hall. subst cancelled. rewrite (Hall eq_refl), firstn_all.
  rewrite scanLines_rows by lia.
  fold (numbered (tokens reader)). fold (rowsOf (tokens reader)).
  destruct (fold_scanNumbered_counts (Path src) (Dir src)
              (rowsOf (tokens reader)) (storeCurrentFolder (Dir src) a)
              fnv.New64a) as [Ht _].
  { apply Forall_forall. by intros nl [? _]%list_elem_of_filter. }
  simpl in Ht. by destruct (scanErr reader).
Qed.
End RowsOfUnmarked.

(** C7 (amended). In every report the average of rows per file is the
    total-rows counter over the processed-files counter, and zero when
    that counter is not positive; the average of files per folder is the
    number of sources handed to the run over the number of distinct
    folders among them, unprocessed sources counted in, and zero for an
    empty list. The total-rows counter is not one of processed sources
    only: a scan that is not cancelled adds every row of the stream to
    it, also when a scanner error at the end leaves the source
    unprocessed. *)
Theorem C7_averages_divide_the_counters `{GoRuntime}
    (a : Analyser) (sources : list InputSource)
    (wasCancelled isValidation : bool) :
  let rep := generateReport a sources wasCancelled isValidation in
  SummaryReport.AverageRowsPerFile (Summary rep)
  = (if 0 <? ProcessedFiles a
     then float64_div (TotalRows a) (ProcessedFiles a) else 0%Qc) ∧
  SummaryReport.AverageFilesPerFolder (Summary rep)
  = (if decide (sources = []) then 0%Qc
     else float64_div (len sources)
            (Z.of_nat (length (remove_dups (Dir <$> sources))))) ∧
  ∀ w ctx src reader,
    Open w src = Some reader →
    len (tokens reader) < 2 ^ 63 →
    survives ctx (pollsOfScan (tokens reader)) →
    TotalRows (processSource w ctx a src).2
    = (if decide (rowsOf (tokens reader) = []) then TotalRows a
       else wrap 64 (TotalRows a + len (rowsOf (tokens reader)))).
Proof.
  intros rep. subst rep. split; [|split].
  - by destruct (generateReport_counters a sources wasCancelled isValidation)
      as (_ & _ & ->).
  - rewrite generateReport_average_files, uniqueFolders_size.
    destruct sources as [|s sources]; [done|].
    rewrite decide_False by done.
    destruct (remove_dups (Dir <$> s :: sources)) as [|d ds] eqn:E; [|done].
    assert (Dir s ∈ remove_dups (Dir <$> s :: sources)) as Hin
      by (apply elem_of_remove_dups; left).
    rewrite E in Hin. by apply elem_of_nil in Hin.
  - intros w ctx src reader. apply processSource_counts_rows.
Qed.

(** Two files of one row each; the scan of the second ends in a
    scanner error. *)
Definition brokenSecondFile : World :=
  {| os_Open := λ path,
       if String.eqb path "/data/a.json"
       then Some {| tokens := [Sample.idRow "a"]; scanErr := false |}
       else Some {| tokens := [Sample.idRow "b"]; scanErr := true |};
     gcs_NewReader := λ _ _, None |}.

Lemma C7_averages_divide_the_counters_witness :
  let a := New "id" 8 true false false in
  let src := LocalFileSource "/data/b.json" 11 in
  TotalRows
    (@processSource Sample.runtime brokenSecondFile None a src).2 = 1 ∧
  processedPaths
    (@processSource Sample.runtime brokenSecondFile None a src).2 = ∅.
Proof.
  intros a src. split; [|by vm_compute].
  rewrite (proj2 (proj2 (@C7_averages_divide_the_counters Sample.runtime
                           a [] false false))
             brokenSecondFile None src
             {| tokens := [Sample.idRow "b"]; scanErr := true |});
    by vm_compute.
Defined.

(** C7 as it is worded divides the rows of the processed sources by
    their number. Of the two files of [brokenSecondFile] only the first
    is processed, and it holds one row; the run counts the row of the
    second as well, and the report gives 2 rows per file, not 1. *)
Lemma C7_rows_of_an_unprocessed_source_are_counted :
  let sources := [LocalFileSource "/data/a.json" 11;
                  LocalFileSource "/data/b.json" 11] in
  let run :=
    @Run Sample.runtime brokenSecondFile None (New "id" 8 true false false)
      sources in
  (λ r : Analyser * AnalysisReport, GetUnprocessedSources r.1 sources) <$> run
  = Some [LocalFileSource "/data/b.json" 11] ∧
  (SummaryReport.FilesProcessed ∘ Summary ∘ snd) <$> run = Some 1 ∧
  (SummaryReport.AverageRowsPerFile ∘ Summary ∘ snd) <$> run
  = Some (float64_div 2 1) ∧
  float64_div 2 1 ≠ float64_div 1 1.
Proof.
  split; [by vm_compute|]. split; [by vm_compute|]. split; [by vm_compute|].
  by intros ?%(f_equal Qcanon.this).
Qed.

(** ** A cancelled run, continued *)

(** A file of 1001 rows, each with an [id] of its own: the number of
    its line. *)
Definition longFile : World :=
  {| os_Open := λ _,
       Some {| tokens := (λ i : Z, Sample.idRow (pretty i)) <$> seqZ 1 1001;
               scanErr := false |};
     gcs_NewReader := λ _ _, None |}.

(** A run that is cancelled, and the Continue that follows it. *)
Definition cancelledThenContinued `{GoRuntime} (w : World)
    (ctx : Context) (a : Analyser) (sources : list InputSource)
    : option (Analyser * AnalysisReport) :=
  match Run w ctx a sources with
  | Some (a1, rep1) =>
      if SummaryReport.IsPartialReport (Summary rep1) then
        match continueJob w None a1 sources with
        | Some (a2, Some rep2) => Some (a2, rep2)
        | _ => None
        end
      else None
  | None => None
  end.

(** C2. The claim asks for the duplicate groups of a cancelled run
    followed by Continue to be those of one uninterrupted run. The file
    of [longFile] has no two rows alike, and an uninterrupted run of an
    engine with the key check on reports no duplicate. A run with one
    worker that is cancelled at the poll before line 1001 has filed the
    first 1000 rows and leaves the source unprocessed; Continue reads the
    source again from its first line and files those rows a second time.
    The completed job reports 1000 duplicate keys, each group holding one
    location twice. *)
Theorem C2_continue_files_the_rows_read_twice :
  let a := New "id" 1 true false false in
  let sources := [LocalFileSource "/data/long.json" 12000] in
  let line1 := {| FilePath := "/data/long.json"; LineNumber := 1 |} in
  let single := @Run Sample.runtime longFile None a sources in
  let first := @Run Sample.runtime longFile (Some 2%nat) a sources in
  let both :=
    @cancelledThenContinued Sample.runtime longFile (Some 2%nat) a sources in
  (λ r : Analyser * AnalysisReport,
     (SummaryReport.IsPartialReport (Summary r.2),
      GetUnprocessedSources r.1 sources, idLocations r.1 !! "1",
      size (DuplicateIDs r.2), size (DuplicateRows r.2))) <$> single
  = Some (false, [], Some [line1], 0%nat, 0%nat) ∧
  (λ r : Analyser * AnalysisReport,
     (SummaryReport.IsPartialReport (Summary r.2),
      GetUnprocessedSources r.1 sources, size (idLocations r.1))) <$> first
  = Some (true, sources, 1000%nat) ∧
  (λ r : Analyser * AnalysisReport,
     (SummaryReport.IsPartialReport (Summary r.2),
      GetUnprocessedSources r.1 sources, DuplicateIDs r.2 !! "1",
      size (DuplicateIDs r.2), size (DuplicateRows r.2))) <$> both
  = Some (false, [], Some [line1; line1], 1000%nat, 0%nat).
Proof.
  cbv zeta. split; [|split]; vm_compute; reflexivity.
Qed.
